(** * th260: TTTR record decoding, growable tables, binning and PTU tags

    A shallow embedding of the codec layer of the [th260] package
    ([th260/ptu_format.py], [th260/tttr_result.py] and the tables of
    [th260/th260definitions.py]) and of [get_records] of
    [th260/th260.py], together with the properties that its specification
    states about it and further properties of the code.

    Conventions of the embedding:
    - a Python exception is a value of [exn]; a call that may raise returns
      a [result];
    - a numpy [uint32] array is a [list Z]; arithmetic carried out in
      [uint32] has its reduction modulo [2^32] written out;
    - a Python object whose methods mutate it is a record, and a method is
      a function from the record to the new record (and the returned
      value), inside [result] when the method may raise;
    - Python and numpy slices are modelled with their clipping of
      out-of-range and negative bounds ([slice_indices]). *)

From Stdlib Require Import ZArith List String Ascii Lia Bool.
From Stdlib.Strings Require Import Byte.
From stdpp Require Import base option list gmap strings.

Local Open Scope string_scope.
Local Open Scope list_scope.
Local Open Scope Z_scope.

(* ===================================================================== *)
(** * Part I: the embedding                                               *)
(* ===================================================================== *)

(** ** Exceptions *)

(** The exception classes that the modelled code can raise. *)
Inductive exn : Set :=
| KeyError
| IndexError
| ValueError
| OverflowError
| TypeError
| AttributeError
| RuntimeError (msg : string)
| NotImplementedError (msg : string).

Inductive result (A : Type) : Type :=
| Ok (a : A)
| Raise (e : exn).

Arguments Ok {A} a.
Arguments Raise {A} e.

Definition rbind {A B : Type} (r : result A) (k : A → result B) : result B :=
  match r with
  | Ok a => k a
  | Raise e => Raise e
  end.

Notation "'let*' x ':=' r 'in' k" := (rbind r (λ x, k))
  (at level 10, x pattern, r at level 100, k at level 200).

Definition is_ok {A : Type} (r : result A) : bool :=
  match r with Ok _ => true | Raise _ => false end.

(** ** Python slices *)

Module py.

(** One bound of [slice(start, stop).indices(len)] for step 1: a negative
    bound counts from the end, and every bound is clipped to [0, len]. *)
Definition clip_index (i len : Z) : Z :=
  if i <? 0 then Z.max (i + len) 0 else Z.min i len.

Definition slice_indices (start stop : option Z) (len : Z) : Z * Z :=
  (from_option (λ i, clip_index i len) 0 start,
   from_option (λ i, clip_index i len) len stop).

(** [a[start:stop]]. *)
Definition get_slice {A : Type} (a : list A) (start stop : option Z) : list A :=
  let '(lo, hi) := slice_indices start stop (Z.of_nat (length a)) in
  take (Z.to_nat (hi - lo)) (drop (Z.to_nat lo) a).

(** [a[start:stop] = v] on a numpy array [a]: [v] must have the length of
    the slice, or length 1, in which case it is broadcast; otherwise numpy
    raises [ValueError].  The array keeps its length. *)
Definition set_slice {A : Type} (a : list A) (start stop : option Z)
    (v : list A) : result (list A) :=
  let '(lo, hi) := slice_indices start stop (Z.of_nat (length a)) in
  let n := Z.to_nat (hi - lo) in
  let before := take (Z.to_nat lo) a in
  let after := drop (Z.to_nat lo + n)%nat a in
  if decide (length v = n) then Ok (before ++ v ++ after)
  else match v with
       | [x] => Ok (before ++ replicate n x ++ after)
       | _ => Raise ValueError
       end.

End py.

(** ** numpy array helpers *)

Module np.

(** [a[mask]] for a boolean [mask] of the length of [a]. *)
Fixpoint bool_index {A : Type} (a : list A) (mask : list bool) : list A :=
  match a, mask with
  | x :: a', b :: mask' =>
      if b then x :: bool_index a' mask' else bool_index a' mask'
  | _, _ => []
  end.

(** [a * mask]: a boolean counts as 0 or 1. *)
Fixpoint mul_mask (a : list Z) (mask : list bool) : list Z :=
  match a, mask with
  | x :: a', b :: mask' => (x * (if b then 1 else 0)) :: mul_mask a' mask'
  | _, _ => []
  end.

Definition uint32_modulus : Z := 2 ^ 32.

(** Running sum in [uint32], from the running total [acc]. *)
Fixpoint cumsum_from (acc : Z) (a : list Z) : list Z :=
  match a with
  | [] => []
  | x :: a' =>
      let acc' := (acc + x) mod uint32_modulus in
      acc' :: cumsum_from acc' a'
  end.

(** [np.cumsum(a, dtype='uint32')]. *)
Definition cumsum_uint32 (a : list Z) : list Z := cumsum_from 0 a.

(** [a[-1]]: the last element, [IndexError] on an empty array. *)
Definition last_item {A : Type} (a : list A) : result A :=
  match last a with
  | Some x => Ok x
  | None => Raise IndexError
  end.

(** [np.bincount(x)]: negative entries are refused; otherwise slot [i]
    counts the occurrences of [i], for [i] up to the largest entry. *)
Definition bincount_length (x : list Z) : Z :=
  foldr (λ v n, Z.max (v + 1) n) 0 x.

Definition count_of (x : list Z) (i : Z) : Z :=
  Z.of_nat (length (filter (λ v, v = i) x)).

Definition bincount (x : list Z) : result (list Z) :=
  if forallb (λ v, 0 <=? v) x
  then Ok (map (count_of x) (seqZ 0 (bincount_length x)))
  else Raise ValueError.

(** [out += b] for one-dimensional arrays: [b] must have the shape of
    [out] or a single element, which is broadcast; a longer or shorter
    [b] cannot be broadcast into [out] and numpy raises [ValueError]. *)
Definition iadd (out b : list Z) : result (list Z) :=
  if decide (length b = length out) then Ok (zip_with Z.add out b)
  else match b with
       | [y] => Ok (map (λ x, x + y) out)
       | _ => Raise ValueError
       end.

(** [a[:m] += b]: the view [a[:m]] is added to in place and assigned
    back. *)
Definition iadd_prefix (a : list Z) (m : Z) (b : list Z) : result (list Z) :=
  let* view := iadd (py.get_slice a None (Some m)) b in
  py.set_slice a None (Some m) view.

End np.

(** ** RecordDecoder ([ptu_format.py]) *)

(** [read_T2_record], for a record of 32 binary digits ([0 <= record <
    2^32]): the three fields are cut out of the digits, most significant
    first: 1, 6 and 25 digits. *)
Definition read_T2_record (record : Z) : result (string * Z * Z) :=
  let special := Z.land (Z.shiftr record 31) 1 in
  let channel := Z.land (Z.shiftr record 25) 0x3F in
  let timetag := Z.land record 0x1FFFFFF in
  if special =? 1 then
    if channel =? 0x3F then Ok ("overflow", 0, timetag)
    else if (1 <=? channel) && (channel <=? 15) then Ok ("marker", channel, timetag)
    else if channel =? 0 then Ok ("sync", 0, timetag)
    else Raise (RuntimeError "Invalid record.")
  else Ok ("photon", channel + 1, timetag).

(** [read_T3_record]: 1, 6, 15 and 10 digits. *)
Definition read_T3_record (record : Z) : result (string * Z * Z * Z) :=
  let special := Z.land (Z.shiftr record 31) 1 in
  let channel := Z.land (Z.shiftr record 25) 0x3F in
  let dtime := Z.land (Z.shiftr record 10) 0x7FFF in
  let nsync := Z.land record 0x3FF in
  if special =? 1 then
    if channel =? 0x3F then Ok ("overflow", 0, dtime, nsync)
    else if (1 <=? channel) && (channel <=? 15) then Ok ("marker", channel, dtime, nsync)
    else Raise (RuntimeError "Can't read record.")
  else Ok ("photon", channel + 1, dtime, nsync).

Definition bitmask_special : Z := 0x80000000.
Definition bitmask_channel : Z := 0x7e000000.
Definition bitmask_header : Z := Z.lor bitmask_special bitmask_channel.
Definition bitmask_timetag : Z := 0x01ffffff.
Definition bitmask_dtime : Z := 0x01fffc00.
Definition bitmask_nsync : Z := 0x000003ff.
Definition bit_overflow : Z := 0xfe000000.

(** The header value that selects the requested records in T2 mode.  In
    Python [+] binds tighter than [<<], so the marker line
    [0x80000000 + channel << 25] shifts the sum. *)
Definition T2_bit_selected (channel : Z) (rtype : string) : result Z :=
  if String.eqb rtype "photon" then Ok (Z.shiftl (channel - 1) 25)
  else if String.eqb rtype "marker" then Ok (Z.shiftl (0x80000000 + channel) 25)
  else if String.eqb rtype "sync" then Ok 0x80000000
  else Raise (RuntimeError (String.append "Unknown type " rtype)).

Definition T3_bit_selected (channel : Z) (rtype : string) : result Z :=
  if String.eqb rtype "photon" then Ok (Z.shiftl (channel - 1) 25)
  else if String.eqb rtype "marker" then Ok (Z.shiftl (0x80000000 + channel) 25)
  else Raise (RuntimeError (String.append "Unknown type " rtype)).

(** [read_T2_buffer(buffer, channel, rtype)], [buffer] a [uint32] array. *)
Definition read_T2_buffer (buffer : list Z) (channel : Z) (rtype : string)
  : result (list Z * list Z * Z) :=
  let* bit_selected := T2_bit_selected channel rtype in
  let header := map (λ r, Z.land r bitmask_header) buffer in
  let mask_overflows := map (λ h, h =? bit_overflow) header in
  let mask_data := map (λ h, h =? bit_selected) header in
  let timetags := map (λ r, Z.land r bitmask_timetag) buffer in
  let overflows_counts := np.cumsum_uint32 (np.mul_mask timetags mask_overflows) in
  let n_overflows := np.bool_index overflows_counts mask_data in
  let timetag := np.bool_index timetags mask_data in
  let* total_overflows := np.last_item overflows_counts in
  Ok (n_overflows, timetag, total_overflows).

(** [read_T3_buffer(buffer, channel, rtype)]. *)
Definition read_T3_buffer (buffer : list Z) (channel : Z) (rtype : string)
  : result (list Z * list Z * list Z * Z) :=
  let* bit_selected := T3_bit_selected channel rtype in
  let header := map (λ r, Z.land r bitmask_header) buffer in
  let mask_overflows := map (λ h, h =? bit_overflow) header in
  let mask_data := map (λ h, h =? bit_selected) header in
  let dtime := map (λ r, Z.shiftr (Z.land r bitmask_dtime) 10) buffer in
  let nsync := map (λ r, Z.land r bitmask_nsync) buffer in
  let overflows_counts := np.cumsum_uint32 (np.mul_mask nsync mask_overflows) in
  let n_overflows := np.bool_index overflows_counts mask_data in
  let dtime := np.bool_index dtime mask_data in
  let nsync := np.bool_index nsync mask_data in
  let* total_overflows := np.last_item overflows_counts in
  Ok (n_overflows, dtime, nsync, total_overflows).

(** ** ExtendableTable ([tttr_result.py])

    The table is modelled for [ndim=None] (a one-dimensional array).  Its
    elements are integers; the conversion to the array's [dtype] on
    assignment is not modelled, the values are taken to fit: the model
    follows the code for the values that the array holds ([0 <= v < 2^32]
    for the default dtype [uint32], the range of [int64] for the table of
    a [T2Result]).  A value outside that range is refused or reduced by
    numpy, depending on its version; the properties that state what [add]
    stores carry the range as a hypothesis.  The contents of an [np.empty]
    array are arbitrary: [np_empty i] is the value found at index [i] of
    freshly allocated storage. *)

Module ExtendableTable.
Section ExtendableTable.

Variable np_empty : nat → Z.

Record t : Type := mk {
  __data : list Z;   (* the numpy array; its length is the capacity *)
  _size : Z
}.

(** [__init__]: [np.zeros((0x100,))], size 0. *)
Definition __init__ : t := mk (replicate (Z.to_nat 0x100) 0) 0.

Definition capacity (self : t) : Z := Z.of_nat (length (__data self)).

(** [2 ** int(np.ceil(np.log2(new_size)))].  [np.log2] is taken exact
    (which it is for every size an array can have); for [new_size <= 0]
    the logarithm is [-inf] or [nan] and [int] raises. *)
Definition next_capacity (new_size : Z) : result Z :=
  if new_size =? 0 then Raise OverflowError
  else if new_size <? 0 then Raise ValueError
  else Ok (2 ^ Z.log2_up new_size).

Definition _inner_resize (self : t) (new_size : Z) : result t :=
  let capacity := Z.of_nat (length (__data self)) in
  if capacity <=? new_size then
    let* new_capacity := next_capacity new_size in
    let newdata := map np_empty (seq 0 (Z.to_nat new_capacity)) in
    let* newdata :=
      py.set_slice newdata None (Some (_size self))
        (py.get_slice (__data self) None (Some (_size self))) in
    Ok (mk newdata (_size self))
  else Ok self.

Definition add (self : t) (data : list Z) : result t :=
  let new_size := _size self + Z.of_nat (length data) in
  let* self := _inner_resize self new_size in
  let* d := py.set_slice (__data self) (Some (_size self)) (Some new_size) data in
  Ok (mk d new_size).

(** [__len__]: Python's [len] refuses a negative result. *)
Definition __len__ (self : t) : result Z :=
  if _size self <? 0 then Raise ValueError else Ok (_size self).

(** The [data] property. *)
Definition data (self : t) : list Z :=
  py.get_slice (__data self) None (Some (_size self)).

Definition remove (self : t) (nremove : Z) : result t :=
  let new_size := _size self - nremove in
  let* d := py.set_slice (__data self) None (Some new_size)
              (py.get_slice (__data self) (Some nremove) (Some (_size self))) in
  Ok (mk d new_size).

End ExtendableTable.
End ExtendableTable.

(** ** binnableTable ([tttr_result.py]) *)

Module binnableTable.
Section binnableTable.

Variable np_empty : nat → Z.

(** A subclass of [ExtendableTable]: [base] holds the inherited state. *)
Record t : Type := mk {
  base : ExtendableTable.t;
  _bin_factor : option Z;
  _bin_read_position : Z;
  _bin_counts : list Z;
  _only_bin : bool
}.

Definition __init__ (bin_factor : option Z) (only_bin : bool) : t :=
  mk ExtendableTable.__init__ bin_factor 0 [] only_bin.

(** The inherited [add]. *)
Definition add (self : t) (data : list Z) : result t :=
  let* b := ExtendableTable.add np_empty (base self) data in
  Ok (mk b (_bin_factor self) (_bin_read_position self)
         (_bin_counts self) (_only_bin self)).

(** [bin_count]: the new state and the returned counts.  The floor
    division is modelled in [Z]: it is the division of the code for a bin
    factor that the dtype of the table holds. *)
Definition bin_count (self : t) : result (t * list Z) :=
  match _bin_factor self with
  | None => Raise (RuntimeError "Need to set bin factor.")
  | Some bin_factor =>
      let newpos := ExtendableTable._size (base self) in
      if newpos =? _bin_read_position self then Ok (self, _bin_counts self)
      else
        let timetags :=
          py.get_slice (ExtendableTable.data (base self))
            (Some (_bin_read_position self)) (Some newpos) in
        let timetags := map (λ x, x `div` bin_factor) timetags in
        let* bin_count := np.bincount timetags in
        let* bin_count :=
          np.iadd_prefix bin_count
            (Z.of_nat (length (_bin_counts self))) (_bin_counts self) in
        if _only_bin self then
          let* b := ExtendableTable.remove (base self) newpos in
          Ok (mk b (_bin_factor self) 0 bin_count (_only_bin self), bin_count)
        else
          Ok (mk (base self) (_bin_factor self) newpos bin_count
                 (_only_bin self), bin_count)
  end.

Definition set_bin_factor (self : t) (bin_factor : option Z) : result t :=
  if _only_bin self
  then Raise (NotImplementedError "We don't have the raw data")
  else Ok (mk (base self) bin_factor 0 [] (_only_bin self)).

End binnableTable.
End binnableTable.

(** ** T2Result and T3Result ([tttr_result.py]) *)

Definition T2WRAPAROUND_V2 : Z := 0x2000000.
Definition T3WRAPAROUND : Z := 0x400.

(** An instance attribute that [__init__] may or may not have set: reading
    an attribute that was never set raises [AttributeError]. *)
Definition getattr {A : Type} (attr : option A) : result A :=
  match attr with
  | Some a => Ok a
  | None => Raise AttributeError
  end.

Module T2Result.
Section T2Result.

Variable np_empty : nat → Z.

Record t : Type := mk {
  _channel : Z;
  _timetags : binnableTable.t;
  _n_overflows : option Z
}.

(** [__init__].  [bin_factor] stands for the value that the constructor
    derives from [bin_time] and [global_resolution] in floating point
    ([None] when no [bin_time] is given). *)
Definition __init__ (channel : Z) (bin_factor : option Z) (only_bin : bool) : t :=
  mk channel (binnableTable.__init__ bin_factor only_bin) (Some 0).

(** [add_buffer].  The per-record counts are converted to [int64] before
    the accumulator is added, and the products with the wrap-around period
    are [int64] as well; the accumulator, a Python [int] to which [uint32]
    scalars are added, becomes an [int64] under the promotion rules of
    numpy 1 and a [uint32] under those of numpy 2.  The sums and products
    are modelled in [Z]: the model follows the code as long as the
    accumulator stays below [2^32], where nothing wraps under either
    version, and the properties that state what [add_buffer] stores carry
    that bound as a hypothesis. *)
Definition add_buffer (self : t) (buffer : list Z) : result t :=
  let* (n_overflows, timetag, total_overflows) :=
    read_T2_buffer buffer (_channel self) "photon" in
  let* acc := getattr (_n_overflows self) in
  let n_overflows := map (λ n, acc + n) n_overflows in
  let* table :=
    binnableTable.add np_empty (_timetags self)
      (zip_with (λ n t, n * T2WRAPAROUND_V2 + t) n_overflows timetag) in
  Ok (mk (_channel self) table (Some (acc + total_overflows))).

(** The [timetags] property. *)
Definition timetags (self : t) : list Z :=
  ExtendableTable.data (binnableTable.base (_timetags self)).

Definition bin_count (self : t) : result (t * list Z) :=
  let* (table, counts) := binnableTable.bin_count (_timetags self) in
  Ok (mk (_channel self) table (_n_overflows self), counts).

End T2Result.
End T2Result.

Module T3Result.
Section T3Result.

Variable np_empty : nat → Z.

Record t : Type := mk {
  _channel : Z;
  _nsyncs : binnableTable.t;
  _dtimes : ExtendableTable.t;
  _n_overflows : option Z
}.

(** [__init__].  [bin_factor] stands for [int(1e9 * bin_time /
    global_resolution)]; with the default [bin_time=None] that product
    raises [TypeError].  The constructor has no assignment to
    [_n_overflows]: the attribute is absent from the new object. *)
Definition __init__ (channel : Z) (bin_factor : option Z) (only_bin : bool)
  : result t :=
  match bin_factor with
  | None => Raise TypeError
  | Some f =>
      Ok (mk channel (binnableTable.__init__ (Some f) only_bin)
             ExtendableTable.__init__ None)
  end.

Definition add_buffer (self : t) (buffer : list Z) : result t :=
  let* (n_overflows, dtime, nsync, total_overflows) :=
    read_T3_buffer buffer (_channel self) "photon" in
  let* acc := getattr (_n_overflows self) in
  let n_overflows := map (λ n, acc + n) n_overflows in
  let* ns :=
    binnableTable.add np_empty (_nsyncs self)
      (zip_with (λ n s, n * T3WRAPAROUND + s) n_overflows nsync) in
  let* dt := ExtendableTable.add np_empty (_dtimes self) dtime in
  Ok (mk (_channel self) ns dt (Some (acc + total_overflows))).

End T3Result.
End T3Result.

(** ** Tables and constants of [th260definitions.py] *)

Module thdef.

Definition type_code : gmap string Z :=
  list_to_map
    [("Empty8", 0xFFFF0008); ("Bool8", 0x00000008); ("Int8", 0x10000008);
     ("BitSet64", 0x11000008); ("Color8", 0x12000008);
     ("Float8", 0x20000008); ("TDateTime", 0x21000008);
     ("Float8Array", 0x2001FFFF); ("ASCII-String", 0x4001FFFF);
     ("Wide-String", 0x4002FFFF); ("BinaryBlob", 0xFFFFFFFF)].

Definition tag_types : gmap string string :=
  list_to_map
    [("File_GUID", "ASCII-String"); ("Measurement_Mode", "Int8");
     ("Measurement_SubMode", "Int8");
     ("MeasDesc_GlobalResolution", "Float8");
     ("MeasDesc_Resolution", "Float8"); ("TTResult_SyncRate", "Int8");
     ("TTResult_NumberOfRecords", "Int8");
     ("TTResultFormat_TTTRRecType", "Int8");
     ("TTResultFormat_BitsPerRecord", "Int8");
     ("CreatorSW_Name", "ASCII-String");
     ("CreatorSW_Version", "ASCII-String");
     ("CreatorSW_ContentVersion", "ASCII-String");
     ("MeasDesc_AcquisitionTime", "Int8");
     ("File_AssuredContent", "ASCII-String"); ("MeasDesc_StopAt", "Int8");
     ("MeasDesc_StopOnOvfl", "Bool8"); ("MeasDesc_Restart", "Bool8");
     ("TTResult_StopReason", "Int8"); ("TTResult_InputRate", "Int8");
     ("File_Comment", "ASCII-String"); ("MeasDesc_BinningFactor", "Int8");
     ("MeasDesc_Offset", "Int8"); ("HWSync_Divider", "Int8");
     ("HWSync_Offset", "Int8"); ("HWInputChan_Offset", "Int8");
     ("HWSync_CFDZeroCross", "Int8"); ("HWSync_CFDLevel", "Int8");
     ("HWInputChan_CFDZeroCross", "Int8");
     ("HWInputChan_CFDLevel", "Int8"); ("HWSync_TrgEdge", "Int8");
     ("HWSync_TrgLevel", "Int8"); ("HWInpChan_TrgEdge", "Int8");
     ("HWInpChan_TrgLevel", "Int8"); ("Header_End", "Empty8")].

Definition BITSLEN_MAGIC : Z := 8.
Definition BITSLEN_VERSION : Z := 8.
Definition BITSLEN_TAG_ID : Z := 32.
Definition BITSLEN_TAG_IDX : Z := 4.
Definition BITSLEN_TAG_TYPECODE : Z := 4.
Definition BITSLEN_TAG_VALUE : Z := 8.

Definition TTTR_MAGIC : string := "PQTTTR".
Definition FILE_VERSION : string := "1.1.00".

End thdef.

(** ** Python values and byte strings *)

(** The values that a tag can carry.  A [float] is represented by the 64
    bits of its IEEE-754 encoding. *)
#[warnings="-register-all"]
Inductive pyvalue : Type :=
| PyNone
| PyInt (z : Z)
| PyBool (b : bool)
| PyFloat (bits : Z)
| PyStr (s : string)
| PyBytes (b : list byte)
| PyList (items : list pyvalue).

(** A key of the tag dictionary: a tag id, or a tuple of a tag id and an
    index. *)
Inductive tagkey : Type :=
| KeyStr (tag_id : string)
| KeyTuple (tag_id : string) (tag_idx : pyvalue).

Module bytes.

Definition byte_of_Z (z : Z) : byte :=
  default x00 (Byte.of_N (Z.to_N (z mod 256))).

(** [bytes(n)]: [n] zero bytes, [ValueError] for a negative [n]. *)
Definition zeros (n : Z) : result (list byte) :=
  if n <? 0 then Raise ValueError else Ok (replicate (Z.to_nat n) x00).

(** [s.encode()] for a string whose characters are its bytes. *)
Definition encode (s : string) : list byte := list_byte_of_string s.

(** The [length] low-order bytes of [z], least significant first; a
    negative [z] comes out in two's complement. *)
Fixpoint little_endian (length : nat) (z : Z) : list byte :=
  match length with
  | O => []
  | S n => byte_of_Z z :: little_endian n (z `div` 256)
  end.

(** [z.to_bytes(length, byteorder='little', signed=signed)]. *)
Definition to_bytes (z : Z) (length : Z) (signed : bool) : result (list byte) :=
  if length <? 0 then Raise ValueError
  else
    let bits := 8 * length in
    let fits :=
      if length =? 0 then z =? 0
      else if signed then (- 2 ^ (bits - 1) <=? z) && (z <? 2 ^ (bits - 1))
      else (0 <=? z) && (z <? 2 ^ bits) in
    if fits then Ok (little_endian (Z.to_nat length) z)
    else Raise OverflowError.

End bytes.

(** [d[k]] on a dictionary. *)
Definition dict_get {V : Type} (d : gmap string V) (k : string) : result V :=
  match d !! k with
  | Some v => Ok v
  | None => Raise KeyError
  end.

(** ** TagCodec and PTUWriter ([ptu_format.py]) *)

(** The file system: the content of every file that exists. *)
Definition filesystem : Type := gmap string (list byte).

Module ptu_format.
Section ptu_format.

(** The two dictionaries of [th260definitions] that [write_tag] consults,
    and [struct.pack("<d", value)], whose conversion of a number to the
    eight bytes of a double is not modelled. *)
Variable tag_types : gmap string string.
Variable type_code : gmap string Z.
Variable struct_pack_d : pyvalue → result (list byte).

(** [tab_string(bstring, length)]. *)
Definition tab_string (bstring : list byte) (length : Z) : result (list byte) :=
  let* pad := bytes.zeros (length - Z.of_nat (List.length bstring)) in
  Ok (bstring ++ pad).

Definition string_in (s : string) (l : list string) : bool :=
  existsb (String.eqb s) l.

(** [value.to_bytes(...)]: only [int] (and its subclass [bool]) has the
    method. *)
Definition value_to_bytes (value : pyvalue) (length : Z) (signed : bool)
  : result (list byte) :=
  match value with
  | PyInt z => bytes.to_bytes z length signed
  | PyBool b => bytes.to_bytes (if b then 1 else 0) length signed
  | _ => Raise AttributeError
  end.

(** [header += value] for a [bytes] header. *)
Definition bytes_concat (header : list byte) (value : pyvalue) : result (list byte) :=
  match value with
  | PyBytes b => Ok (header ++ b)
  | _ => Raise TypeError
  end.

(** The loop [for val in value: out += struct.pack("<d", val)]. *)
Fixpoint pack_all (items : list pyvalue) (out : list byte) : result (list byte) :=
  match items with
  | [] => Ok out
  | val :: rest =>
      let* b := struct_pack_d val in
      pack_all rest (out ++ b)
  end.

(** The items that [for val in value] visits: the elements of a list, the
    bytes of a [bytes] object as integers, the characters of a string;
    the other values are not iterable. *)
Definition iterate (value : pyvalue) : result (list pyvalue) :=
  match value with
  | PyList items => Ok items
  | PyBytes b => Ok (map (λ x, PyInt (Z.of_N (Byte.to_N x))) b)
  | PyStr s => Ok (map (λ c, PyStr (String c EmptyString)) (list_ascii_of_string s))
  | _ => Raise TypeError
  end.

(** The payload bytes of an array or string tag. *)
Definition prepare_value (dtype : string) (is_string : bool) (value : pyvalue)
  : result (list byte) :=
  if is_string then
    match value with
    | PyStr s => Ok (bytes.encode s)
    | _ => Raise AttributeError
    end
  else if String.eqb dtype "Float8Array" then
    let* items := iterate value in
    pack_all items []
  else
    match value with
    | PyBytes b => Ok b
    | _ => Raise TypeError
    end.

Definition write_tag (key : tagkey) (value : pyvalue) : result (list byte) :=
  let '(tag_id, tag_idx) :=
    match key with
    | KeyTuple tag_id tag_idx => (tag_id, tag_idx)
    | KeyStr tag_id => (tag_id, PyNone)
    end in
  let* dtype := dict_get tag_types tag_id in
  let* header := tab_string (bytes.encode tag_id) thdef.BITSLEN_TAG_ID in
  (* Index *)
  let* idx :=
    match tag_idx with
    | PyNone => Ok (replicate (Z.to_nat thdef.BITSLEN_TAG_IDX) xff)
    | _ => value_to_bytes tag_idx thdef.BITSLEN_TAG_IDX false
    end in
  let header := header ++ idx in
  (* Type Code *)
  let* code := dict_get type_code dtype in
  let* code := bytes.to_bytes code thdef.BITSLEN_TAG_TYPECODE false in
  let header := header ++ code in
  (* Data *)
  let is_array :=
    string_in dtype ["Float8Array"; "ASCII-String"; "Wide-String"; "BinaryBlob"] in
  let is_string := string_in dtype ["ASCII-String"; "Wide-String"] in
  if String.eqb dtype "Empty8" then
    let* z := bytes.zeros thdef.BITSLEN_TAG_VALUE in
    Ok (header ++ z)
  else if string_in dtype ["Bool8"; "Int8"] then
    let* v := value_to_bytes value thdef.BITSLEN_TAG_VALUE true in
    Ok (header ++ v)
  else if String.eqb dtype "Float8" then
    let* v := struct_pack_d value in
    Ok (header ++ v)
  else if string_in dtype ["BitSet64"; "Color8"; "TDateTime"] then
    bytes_concat header value
  else if is_array then
    let* value := prepare_value dtype is_string value in
    let length := Z.of_nat (List.length value) in
    let length := if is_string then length + 1 else length in
    let length := length + (8 - length `mod` 8) `mod` 8 in
    let* l := bytes.to_bytes length thdef.BITSLEN_TAG_VALUE false in
    let header := header ++ l in
    let* v := tab_string value length in
    Ok (header ++ v)
  else Raise (RuntimeError (String.append "No such dtype " dtype)).

(** The loop [for key in tags: header += write_tag(key, tags[key])] over
    the items of the dictionary, in its order. *)
Fixpoint write_tags (tags : list (tagkey * pyvalue)) (header : list byte)
  : result (list byte) :=
  match tags with
  | [] => Ok header
  | (key, value) :: rest =>
      let* b := write_tag key value in
      write_tags rest (header ++ b)
  end.

(** [open(name, "wb+")] creates or truncates the file; [write] appends at
    the position of the stream. *)
Definition file_open_wb (fs : filesystem) (name : string) : filesystem :=
  <[name := []]> fs.

Definition file_write (fs : filesystem) (name : string) (b : list byte)
  : filesystem :=
  alter (λ content, content ++ b) name fs.

(** The header that [write_ptu] assembles before it opens the file. *)
Definition ptu_header (tags : list (tagkey * pyvalue)) : result (list byte) :=
  let* header := tab_string (bytes.encode thdef.TTTR_MAGIC) thdef.BITSLEN_MAGIC in
  let* version :=
    tab_string (bytes.encode thdef.FILE_VERSION) thdef.BITSLEN_VERSION in
  let header := header ++ version in
  let* header := write_tags tags header in
  let* e := write_tag (KeyStr "Header_End") PyNone in
  Ok (header ++ e).

(** [write_ptu(outputfilename, data, tags)], [data] being the bytes of the
    record array: the file system after the call, and how the call
    ended. *)
Definition write_ptu (fs : filesystem) (outputfilename : string)
    (data : list byte) (tags : list (tagkey * pyvalue))
  : filesystem * result unit :=
  match ptu_header tags with
  | Raise e => (fs, Raise e)
  | Ok header =>
      let fs := file_open_wb fs outputfilename in
      let fs := file_write fs outputfilename header in
      let fs := file_write fs outputfilename data in
      (fs, Ok tt)
  end.

End ptu_format.
End ptu_format.

(** ** The records of a measurement ([th260.py]) *)

(** [np.concatenate(arrays)] on a list of one-dimensional arrays: numpy
    needs at least one array. *)
Definition np_concatenate (arrays : list (list Z)) : result (list Z) :=
  match arrays with
  | [] => Raise ValueError
  | _ => Ok (concat arrays)
  end.

(** [del a[start:stop]] on a list. *)
Definition py_del_slice {A : Type} (a : list A) (start stop : option Z)
  : list A :=
  let '(lo, hi) := py.slice_indices start stop (Z.of_nat (length a)) in
  take (Z.to_nat lo) a ++ drop (Z.to_nat lo + Z.to_nat (hi - lo)) a.

Module TH260.
Section TH260.

Variable np_empty : nat → Z.

(** The attributes of a [TH260] object that [get_records] reads and
    writes.  [__init__] sets [_keep_buffer] and [_local_buffer];
    [_records] and [_records_read_position] exist once [measure] has set
    them.  The dictionary [_records], from a channel to its [T2Result]
    ([measure] refuses every mode but T2), is the list of its items in
    insertion order; [_local_buffer] is the list of the buffers that the
    measurement thread has saved. *)
Record t : Type := mk {
  _keep_buffer : bool;
  _local_buffer : list (list Z);
  _records : option (list (Z * T2Result.t));
  _records_read_position : option Z
}.

(** The loop [for channel in self._records:
    self._records[channel].add_buffer(buffer)]. *)
Fixpoint add_buffer_all (records : list (Z * T2Result.t)) (buffer : list Z)
  : result (list (Z * T2Result.t)) :=
  match records with
  | [] => Ok []
  | (channel, r) :: rest =>
      let* r := T2Result.add_buffer np_empty r buffer in
      let* rest := add_buffer_all rest buffer in
      Ok ((channel, r) :: rest)
  end.

(** [get_records], for a call during which the measurement thread saves
    no buffer: the object after the call, whose [_records] is the
    dictionary that the call returns. *)
Definition get_records (self : t) : result t :=
  let buffer_len := Z.of_nat (length (_local_buffer self)) in
  let* position := getattr (_records_read_position self) in
  if position =? buffer_len then
    let* _ := getattr (_records self) in
    Ok self
  else
    let* buffer :=
      np_concatenate
        (py.get_slice (_local_buffer self) (Some position) (Some buffer_len)) in
    let* records := getattr (_records self) in
    let* records := add_buffer_all records buffer in
    (* Empty buffer if needed *)
    if _keep_buffer self then
      Ok (mk (_keep_buffer self) (_local_buffer self) (Some records)
            (Some buffer_len))
    else
      Ok (mk (_keep_buffer self)
            (py_del_slice (_local_buffer self) (Some position) (Some buffer_len))
            (Some records) (Some 0)).

End TH260.
End TH260.

(** ** Notions used to state the properties *)

Module spec.

(** *** Records *)

(** The record is an overflow record: special bit set, channel field
    [0x3F]. *)
Definition is_overflow (r : Z) : bool :=
  Z.land r bitmask_header =? bit_overflow.

(** The record is a photon record of the logical channel [channel]:
    special bit clear, channel field [channel - 1]. *)
Definition is_photon_on (channel r : Z) : bool :=
  Z.land r bitmask_header =? Z.shiftl (channel - 1) 25.

(** The low-order field of a record: [timetag] in T2, [nsync] in T3. *)
Definition T2_field (r : Z) : Z := Z.land r bitmask_timetag.
Definition T3_field (r : Z) : Z := Z.land r bitmask_nsync.
Definition T3_dtime (r : Z) : Z := Z.shiftr (Z.land r bitmask_dtime) 10.

(** The payload that a record contributes to the overflow count. *)
Definition overflow_payload (field : Z → Z) (r : Z) : Z :=
  if is_overflow r then field r else 0.

(** The sum of the contributions [w] of the records of a sequence. *)
Definition weighted_sum (w : Z → Z) (records : list Z) : Z :=
  foldr (λ r s, w r + s) 0 records.

(** The sum of the payloads of the overflow records of a sequence. *)
Definition overflow_sum (field : Z → Z) (records : list Z) : Z :=
  weighted_sum (overflow_payload field) records.

(** ... of the overflow records at positions at or before [p]. *)
Definition overflow_sum_upto (field : Z → Z) (buffer : list Z) (p : nat) : Z :=
  overflow_sum field (take (S p) buffer).

(** The positions of the records of a buffer that satisfy [sel], in
    increasing order. *)
Definition positions (sel : Z → bool) (buffer : list Z) : list nat :=
  List.filter (λ p, sel (nth p buffer 0)) (seq 0 (length buffer)).

(** What the claim about prefix sums says of the T2 decoder. *)
Definition T2_exact_prefix_sums (buffer : list Z) (channel : Z) : Prop :=
  let ps := positions (is_photon_on channel) buffer in
  read_T2_buffer buffer channel "photon"
  = Ok (map (overflow_sum_upto T2_field buffer) ps,
        map (λ p, T2_field (nth p buffer 0)) ps,
        overflow_sum T2_field buffer).

Definition T3_exact_prefix_sums (buffer : list Z) (channel : Z) : Prop :=
  let ps := positions (is_photon_on channel) buffer in
  read_T3_buffer buffer channel "photon"
  = Ok (map (overflow_sum_upto T3_field buffer) ps,
        map (λ p, T3_dtime (nth p buffer 0)) ps,
        map (λ p, T3_field (nth p buffer 0)) ps,
        overflow_sum T3_field buffer).

(** *** Tables *)




Definition is_power_of_two (c : Z) : Prop := ∃ k, 0 ≤ k ∧ c = 2 ^ k.



(** A table in a state that the class is written for: the size is a
    number of elements that the storage holds. *)
Definition well_formed (t : ExtendableTable.t) : Prop :=
  is_power_of_two (ExtendableTable.capacity t)
  ∧ 0 ≤ ExtendableTable._size t ≤ ExtendableTable.capacity t.




(** *** Binning *)

(** The bin index of every timestamp. *)
Definition bins (bin_factor : Z) (timestamps : list Z) : list Z :=
  map (λ x, x `div` bin_factor) timestamps.

(** The histogram of a sequence of bin indices: slot [i] counts the
    occurrences of [i], for [i] up to the largest index. *)
Definition histogram (x : list Z) : list Z :=
  map (np.count_of x) (seqZ 0 (np.bincount_length x)).

(** [add(xs)], [bin_count()], [add(ys)], [bin_count()] on a new
    [binnableTable]: the counts that the second [bin_count] returns. *)
Definition incremental_counts (np_empty : nat → Z) (bin_factor : Z)
    (only_bin : bool) (xs ys : list Z) : result (list Z) :=
  let t := binnableTable.__init__ (Some bin_factor) only_bin in
  let* t := binnableTable.add np_empty t xs in
  let* (t, _) := binnableTable.bin_count t in
  let* t := binnableTable.add np_empty t ys in
  let* (_, counts) := binnableTable.bin_count t in
  Ok counts.

(** [add(xs + ys)], [bin_count()] on a new [binnableTable]. *)
Definition one_shot_counts (np_empty : nat → Z) (bin_factor : Z)
    (only_bin : bool) (xs ys : list Z) : result (list Z) :=
  let t := binnableTable.__init__ (Some bin_factor) only_bin in
  let* t := binnableTable.add np_empty t (xs ++ ys) in
  let* (_, counts) := binnableTable.bin_count t in
  Ok counts.

(** *** Tags *)

Definition key_tag_id (key : tagkey) : string :=
  match key with
  | KeyStr tag_id => tag_id
  | KeyTuple tag_id _ => tag_id
  end.

(** The type names for which [write_tag] has a branch. *)
Definition handled_dtypes : list string :=
  ["Empty8"; "Bool8"; "Int8"; "Float8"; "BitSet64"; "Color8"; "TDateTime";
   "Float8Array"; "ASCII-String"; "Wide-String"; "BinaryBlob"].

(** The tag has no type that the codec recognizes: its id is not in
    [tag_types], or the type found there has no type code or no branch
    in [write_tag]. *)
Definition unrecognized_type (tag_types : gmap string string)
    (type_code : gmap string Z) (key : tagkey) : bool :=
  match tag_types !! key_tag_id key with
  | None => true
  | Some dtype =>
      negb (ptu_format.string_in dtype handled_dtypes)
      || bool_decide (type_code !! dtype = None)
  end.

(** The bytes that the scenario of the Int8 tag expects after the padded
    id: the index field, the type code and the value 42. *)
Definition int8_42_fields : list byte :=
  [xff; xff; xff; xff] ++ [x08; x00; x00; x10]
  ++ [x2a; x00; x00; x00; x00; x00; x00; x00].

Definition zero_padded (tag_id : string) : list byte :=
  bytes.encode tag_id
  ++ replicate (32 - length (bytes.encode tag_id)) x00.

End spec.

(** ** Further notions: records, sessions, bytes *)

Module aux.

(** *** Records *)

(** The low-order field of the record when [read_T2_record] reads it as a
    record of the given kind and channel. *)
Definition T2_reads_as (kind : string) (channel r : Z) : option Z :=
  match read_T2_record r with
  | Ok (k, c, timetag) =>
      if String.eqb k kind && (c =? channel) then Some timetag else None
  | Raise _ => None
  end.

(** The [dtime] and [nsync] fields of the record when [read_T3_record]
    reads it as a record of the given kind and channel. *)
Definition T3_reads_as (kind : string) (channel r : Z) : option (Z * Z) :=
  match read_T3_record r with
  | Ok (k, c, dtime, nsync) =>
      if String.eqb k kind && (c =? channel) then Some (dtime, nsync)
      else None
  | Raise _ => None
  end.

(** The 32-bit record that carries the given reading: the inverse of
    [read_T2_record]. *)
Definition T2_record_of (kind : string) (channel timetag : Z) : option Z :=
  if String.eqb kind "photon" then Some ((channel - 1) * 2 ^ 25 + timetag)
  else if String.eqb kind "overflow" then Some (0xfe000000 + timetag)
  else if String.eqb kind "marker"
       then Some (0x80000000 + channel * 2 ^ 25 + timetag)
  else if String.eqb kind "sync" then Some (0x80000000 + timetag)
  else None.

Definition T3_record_of (kind : string) (channel dtime nsync : Z) : option Z :=
  if String.eqb kind "photon"
  then Some ((channel - 1) * 2 ^ 25 + dtime * 2 ^ 10 + nsync)
  else if String.eqb kind "overflow"
       then Some (0xfe000000 + dtime * 2 ^ 10 + nsync)
  else if String.eqb kind "marker"
       then Some (0x80000000 + channel * 2 ^ 25 + dtime * 2 ^ 10 + nsync)
  else None.

(** *** Sessions of a channel result *)

(** [add_buffer] for each buffer of a sequence, in order, up to the first
    call that raises. *)
Fixpoint T2_add_buffers (np_empty : nat → Z) (r : T2Result.t)
    (buffers : list (list Z)) : result T2Result.t :=
  match buffers with
  | [] => Ok r
  | buffer :: rest =>
      let* r := T2Result.add_buffer np_empty r buffer in
      T2_add_buffers np_empty r rest
  end.

(** The total overflow delta of a buffer: the sum of the payloads of its
    overflow records, in [uint32]. *)
Definition T2_total (buffer : list Z) : Z :=
  spec.overflow_sum spec.T2_field buffer `mod` 2 ^ 32.

(** The absolute timetags that the photons of a channel in a buffer get
    when [acc] overflows were counted before the buffer. *)
Definition T2_absolute (acc : Z) (channel : Z) (buffer : list Z) : list Z :=
  map (λ p, (acc + spec.overflow_sum_upto spec.T2_field buffer p `mod` 2 ^ 32)
            * T2WRAPAROUND_V2
            + spec.T2_field (nth p buffer 0))
    (spec.positions (spec.is_photon_on channel) buffer).

(** The absolute timetags of a sequence of buffers, the overflows of each
    buffer being counted for the buffers after it. *)
Fixpoint T2_session_timetags (acc : Z) (channel : Z)
    (buffers : list (list Z)) : list Z :=
  match buffers with
  | [] => []
  | buffer :: rest =>
      T2_absolute acc channel buffer
      ++ T2_session_timetags (acc + T2_total buffer) channel rest
  end.

(** *** Polling the records of a measurement *)

(** The measurement thread saves the buffers that it read, in order:
    [self._local_buffer.append(buffer)] for each of them. *)
Definition buffers_arrive (s : TH260.t) (buffers : list (list Z)) : TH260.t :=
  TH260.mk (TH260._keep_buffer s) (TH260._local_buffer s ++ buffers)
    (TH260._records s) (TH260._records_read_position s).

(** A channel result with room for [room] more overflows: the table is
    well formed, and the accumulator is set, is not negative and stays
    below [2^32] when [room] is added to it, so that it does not wrap in
    the [uint32] in which numpy 2 keeps it and the timetags computed from
    it stay within [int64]. *)
Definition T2_ready (room : Z) (r : T2Result.t) : Prop :=
  spec.well_formed (binnableTable.base (T2Result._timetags r))
  ∧ ∃ acc, T2Result._n_overflows r = Some acc ∧ 0 ≤ acc ∧ acc + room < 2 ^ 32.

(** What a channel result holds: the stored timetags and the
    accumulator. *)
Definition T2_content (r : T2Result.t) : list Z * option Z :=
  (T2Result.timetags r, T2Result._n_overflows r).

(** Every saved buffer has been read: the state that [measure] and a
    [get_records] that returned leave, where the read position is the
    number of saved buffers, which is 0 when the buffers are not kept. *)
Definition all_read (s : TH260.t) : Prop :=
  TH260._records_read_position s
  = Some (Z.of_nat (length (TH260._local_buffer s)))
  ∧ (TH260._keep_buffer s = false → TH260._local_buffer s = []).

(** *** Counts *)

(** The sum of a sequence of counts. *)
Definition total (counts : list Z) : Z := foldr Z.add 0 counts.

(** The number of timestamps that fall into bin [i]. *)
Definition in_bin (bin_factor : Z) (timestamps : list Z) (i : Z) : Z :=
  Z.of_nat (length (filter (λ x, x `div` bin_factor = i) timestamps)).

(** *** Bytes *)

(** [int.from_bytes(b, byteorder='little', signed=False)]. *)
Fixpoint from_little_endian (b : list byte) : Z :=
  match b with
  | [] => 0
  | x :: rest => Z.of_N (Byte.to_N x) + 256 * from_little_endian rest
  end.

(** [int.from_bytes(b, byteorder='little', signed=signed)]. *)
Definition from_bytes (b : list byte) (signed : bool) : Z :=
  let u := from_little_endian b in
  let bits := 8 * Z.of_nat (length b) in
  if signed && (2 ^ (bits - 1) <=? u) then u - 2 ^ bits else u.

(** The length of the payload of a string tag whose string has [len]
    bytes: room for the string and a null byte, rounded up to a multiple
    of 8. *)
Definition padded_length (len : Z) : Z :=
  len + 1 + (8 - (len + 1) `mod` 8) `mod` 8.

(** *** PTU files *)

(** The 16 bytes that open a PTU file: the magic and the version, each
    padded with zero bytes to 8 bytes. *)
Definition ptu_preamble : list byte :=
  (bytes.encode "PQTTTR" ++ [x00; x00]) ++ (bytes.encode "1.1.00" ++ [x00; x00]).

(** The record that closes the header: the id [Header_End] padded to 32
    bytes, no index, the type code [0xFFFF0008] and eight zero bytes. *)
Definition header_end_record : list byte :=
  spec.zero_padded "Header_End" ++ [xff; xff; xff; xff]
  ++ [x08; x00; xff; xff] ++ replicate 8 x00.

End aux.

(* ===================================================================== *)
(** * Part II: properties                                                 *)
(* ===================================================================== *)

(** ** Small tactics *)

(** Case analysis on the first [result] that a computation binds. *)
Ltac destruct_bind :=
  match goal with
  | |- context [rbind ?r _] => destruct r eqn:?; simpl
  | H : context [rbind ?r _] |- _ => destruct r eqn:?; simpl in H
  end.

(** ** RecordDecoder: totality on non-empty buffers *)

Lemma cumsum_from_length acc a : length (np.cumsum_from acc a) = length a.
Proof. revert acc; induction a as [|x a IH]; intros acc; simpl; [done|]. by rewrite IH. Qed.

Lemma mul_mask_map_length (f : Z → Z) (g : Z → bool) (buffer : list Z) :
  length (np.mul_mask (map f buffer) (map g buffer)) = length buffer.
Proof. induction buffer as [|r buffer IH]; simpl; [done|]. by rewrite IH. Qed.

Lemma last_item_ok {A : Type} (a : list A) :
  a ≠ [] → ∃ x, np.last_item a = Ok x.
Proof.
  intros Hne. unfold np.last_item.
  destruct (last a) as [x|] eqn:Hl; [by exists x|].
  by apply last_None in Hl.
Qed.

Lemma overflows_counts_nonempty (f : Z → Z) (g : Z → bool) (buffer : list Z) :
  buffer ≠ [] →
  np.cumsum_uint32 (np.mul_mask (map f buffer) (map g buffer)) ≠ [].
Proof.
  intros Hne Hnil. apply (f_equal length) in Hnil.
  unfold np.cumsum_uint32 in Hnil.
  rewrite cumsum_from_length, mul_mask_map_length in Hnil.
  by destruct buffer.
Qed.

(** On a non-empty buffer the T2 buffer decoder returns, whatever the
    records are: no record makes it raise. *)
Lemma read_T2_buffer_photon_total (buffer : list Z) (channel : Z) :
  buffer ≠ [] → is_ok (read_T2_buffer buffer channel "photon") = true.
Proof.
  intros Hne. unfold read_T2_buffer. simpl.
  destruct (last_item_ok _ (overflows_counts_nonempty
    (λ r, Z.land r bitmask_timetag)
    (λ r, Z.land r bitmask_header =? bit_overflow) buffer Hne)) as [x Hx].
  rewrite map_map. rewrite Hx. reflexivity.
Qed.

Lemma read_T3_buffer_photon_total (buffer : list Z) (channel : Z) :
  buffer ≠ [] → is_ok (read_T3_buffer buffer channel "photon") = true.
Proof.
  intros Hne. unfold read_T3_buffer. simpl.
  destruct (last_item_ok _ (overflows_counts_nonempty
    (λ r, Z.land r bitmask_nsync)
    (λ r, Z.land r bitmask_header =? bit_overflow) buffer Hne)) as [x Hx].
  rewrite map_map. rewrite Hx. reflexivity.
Qed.

(** ** The concrete T2 scenario *)

(** C5. Decoding [[0x00000005; 0xFE000003; 0x00000010]] in T2 mode for
    channel 1 yields the timetags 5 and 16 with overflow counts 0 and 3 and
    a total overflow delta of 3; after [T2Result.add_buffer] on a new
    result the stored absolute timestamps are 5 and [3*0x2000000+16] (and
    the accumulator is 3). *)
Theorem C5_T2_three_record_scenario (np_empty : nat → Z) :
  read_T2_buffer [0x00000005; 0xFE000003; 0x00000010] 1 "photon"
    = Ok ([0; 3], [5; 16], 3)
  ∧ ∃ r,
      T2Result.add_buffer np_empty (T2Result.__init__ 1 None false)
        [0x00000005; 0xFE000003; 0x00000010] = Ok r
      ∧ T2Result.timetags r = [5; 3 * 0x2000000 + 16]
      ∧ T2Result._n_overflows r = Some 3.
Proof.
  split; [reflexivity|].
  eexists. split; [reflexivity|]. split; reflexivity.
Qed.

(** ** Empty buffers *)

(** C10. On an empty buffer both buffer decoders raise: [IndexError] from
    the last element of the empty cumulative sum for every record kind they
    know, and [RuntimeError] for an unknown kind; they never return empty
    arrays with a total of 0. *)
Theorem C10_empty_buffer_raises (channel : Z) (rtype : string) :
  read_T2_buffer [] channel rtype
    = (if String.eqb rtype "photon" || String.eqb rtype "marker"
          || String.eqb rtype "sync"
       then Raise IndexError
       else Raise (RuntimeError (String.append "Unknown type " rtype)))
  ∧ read_T3_buffer [] channel rtype
    = (if String.eqb rtype "photon" || String.eqb rtype "marker"
       then Raise IndexError
       else Raise (RuntimeError (String.append "Unknown type " rtype))).
Proof.
  unfold read_T2_buffer, read_T3_buffer, T2_bit_selected, T3_bit_selected.
  split.
  - destruct (String.eqb rtype "photon"); [reflexivity|].
    destruct (String.eqb rtype "marker"); [reflexivity|].
    destruct (String.eqb rtype "sync"); reflexivity.
  - destruct (String.eqb rtype "photon"); [reflexivity|].
    destruct (String.eqb rtype "marker"); reflexivity.
Qed.

(** ** Record kinds that the buffer decoders do not handle *)

Lemma header_bounds (r : Z) :
  0 ≤ Z.land r bitmask_header < 2 ^ 32.
Proof.
  assert (Hm : Z.land r bitmask_header
               = (Z.land r bitmask_header) `mod` 2 ^ 32).
  { rewrite <- (Z.land_ones _ 32) by lia.
    rewrite <- Z.land_assoc. f_equal. }
  rewrite Hm. apply Z.mod_pos_bound. lia.
Qed.

(** The header value computed for a marker channel is beyond every header
    that a record can have. *)
Lemma marker_bit_selected_unmatched (r channel : Z) :
  0 ≤ channel →
  (Z.land r bitmask_header =? Z.shiftl (0x80000000 + channel) 25) = false.
Proof.
  intros Hc. apply Z.eqb_neq. pose proof (header_bounds r) as Hb.
  rewrite Z.shiftl_mul_pow2 by lia. lia.
Qed.

Lemma bool_index_none {A : Type} (a : list A) (mask : list bool) :
  Forall (λ b, b = false) mask → np.bool_index a mask = [].
Proof.
  revert mask; induction a as [|x a IH]; intros [|b mask] Hm; simpl; try done.
  inversion Hm as [|? ? Hb Hm']; subst. by apply IH.
Qed.

Lemma marker_mask_all_false (buffer : list Z) (channel : Z) :
  0 ≤ channel →
  Forall (λ b, b = false)
    (map (λ h, h =? Z.shiftl (0x80000000 + channel) 25)
       (map (λ r, Z.land r bitmask_header) buffer)).
Proof.
  intros Hc. induction buffer as [|r buffer IH]; simpl; constructor;
    [by apply marker_bit_selected_unmatched | done].
Qed.

(** Whatever the buffer holds, decoding with kind ['marker'] returns no
    record at all for a channel that is not negative. *)
Lemma marker_decoding_selects_nothing (buffer : list Z) (channel : Z) :
  0 ≤ channel → buffer ≠ [] →
  (∃ total, read_T2_buffer buffer channel "marker" = Ok ([], [], total))
  ∧ (∃ total, read_T3_buffer buffer channel "marker" = Ok ([], [], [], total)).
Proof.
  intros Hc Hne. pose proof (marker_mask_all_false buffer channel Hc) as Hm.
  split.
  - unfold read_T2_buffer. simpl.
    destruct (last_item_ok _ (overflows_counts_nonempty
      (λ r, Z.land r bitmask_timetag)
      (λ r, Z.land r bitmask_header =? bit_overflow) buffer Hne)) as [x Hx].
    rewrite (map_map _ (λ h, h =? bit_overflow)). rewrite Hx. simpl.
    rewrite !bool_index_none by done. by exists x.
  - unfold read_T3_buffer. simpl.
    destruct (last_item_ok _ (overflows_counts_nonempty
      (λ r, Z.land r bitmask_nsync)
      (λ r, Z.land r bitmask_header =? bit_overflow) buffer Hne)) as [x Hx].
    rewrite (map_map _ (λ h, h =? bit_overflow)). rewrite Hx. simpl.
    rewrite !bool_index_none by done. by exists x.
Qed.

(** C6. The record [0x82000007] has its special bit set, channel field 1
    and low-order field 7: the single-record readers classify it as a
    marker on channel 1.  Decoding the buffer that holds it with kind
    ['marker'] and channel 1 selects nothing, in T2 and in T3 mode: the
    selecting header is computed as [(0x80000000 + channel) << 25]. *)
Theorem C6_marker_records_not_selected :
  read_T2_record 0x82000007 = Ok ("marker", 1, 7)
  ∧ read_T2_buffer [0x82000007] 1 "marker" = Ok ([], [], 0)
  ∧ read_T3_record 0x82000007 = Ok ("marker", 1, 0, 7)
  ∧ read_T3_buffer [0x82000007] 1 "marker" = Ok ([], [], [], 0).
Proof. repeat split; reflexivity. Qed.

(** C2. The record [0xA8000001] has its special bit set and channel field
    20, inside the reserved gap.  The single-record readers raise on it;
    the buffer decoders return normally on a buffer that holds it and leave
    the record out, in T2 and in T3 mode. *)
Theorem C2_reserved_channel_silently_dropped :
  read_T2_record 0xA8000001 = Raise (RuntimeError "Invalid record.")
  ∧ read_T2_buffer [0x00000005; 0xA8000001] 1 "photon" = Ok ([0], [5], 0)
  ∧ read_T3_record 0xA8000001 = Raise (RuntimeError "Can't read record.")
  ∧ read_T3_buffer [0x00000005; 0xA8000001] 1 "photon" = Ok ([0], [0], [5], 0).
Proof. repeat split; reflexivity. Qed.

(** ** The overflow accumulator of the channel results *)

(** [T2Result]: the accumulator starts at 0. *)
Lemma T2Result_init_accumulator (channel : Z) (bin_factor : option Z)
    (only_bin : bool) :
  T2Result._n_overflows (T2Result.__init__ channel bin_factor only_bin) = Some 0.
Proof. reflexivity. Qed.

Lemma cumsum_from_nonneg (acc : Z) (a : list Z) :
  Forall (λ x, 0 ≤ x) (np.cumsum_from acc a).
Proof.
  revert acc; induction a as [|x a IH]; intros acc; simpl; constructor.
  - apply Z.mod_pos_bound. by vm_compute.
  - apply IH.
Qed.

Lemma last_item_Forall {A : Type} (P : A → Prop) (a : list A) (x : A) :
  Forall P a → np.last_item a = Ok x → P x.
Proof.
  unfold np.last_item. intros Ha Hl.
  destruct (last a) as [y|] eqn:Hy; [|done].
  injection Hl as ->. rewrite Forall_forall in Ha. apply Ha.
  rewrite last_lookup in Hy. by eapply list_elem_of_lookup_2.
Qed.

(** [T2Result.add_buffer]: a call that returns has added the total overflow
    delta of its buffer, which is not negative, to the accumulator. *)
Lemma T2Result_add_buffer_accumulator (np_empty : nat → Z)
    (r r' : T2Result.t) (buffer : list Z) (acc : Z) :
  T2Result._n_overflows r = Some acc →
  T2Result.add_buffer np_empty r buffer = Ok r' →
  ∃ n_overflows timetag total,
    read_T2_buffer buffer (T2Result._channel r) "photon"
      = Ok (n_overflows, timetag, total)
    ∧ 0 ≤ total
    ∧ T2Result._n_overflows r' = Some (acc + total).
Proof.
  intros Hacc Hadd. unfold T2Result.add_buffer in Hadd.
  destruct (read_T2_buffer buffer (T2Result._channel r) "photon")
    as [[[n_overflows timetag] total]|e] eqn:Hread; simpl in Hadd; [|done].
  rewrite Hacc in Hadd. simpl in Hadd.
  destruct_bind; [|done]. injection Hadd as <-.
  exists n_overflows, timetag, total. split; [done|]. split; [|done].
  unfold read_T2_buffer in Hread. simpl in Hread.
  destruct_bind; [|done]. injection Hread as _ _ <-.
  eapply last_item_Forall; [|done]. apply cumsum_from_nonneg.
Qed.

(** C4. A [T3Result] comes out of its constructor without the overflow
    accumulator (the constructor fails outright when no bin time is
    given), and [add_buffer] on it raises for every buffer: [IndexError]
    from the decoder on an empty buffer, [AttributeError] on reading the
    accumulator otherwise. *)
Theorem C4_T3Result_accumulator_never_initialized (np_empty : nat → Z)
    (channel bin_factor : Z) (only_bin : bool) (buffer : list Z) :
  T3Result.__init__ channel None only_bin = Raise TypeError
  ∧ ∃ r,
      T3Result.__init__ channel (Some bin_factor) only_bin = Ok r
      ∧ T3Result._n_overflows r = None
      ∧ T3Result.add_buffer np_empty r buffer
        = Raise (match buffer with [] => IndexError | _ => AttributeError end).
Proof.
  split; [reflexivity|]. eexists. split; [reflexivity|]. split; [reflexivity|].
  destruct buffer as [|x buffer]; [reflexivity|].
  unfold T3Result.add_buffer. simpl T3Result._channel.
  pose proof (read_T3_buffer_photon_total (x :: buffer) channel) as Hok.
  destruct (read_T3_buffer (x :: buffer) channel "photon")
    as [[[[n dt] ns] total]|e]; [reflexivity|].
  by discriminate Hok.
Qed.

(** ** TagCodec and PTUWriter *)

Section tag_codec.

Variable tag_types : gmap string string.
Variable type_code : gmap string Z.
Variable struct_pack_d : pyvalue → result (list byte).

Local Abbreviation write_tag := (ptu_format.write_tag tag_types type_code struct_pack_d).
Local Abbreviation write_tags := (ptu_format.write_tags tag_types type_code struct_pack_d).
Local Abbreviation ptu_header := (ptu_format.ptu_header tag_types type_code struct_pack_d).
Local Abbreviation write_ptu := (ptu_format.write_ptu tag_types type_code struct_pack_d).

(** A tag without a recognized type makes [write_tag] raise. *)
Lemma write_tag_unrecognized_raises (key : tagkey) (value : pyvalue) :
  spec.unrecognized_type tag_types type_code key = true →
  is_ok (write_tag key value) = false.
Proof.
  unfold spec.unrecognized_type, ptu_format.write_tag, dict_get.
  intros Hu.
  assert (Hid : (let '(tag_id, _) :=
                   match key with
                   | KeyTuple tag_id tag_idx => (tag_id, tag_idx)
                   | KeyStr tag_id => (tag_id, PyNone)
                   end in tag_id) = spec.key_tag_id key) by (by destruct key).
  destruct key as [tag_id|tag_id tag_idx]; simpl in Hu |- *;
    (destruct (tag_types !! tag_id) as [dtype|]; simpl; [|done]);
    (destruct_bind; [|done]);
    (destruct_bind; [|done]);
    (destruct (type_code !! dtype) as [code|] eqn:Hcode; simpl; [|done]);
    (destruct_bind; [|done]);
    (rewrite bool_decide_eq_false_2 in Hu by done);
    rewrite orb_false_r in Hu; apply negb_true_iff in Hu;
    unfold ptu_format.string_in, spec.handled_dtypes in Hu; simpl in Hu;
    repeat (apply orb_false_elim in Hu; destruct Hu as [? Hu]);
    unfold ptu_format.string_in; simpl;
    repeat match goal with H : String.eqb _ _ = false |- _ => rewrite H; clear H end;
    reflexivity.
Qed.

(** [write_tags] stops at the first tag that [write_tag] refuses. *)
Lemma write_tags_raises (tags : list (tagkey * pyvalue)) (key : tagkey)
    (value : pyvalue) (header : list byte) :
  In (key, value) tags →
  is_ok (write_tag key value) = false →
  is_ok (write_tags tags header) = false.
Proof.
  revert header. induction tags as [|[k v] tags IH]; intros header Hin Hraise.
  - destruct Hin.
  - simpl. destruct Hin as [Heq|Hin].
    + injection Heq as -> ->.
      destruct (write_tag key value); [done|reflexivity].
    + destruct (write_tag k v); simpl; [|reflexivity]. by apply IH.
Qed.

(** C8. When a tag handed to [write_ptu] has no type that the codec
    recognizes, the call raises and the file system is what it was before
    the call: the output file is neither created nor written, so it holds
    no part of any tag record. *)
Theorem C8_unrecognized_tag_type_commits_nothing (fs : filesystem)
    (outputfilename : string) (data : list byte)
    (tags : list (tagkey * pyvalue)) (key : tagkey) (value : pyvalue) :
  In (key, value) tags →
  spec.unrecognized_type tag_types type_code key = true →
  ∃ e, write_ptu fs outputfilename data tags = (fs, Raise e).
Proof.
  intros Hin Hu.
  pose proof (write_tag_unrecognized_raises key value Hu) as Hraise.
  unfold ptu_format.write_ptu.
  assert (Hh : is_ok (ptu_header tags) = false).
  { unfold ptu_format.ptu_header. simpl.
    match goal with
    | |- context [ptu_format.write_tags _ _ _ tags ?h] =>
        pose proof (write_tags_raises tags key value h Hin Hraise) as Hw;
        destruct (write_tags tags h)
    end; [done|reflexivity]. }
  destruct (ptu_header tags) as [h|e]; [done|]. by exists e.
Qed.

End tag_codec.

Lemma C8_unrecognized_tag_type_witness :
  let tag_types := <["Custom_Tag" := "Complex16"]> thdef.tag_types in
  let tags := [(KeyStr "Measurement_Mode", PyInt 2);
               (KeyStr "Custom_Tag", PyInt 1)] in
  ∃ e, ptu_format.write_ptu tag_types thdef.type_code (λ _, Raise TypeError)
         ∅ "out.ptu" [] tags = (∅, Raise e).
Proof.
  intros tag_types tags.
  apply (C8_unrecognized_tag_type_commits_nothing tag_types thdef.type_code
           (λ _, Raise TypeError) ∅ "out.ptu" [] tags
           (KeyStr "Custom_Tag") (PyInt 1)).
  - simpl. right. left. reflexivity.
  - vm_compute. reflexivity.
Defined.

Lemma type_code_Int8 : thdef.type_code !! "Int8" = Some 0x10000008.
Proof. vm_compute. reflexivity. Qed.

(** The id ["Int8Tag"] of the scenario is not a key of [tag_types], and
    [write_tag] raises [KeyError] on it before it produces any byte. *)
Lemma C9_Int8Tag_is_not_a_known_tag :
  thdef.tag_types !! "Int8Tag" = None
  ∧ ¬ ∃ struct_pack_d b,
        ptu_format.write_tag thdef.tag_types thdef.type_code struct_pack_d
          (KeyStr "Int8Tag") (PyInt 42) = Ok b.
Proof.
  assert (Hnone : thdef.tag_types !! "Int8Tag" = None)
    by (vm_compute; reflexivity).
  split; [done|]. intros (struct_pack_d & b & Hw).
  unfold ptu_format.write_tag, dict_get in Hw. rewrite Hnone in Hw.
  discriminate Hw.
Qed.

(** C9 (as amended). For every tag id that [tag_types] gives the type
    [Int8] and that fits the 32 bytes of the id field, writing the tag with
    value 42 and no index produces the id padded with zero bytes to 32
    bytes, the index field [ff ff ff ff], the type code [0x10000008] in
    little-endian order and the value 42 as eight little-endian bytes. *)
Theorem C9_Int8_tag_bytes (tag_types : gmap string string)
    (struct_pack_d : pyvalue → result (list byte)) (tag_id : string) :
  tag_types !! tag_id = Some "Int8" →
  (length (bytes.encode tag_id) ≤ 32)%nat →
  ptu_format.write_tag tag_types thdef.type_code struct_pack_d
    (KeyStr tag_id) (PyInt 42)
  = Ok (spec.zero_padded tag_id ++ spec.int8_42_fields).
Proof.
  intros Hty Hlen.
  unfold ptu_format.write_tag, dict_get. rewrite Hty. simpl rbind.
  unfold ptu_format.tab_string, bytes.zeros, thdef.BITSLEN_TAG_ID.
  destruct (32 - Z.of_nat (length (bytes.encode tag_id)) <? 0) eqn:Hneg;
    [apply Z.ltb_lt in Hneg; lia|].
  simpl rbind. rewrite type_code_Int8. simpl rbind.
  unfold spec.zero_padded, spec.int8_42_fields.
  replace (Z.to_nat (32 - Z.of_nat (length (bytes.encode tag_id))))
    with (32 - length (bytes.encode tag_id))%nat by lia.
  vm_compute ptu_format.string_in. simpl String.eqb.
  vm_compute bytes.to_bytes. simpl.
  by rewrite <- !app_assoc.
Qed.

Lemma C9_Int8_tag_bytes_witness :
  ptu_format.write_tag thdef.tag_types thdef.type_code (λ _, Raise TypeError)
    (KeyStr "Measurement_Mode") (PyInt 42)
  = Ok (spec.zero_padded "Measurement_Mode" ++ spec.int8_42_fields).
Proof.
  apply (C9_Int8_tag_bytes thdef.tag_types (λ _, Raise TypeError)
           "Measurement_Mode").
  - vm_compute. reflexivity.
  - vm_compute. lia.
Defined.

(** Once ["Int8Tag"] is registered with the type [Int8], the scenario of
    the specification comes out byte for byte. *)
Example Int8Tag_registered_bytes :
  ptu_format.write_tag (<["Int8Tag" := "Int8"]> thdef.tag_types)
    thdef.type_code (λ _, Raise TypeError) (KeyStr "Int8Tag") (PyInt 42)
  = Ok (bytes.encode "Int8Tag" ++ replicate 25 x00
        ++ [xff; xff; xff; xff] ++ [x08; x00; x00; x10]
        ++ [x2a; x00; x00; x00; x00; x00; x00; x00]).
Proof. vm_compute. reflexivity. Qed.

(** ** RecordDecoder: overflow counts are prefix sums in [uint32] *)

Section prefix_sums.

(** [w] is the contribution of a record to the running sum and [sel]
    the selection of the records that are returned. *)
Variables (w : Z → Z) (sel : Z → bool).

Local Abbreviation wsum := (spec.weighted_sum w).

Lemma positions_cons (r : Z) (rest : list Z) :
  spec.positions sel (r :: rest)
  = (if sel r then [0%nat] else []) ++ map S (spec.positions sel rest).
Proof.
  unfold spec.positions. simpl length. simpl seq. cbn [List.filter].
  change (nth 0 (r :: rest) 0) with r.
  rewrite <- seq_shift.
  assert (Hshift : ∀ l : list nat,
    List.filter (λ p, sel (nth p (r :: rest) 0)) (map S l)
    = map S (List.filter (λ p, sel (nth p rest 0)) l)).
  { induction l as [|p l IH]; [done|].
    cbn [map List.filter]. rewrite IH.
    change (nth (S p) (r :: rest) 0) with (nth p rest 0).
    by destruct (sel (nth p rest 0)). }
  rewrite Hshift. by destruct (sel r).
Qed.

Lemma selected_counts (buffer : list Z) (acc : Z) :
  np.bool_index (np.cumsum_from acc (map w buffer)) (map sel buffer)
  = map (λ p, (acc + wsum (take (S p) buffer)) `mod` 2 ^ 32)
      (spec.positions sel buffer).
Proof.
  revert acc. induction buffer as [|r rest IH]; intros acc; [done|].
  rewrite positions_cons. simpl np.bool_index. rewrite IH.
  rewrite map_app, map_map.
  assert (Hrest :
    map (λ p, ((acc + w r) `mod` np.uint32_modulus
               + wsum (take (S p) rest)) `mod` 2 ^ 32)
      (spec.positions sel rest)
    = map (λ p, (acc + wsum (take (S (S p)) (r :: rest))) `mod` 2 ^ 32)
        (spec.positions sel rest)).
  { apply map_ext. intros p. unfold np.uint32_modulus. simpl.
    rewrite Zplus_mod_idemp_l. f_equal. lia. }
  rewrite Hrest. destruct (sel r); simpl; [|done].
  f_equal. unfold np.uint32_modulus. f_equal. lia.
Qed.

Lemma selected_fields (f : Z → Z) (buffer : list Z) :
  np.bool_index (map f buffer) (map sel buffer)
  = map (λ p, f (nth p buffer 0)) (spec.positions sel buffer).
Proof.
  induction buffer as [|r rest IH]; [done|].
  rewrite positions_cons. simpl np.bool_index. rewrite IH.
  rewrite map_app, map_map. by destruct (sel r).
Qed.

Lemma total_count (buffer : list Z) (acc : Z) :
  buffer ≠ [] →
  np.last_item (np.cumsum_from acc (map w buffer))
  = Ok ((acc + wsum buffer) `mod` 2 ^ 32).
Proof.
  revert acc. induction buffer as [|r rest IH]; intros acc Hne; [done|].
  destruct rest as [|r' rest].
  - simpl. unfold np.uint32_modulus, np.last_item. simpl.
    by rewrite Z.add_0_r.
  - specialize (IH ((acc + w r) `mod` np.uint32_modulus)).
    unfold np.last_item in IH |- *.
    change (np.cumsum_from acc (map w (r :: r' :: rest)))
      with ((acc + w r) `mod` np.uint32_modulus
            :: np.cumsum_from ((acc + w r) `mod` np.uint32_modulus)
                 (map w (r' :: rest))).
    rewrite last_cons.
    destruct (last (np.cumsum_from ((acc + w r) `mod` np.uint32_modulus)
                      (map w (r' :: rest)))) as [x|] eqn:Hl.
    + specialize (IH ltac:(done)). injection IH as ->.
      unfold np.uint32_modulus. rewrite Zplus_mod_idemp_l.
      do 2 f_equal. simpl. lia.
    + by specialize (IH ltac:(done)).
Qed.

Hypothesis w_nonneg : ∀ r, 0 ≤ w r.

Lemma wsum_nonneg (records : list Z) : 0 ≤ wsum records.
Proof.
  induction records as [|r rest IH]; simpl; [done|].
  pose proof (w_nonneg r). lia.
Qed.

Lemma wsum_take_le (records : list Z) (n : nat) :
  wsum (take n records) ≤ wsum records.
Proof.
  revert n. induction records as [|r rest IH]; intros [|n]; simpl; try done.
  - pose proof (wsum_nonneg rest). pose proof (w_nonneg r). simpl in *. lia.
  - specialize (IH n). simpl in *. lia.
Qed.

End prefix_sums.

Lemma mul_mask_overflow_payload (field : Z → Z) (buffer : list Z) :
  np.mul_mask (map field buffer)
    (map (λ r, Z.land r bitmask_header =? bit_overflow) buffer)
  = map (spec.overflow_payload field) buffer.
Proof.
  induction buffer as [|r rest IH]; simpl; [done|]. rewrite IH. f_equal.
  unfold spec.overflow_payload, spec.is_overflow.
  destruct (Z.land r bitmask_header =? bit_overflow); lia.
Qed.

Lemma T2_field_nonneg (r : Z) : 0 ≤ spec.T2_field r.
Proof. apply Z.land_nonneg. right. by vm_compute. Qed.

Lemma T3_field_nonneg (r : Z) : 0 ≤ spec.T3_field r.
Proof. apply Z.land_nonneg. right. by vm_compute. Qed.

Lemma overflow_payload_nonneg (field : Z → Z) :
  (∀ r, 0 ≤ field r) → ∀ r, 0 ≤ spec.overflow_payload field r.
Proof.
  intros Hf r. unfold spec.overflow_payload.
  destruct (spec.is_overflow r); [apply Hf | done].
Qed.

(** When the payloads of a buffer sum to less than [2^32], no prefix sum
    is changed by the reduction. *)
Lemma overflow_sum_upto_no_wrap (field : Z → Z) (buffer : list Z) (p : nat) :
  (∀ r, 0 ≤ field r) →
  spec.overflow_sum field buffer < 2 ^ 32 →
  spec.overflow_sum_upto field buffer p `mod` 2 ^ 32
  = spec.overflow_sum_upto field buffer p.
Proof.
  intros Hf Hlt. apply Z.mod_small. unfold spec.overflow_sum_upto.
  pose proof (wsum_nonneg _ (overflow_payload_nonneg field Hf)
                (take (S p) buffer)).
  pose proof (wsum_take_le _ (overflow_payload_nonneg field Hf) buffer (S p)).
  unfold spec.overflow_sum in *. lia.
Qed.

(** The T2 decoder on a non-empty buffer, for the photons of a channel. *)
Lemma read_T2_buffer_photon (buffer : list Z) (channel : Z) :
  buffer ≠ [] →
  let ps := spec.positions (spec.is_photon_on channel) buffer in
  read_T2_buffer buffer channel "photon"
  = Ok (map (λ p, spec.overflow_sum_upto spec.T2_field buffer p `mod` 2 ^ 32) ps,
        map (λ p, spec.T2_field (nth p buffer 0)) ps,
        spec.overflow_sum spec.T2_field buffer `mod` 2 ^ 32).
Proof.
  intros Hne ps. unfold read_T2_buffer. simpl rbind.
  rewrite !map_map.
  change (map (λ x, Z.land x bitmask_header =? Z.shiftl (channel - 1) 25) buffer)
    with (map (spec.is_photon_on channel) buffer).
  rewrite (mul_mask_overflow_payload (λ r, Z.land r bitmask_timetag)).
  unfold np.cumsum_uint32.
  rewrite (total_count _ buffer 0 Hne). simpl rbind.
  rewrite (selected_counts _ (spec.is_photon_on channel) buffer 0).
  rewrite (selected_fields (spec.is_photon_on channel)
             (λ r, Z.land r bitmask_timetag) buffer).
  reflexivity.
Qed.

Lemma read_T3_buffer_photon (buffer : list Z) (channel : Z) :
  buffer ≠ [] →
  let ps := spec.positions (spec.is_photon_on channel) buffer in
  read_T3_buffer buffer channel "photon"
  = Ok (map (λ p, spec.overflow_sum_upto spec.T3_field buffer p `mod` 2 ^ 32) ps,
        map (λ p, spec.T3_dtime (nth p buffer 0)) ps,
        map (λ p, spec.T3_field (nth p buffer 0)) ps,
        spec.overflow_sum spec.T3_field buffer `mod` 2 ^ 32).
Proof.
  intros Hne ps. unfold read_T3_buffer. simpl rbind.
  rewrite !map_map.
  change (map (λ x, Z.land x bitmask_header =? Z.shiftl (channel - 1) 25) buffer)
    with (map (spec.is_photon_on channel) buffer).
  rewrite (mul_mask_overflow_payload (λ r, Z.land r bitmask_nsync)).
  unfold np.cumsum_uint32.
  rewrite (total_count _ buffer 0 Hne). simpl rbind.
  rewrite (selected_counts _ (spec.is_photon_on channel) buffer 0).
  rewrite (selected_fields (spec.is_photon_on channel)
             (λ r, Z.land r bitmask_nsync) buffer).
  rewrite (selected_fields (spec.is_photon_on channel)
             (λ r, Z.shiftr (Z.land r bitmask_dtime) 10) buffer).
  reflexivity.
Qed.

(** The claim with exact sums fails on the empty buffer, where both
    decoders raise, and on a buffer whose payloads sum to [2^32] or more:
    129 overflow records of payload [0x1ffffff] followed by a photon, which
    is returned with the count 33554303 while the payloads before it sum to
    4328521599. *)
Lemma C3_exact_prefix_sums_fail :
  ¬ spec.T2_exact_prefix_sums [] 1
  ∧ ¬ spec.T3_exact_prefix_sums [] 1
  ∧ read_T2_buffer (replicate 129 0xFFFFFFFF ++ [0x00000005]) 1 "photon"
    = Ok ([33554303], [5], 33554303)
  ∧ spec.overflow_sum spec.T2_field (replicate 129 0xFFFFFFFF ++ [0x00000005])
    = 4328521599
  ∧ ¬ spec.T2_exact_prefix_sums (replicate 129 0xFFFFFFFF ++ [0x00000005]) 1.
Proof.
  split; [intros H; vm_compute in H; discriminate H|].
  split; [intros H; vm_compute in H; discriminate H|].
  split; [vm_compute; reflexivity|].
  split; [vm_compute; reflexivity|].
  intros H; vm_compute in H; discriminate H.
Qed.

(** C3 (as amended). On every non-empty buffer, in T2 and in T3 mode, the
    overflow count returned with the matching photon record at position
    [p] is the sum of the payloads of the overflow records at positions at
    or before [p], reduced modulo [2^32], and the returned total is the sum
    of all the payloads reduced modulo [2^32]; when the payloads of the
    buffer sum to less than [2^32] the counts and the total are the exact
    sums. *)
Theorem C3_overflow_counts_are_prefix_sums (buffer : list Z) (channel : Z) :
  buffer ≠ [] →
  let ps := spec.positions (spec.is_photon_on channel) buffer in
  (read_T2_buffer buffer channel "photon"
   = Ok (map (λ p, spec.overflow_sum_upto spec.T2_field buffer p `mod` 2 ^ 32) ps,
         map (λ p, spec.T2_field (nth p buffer 0)) ps,
         spec.overflow_sum spec.T2_field buffer `mod` 2 ^ 32)
   ∧ (spec.overflow_sum spec.T2_field buffer < 2 ^ 32 →
      spec.T2_exact_prefix_sums buffer channel))
  ∧ (read_T3_buffer buffer channel "photon"
     = Ok (map (λ p, spec.overflow_sum_upto spec.T3_field buffer p `mod` 2 ^ 32) ps,
           map (λ p, spec.T3_dtime (nth p buffer 0)) ps,
           map (λ p, spec.T3_field (nth p buffer 0)) ps,
           spec.overflow_sum spec.T3_field buffer `mod` 2 ^ 32)
     ∧ (spec.overflow_sum spec.T3_field buffer < 2 ^ 32 →
        spec.T3_exact_prefix_sums buffer channel)).
Proof.
  intros Hne ps. split; split.
  - by apply read_T2_buffer_photon.
  - intros Hlt. unfold spec.T2_exact_prefix_sums.
    rewrite (read_T2_buffer_photon buffer channel Hne). cbv zeta.
    rewrite Z.mod_small.
    2:{ split; [|done].
        apply (wsum_nonneg _ (overflow_payload_nonneg _ T2_field_nonneg)). }
    do 2 f_equal. f_equal. apply map_ext. intros p.
    by apply overflow_sum_upto_no_wrap; [apply T2_field_nonneg|].
  - by apply read_T3_buffer_photon.
  - intros Hlt. unfold spec.T3_exact_prefix_sums.
    rewrite (read_T3_buffer_photon buffer channel Hne). cbv zeta.
    rewrite Z.mod_small.
    2:{ split; [|done].
        apply (wsum_nonneg _ (overflow_payload_nonneg _ T3_field_nonneg)). }
    do 2 f_equal. do 2 f_equal. apply map_ext. intros p.
    by apply overflow_sum_upto_no_wrap; [apply T3_field_nonneg|].
Qed.

Lemma C3_overflow_counts_witness :
  spec.T2_exact_prefix_sums [0x00000005; 0xFE000003; 0x00000010] 1
  ∧ spec.T3_exact_prefix_sums [0x00000005; 0xFE000003; 0x00000010] 1.
Proof.
  destruct (C3_overflow_counts_are_prefix_sums
              [0x00000005; 0xFE000003; 0x00000010] 1 ltac:(discriminate))
    as [[_ H2] [_ H3]].
  split; [apply H2 | apply H3]; vm_compute; reflexivity.
Defined.

(** ** Slices within bounds *)

Lemma clip_index_in_range (i len : Z) :
  0 ≤ i ≤ len → py.clip_index i len = i.
Proof.
  intros Hi. unfold py.clip_index.
  destruct (i <? 0) eqn:Hneg; [apply Z.ltb_lt in Hneg; lia | lia].
Qed.

Lemma get_slice_prefix {A : Type} (a : list A) (hi : Z) :
  0 ≤ hi ≤ Z.of_nat (length a) →
  py.get_slice a None (Some hi) = take (Z.to_nat hi) a.
Proof.
  intros Hhi. unfold py.get_slice, py.slice_indices. simpl.
  rewrite clip_index_in_range by done.
  rewrite Z.sub_0_r. by rewrite drop_0.
Qed.

Lemma get_slice_range {A : Type} (a : list A) (lo hi : Z) :
  0 ≤ lo ≤ hi → hi ≤ Z.of_nat (length a) →
  py.get_slice a (Some lo) (Some hi)
  = take (Z.to_nat (hi - lo)) (drop (Z.to_nat lo) a).
Proof.
  intros Hlo Hhi. unfold py.get_slice, py.slice_indices. simpl.
  by rewrite !clip_index_in_range by lia.
Qed.

Lemma set_slice_range {A : Type} (a v : list A) (lo hi : Z) :
  0 ≤ lo ≤ hi → hi ≤ Z.of_nat (length a) →
  Z.of_nat (length v) = hi - lo →
  py.set_slice a (Some lo) (Some hi) v
  = Ok (take (Z.to_nat lo) a ++ v ++ drop (Z.to_nat hi) a).
Proof.
  intros Hlo Hhi Hv. unfold py.set_slice, py.slice_indices. simpl.
  rewrite !clip_index_in_range by lia.
  destruct (decide (length v = Z.to_nat (hi - lo))) as [_|Hne]; [|lia].
  by replace (Z.to_nat lo + Z.to_nat (hi - lo))%nat with (Z.to_nat hi) by lia.
Qed.

Lemma set_slice_prefix {A : Type} (a v : list A) (hi : Z) :
  0 ≤ hi ≤ Z.of_nat (length a) →
  Z.of_nat (length v) = hi →
  py.set_slice a None (Some hi) v = Ok (v ++ drop (Z.to_nat hi) a).
Proof.
  intros Hhi Hv. unfold py.set_slice, py.slice_indices. simpl.
  rewrite !clip_index_in_range by lia. rewrite Z.sub_0_r.
  destruct (decide (length v = Z.to_nat hi)) as [_|Hne]; [|lia].
  done.
Qed.

(** ** ExtendableTable *)



Lemma power_of_two_pos (c : Z) : spec.is_power_of_two c → 0 < c.
Proof. intros (k & Hk & ->). by apply Z.pow_pos_nonneg. Qed.

Section extendable_table.

Variable np_empty : nat → Z.

Lemma data_well_formed (t : ExtendableTable.t) :
  spec.well_formed t →
  ExtendableTable.data t
  = take (Z.to_nat (ExtendableTable._size t)) (ExtendableTable.__data t).
Proof.
  intros (_ & Hs). unfold ExtendableTable.data.
  by apply get_slice_prefix.
Qed.


Lemma init_well_formed : spec.well_formed ExtendableTable.__init__.
Proof.
  split; [exists 8; by vm_compute|]. by vm_compute.
Qed.

Lemma inner_resize_spec (t : ExtendableTable.t) (new_size : Z) :
  spec.well_formed t →
  ExtendableTable._size t ≤ new_size →
  ∃ t1, ExtendableTable._inner_resize np_empty t new_size = Ok t1
    ∧ ExtendableTable._size t1 = ExtendableTable._size t
    ∧ spec.is_power_of_two (ExtendableTable.capacity t1)
    ∧ new_size ≤ ExtendableTable.capacity t1
    ∧ take (Z.to_nat (ExtendableTable._size t)) (ExtendableTable.__data t1)
      = take (Z.to_nat (ExtendableTable._size t)) (ExtendableTable.__data t).
Proof.
  intros (Hp & Hs) Hnew. unfold ExtendableTable.capacity in *.
  unfold ExtendableTable._inner_resize.
  destruct (Z.of_nat (length (ExtendableTable.__data t)) <=? new_size) eqn:Hcap.
  - apply Z.leb_le in Hcap. pose proof (power_of_two_pos _ Hp) as Hpos.
    unfold ExtendableTable.next_capacity.
    destruct (new_size =? 0) eqn:H0; [apply Z.eqb_eq in H0; lia|].
    destruct (new_size <? 0) eqn:Hneg; [apply Z.ltb_lt in Hneg; lia|].
    simpl rbind.
    pose proof (Z.log2_up_nonneg new_size) as Hk.
    assert (Hge : new_size ≤ 2 ^ Z.log2_up new_size)
      by (apply Z.log2_log2_up_spec; lia).
    assert (Hlen : Z.of_nat (length (map np_empty
              (seq 0 (Z.to_nat (2 ^ Z.log2_up new_size)))))
            = 2 ^ Z.log2_up new_size)
      by (rewrite length_map, length_seq; lia).
    rewrite get_slice_prefix by lia.
    rewrite set_slice_prefix; [|lia|rewrite length_take; lia].
    simpl rbind. eexists. split; [reflexivity|]. simpl.
    split; [done|]. split; [|split].
    + exists (Z.log2_up new_size). split; [done|].
      rewrite length_app, length_take, length_drop. lia.
    + rewrite length_app, length_take, length_drop. lia.
    + rewrite take_app_length'; [done|]. rewrite length_take. lia.
  - apply Z.leb_gt in Hcap. exists t. repeat split; try done. lia.
Qed.

(** [add] on a well-formed table returns, keeps it well formed and
    appends the new elements to the logical contents. *)
Lemma add_spec (t : ExtendableTable.t) (d : list Z) :
  spec.well_formed t →
  ∃ t', ExtendableTable.add np_empty t d = Ok t'
    ∧ spec.well_formed t'
    ∧ ExtendableTable._size t' = ExtendableTable._size t + Z.of_nat (length d)
    ∧ ExtendableTable.data t' = ExtendableTable.data t ++ d.
Proof.
  intros Hwf. pose proof Hwf as (Hp & Hs).
  destruct (inner_resize_spec t
              (ExtendableTable._size t + Z.of_nat (length d)) Hwf ltac:(lia))
    as (t1 & Hr & Hsize & Hp1 & Hcap1 & Htake).
  unfold ExtendableTable.add. rewrite Hr. simpl rbind. rewrite Hsize.
  unfold ExtendableTable.capacity in *.
  rewrite set_slice_range by lia. simpl rbind.
  eexists. split; [reflexivity|].
  assert (Hlen : length (take (Z.to_nat (ExtendableTable._size t))
                           (ExtendableTable.__data t1) ++ d
                         ++ drop (Z.to_nat (ExtendableTable._size t
                                            + Z.of_nat (length d)))
                              (ExtendableTable.__data t1))
                 = length (ExtendableTable.__data t1)).
  { rewrite !length_app, length_take, length_drop. lia. }
  split; [|split; [done|]].
  - split; simpl; unfold ExtendableTable.capacity; simpl.
    + by rewrite Hlen.
    + rewrite Hlen. lia.
  - rewrite (data_well_formed t Hwf). unfold ExtendableTable.data. simpl.
    rewrite get_slice_prefix by (rewrite Hlen; lia).
    rewrite app_assoc. rewrite take_app_length'.
    + by rewrite Htake.
    + rewrite length_app, length_take. lia.
Qed.

(** [remove] of a number of elements that the table holds returns, keeps
    the table well formed and drops these elements from the front of the
    logical contents. *)
Lemma remove_spec (t : ExtendableTable.t) (n : Z) :
  spec.well_formed t →
  0 ≤ n ≤ ExtendableTable._size t →
  ∃ t', ExtendableTable.remove t n = Ok t'
    ∧ spec.well_formed t'
    ∧ ExtendableTable._size t' = ExtendableTable._size t - n
    ∧ ExtendableTable.data t' = drop (Z.to_nat n) (ExtendableTable.data t).
Proof.
  intros Hwf Hn. pose proof Hwf as (Hp & Hs).
  unfold ExtendableTable.capacity in *.
  unfold ExtendableTable.remove.
  rewrite get_slice_range by lia.
  rewrite set_slice_prefix; [|lia|rewrite length_take, length_drop; lia].
  simpl rbind. eexists. split; [reflexivity|].
  set (v := take (Z.to_nat (ExtendableTable._size t - n))
              (drop (Z.to_nat n) (ExtendableTable.__data t))).
  assert (Hv : length v = Z.to_nat (ExtendableTable._size t - n)).
  { unfold v. rewrite length_take, length_drop. lia. }
  assert (Hlen : length (v ++ drop (Z.to_nat (ExtendableTable._size t - n))
                                (ExtendableTable.__data t))
                 = length (ExtendableTable.__data t)).
  { rewrite length_app, length_drop, Hv. lia. }
  split; [|split; [done|]].
  - split; simpl; unfold ExtendableTable.capacity; simpl.
    + by rewrite Hlen.
    + rewrite Hlen. lia.
  - rewrite (data_well_formed t Hwf). unfold ExtendableTable.data. simpl.
    rewrite get_slice_prefix by (rewrite Hlen; lia).
    rewrite take_app_length' by done. unfold v.
    rewrite take_drop_commute. do 2 f_equal. lia.
Qed.


End extendable_table.




(** ** binnableTable: incremental binning *)

(** C1. With bin factor 1, [add([5])], [bin_count()], [add([0])],
    [bin_count()] raises [ValueError] in the second [bin_count]: the new
    tally has one slot, the retained counts have six, and six counts
    cannot be added in place onto a view of one slot.  [add([5, 0])]
    followed by one [bin_count()] returns [[1, 0, 0, 0, 0, 1]].  The same
    happens in discard mode. *)
Theorem C1_incremental_bin_count_raises_on_shorter_tally :
  spec.one_shot_counts (λ _, 0) 1 false [5] [0] = Ok [1; 0; 0; 0; 0; 1]
  ∧ spec.incremental_counts (λ _, 0) 1 false [5] [0] = Raise ValueError
  ∧ spec.one_shot_counts (λ _, 0) 1 true [5] [0] = Ok [1; 0; 0; 0; 0; 1]
  ∧ spec.incremental_counts (λ _, 0) 1 true [5] [0] = Raise ValueError.
Proof. repeat split; vm_compute; reflexivity. Qed.

(** When the later timestamps reach at least as far as the earlier ones,
    the two ways agree. *)
Example incremental_counts_agree :
  spec.incremental_counts (λ _, 0) 10 false [5; 12; 31] [7; 33; 58]
  = Ok [2; 1; 0; 2; 0; 1]
  ∧ spec.one_shot_counts (λ _, 0) 10 false [5; 12; 31] [7; 33; 58]
    = Ok [2; 1; 0; 2; 0; 1].
Proof. split; vm_compute; reflexivity. Qed.


(** *** Histograms *)

Lemma bins_nonneg (bin_factor : Z) (xs : list Z) :
  0 < bin_factor → Forall (λ x, 0 ≤ x) xs →
  Forall (λ x, 0 ≤ x) (spec.bins bin_factor xs).
Proof.
  intros Hb Hxs. unfold spec.bins. induction Hxs as [|x xs Hx _ IH]; simpl;
    constructor; [by apply Z.div_pos | done].
Qed.

Lemma bincount_nonneg (x : list Z) :
  Forall (λ v, 0 ≤ v) x → np.bincount x = Ok (spec.histogram x).
Proof.
  intros Hx. unfold np.bincount.
  assert (Hall : forallb (λ v, 0 <=? v) x = true).
  { induction Hx as [|v x Hv _ IH]; simpl; [done|].
    rewrite IH. by apply Z.leb_le in Hv as ->. }
  by rewrite Hall.
Qed.

Lemma bincount_length_nonneg (x : list Z) : 0 ≤ np.bincount_length x.
Proof. induction x as [|v x IH]; simpl; lia. Qed.

Lemma bincount_length_app (x y : list Z) :
  np.bincount_length (x ++ y)
  = Z.max (np.bincount_length x) (np.bincount_length y).
Proof.
  pose proof (bincount_length_nonneg y).
  induction x as [|v x IH]; simpl; [lia|].
  unfold np.bincount_length in IH |- *. simpl. rewrite foldr_app.
  rewrite foldr_app in IH. lia.
Qed.

Lemma bincount_length_pos (x : list Z) :
  x ≠ [] → Forall (λ v, 0 ≤ v) x → 1 ≤ np.bincount_length x.
Proof.
  intros Hne Hx. destruct Hx as [|v x Hv _]; [done|].
  unfold np.bincount_length. simpl. lia.
Qed.

Lemma count_of_app (x y : list Z) (i : Z) :
  np.count_of (x ++ y) i = np.count_of x i + np.count_of y i.
Proof.
  unfold np.count_of. rewrite filter_app, length_app. lia.
Qed.

Lemma count_of_beyond (x : list Z) (i : Z) :
  np.bincount_length x ≤ i → np.count_of x i = 0.
Proof.
  unfold np.count_of. induction x as [|v x IH]; [done|].
  unfold np.bincount_length. simpl. intros Hi.
  rewrite filter_cons. destruct (decide (v = i)) as [->|_]; [lia|].
  apply IH. unfold np.bincount_length. lia.
Qed.

Lemma length_histogram (x : list Z) :
  Z.of_nat (length (spec.histogram x)) = np.bincount_length x.
Proof.
  unfold spec.histogram. rewrite length_map, length_seqZ.
  pose proof (bincount_length_nonneg x). lia.
Qed.

Lemma zip_with_add_map (f g : Z → Z) (l : list Z) :
  zip_with Z.add (map f l) (map g l) = map (λ i, f i + g i) l.
Proof. induction l as [|i l IH]; simpl; [done|]. by rewrite IH. Qed.

(** Adding the histogram of [x] onto the first slots of the histogram of
    [y], when the latter is at least as long, gives the histogram of
    [x ++ y]. *)
Lemma histogram_merge (x y : list Z) :
  np.bincount_length x ≤ np.bincount_length y →
  zip_with Z.add
    (take (Z.to_nat (np.bincount_length x)) (spec.histogram y))
    (spec.histogram x)
  ++ drop (Z.to_nat (np.bincount_length x)) (spec.histogram y)
  = spec.histogram (x ++ y).
Proof.
  intros Hle. pose proof (bincount_length_nonneg x) as Hx.
  unfold spec.histogram. rewrite bincount_length_app.
  rewrite Z.max_r by done.
  replace (np.bincount_length y)
    with (np.bincount_length x + (np.bincount_length y - np.bincount_length x))
    by lia.
  rewrite seqZ_app by lia. rewrite !map_app.
  assert (Hlen : ∀ f : Z → Z,
            length (map f (seqZ 0 (np.bincount_length x)))
            = Z.to_nat (np.bincount_length x))
    by (intros f; by rewrite length_map, length_seqZ).
  rewrite take_app_length' by (symmetry; apply Hlen).
  rewrite drop_app_length' by (symmetry; apply Hlen).
  rewrite zip_with_add_map. f_equal.
  - apply map_ext. intros i. rewrite count_of_app. lia.
  - apply map_ext_in. intros i Hi.
    apply list_elem_of_In, elem_of_seqZ in Hi.
    rewrite count_of_app, (count_of_beyond x) by lia. lia.
Qed.

Lemma iadd_prefix_histograms (x y : list Z) :
  np.bincount_length x ≤ np.bincount_length y →
  np.iadd_prefix (spec.histogram y)
    (Z.of_nat (length (spec.histogram x))) (spec.histogram x)
  = Ok (spec.histogram (x ++ y)).
Proof.
  intros Hle. pose proof (bincount_length_nonneg x) as Hx.
  pose proof (length_histogram x) as Hlx.
  pose proof (length_histogram y) as Hly.
  unfold np.iadd_prefix. rewrite get_slice_prefix by lia.
  unfold np.iadd. rewrite length_take.
  destruct (decide _) as [_|Hne]; [|lia].
  simpl rbind. rewrite set_slice_prefix.
  - rewrite Hlx. by rewrite histogram_merge.
  - lia.
  - rewrite length_zip_with, length_take. lia.
Qed.

(** A retained histogram that is longer than the new one cannot be added
    onto it. *)
Lemma iadd_prefix_shorter (x y : list Z) :
  1 ≤ np.bincount_length y < np.bincount_length x →
  np.iadd_prefix (spec.histogram y)
    (Z.of_nat (length (spec.histogram x))) (spec.histogram x)
  = Raise ValueError.
Proof.
  intros Hlt.
  pose proof (length_histogram x) as Hlx.
  pose proof (length_histogram y) as Hly.
  unfold np.iadd_prefix, py.get_slice, py.slice_indices. simpl.
  unfold py.clip_index.
  destruct (Z.of_nat (length (spec.histogram x)) <? 0) eqn:Hneg;
    [apply Z.ltb_lt in Hneg; lia|].
  rewrite Z.min_r by lia. rewrite Z.sub_0_r, drop_0, Nat2Z.id, firstn_all.
  unfold np.iadd.
  destruct (decide (length (spec.histogram x) = length (spec.histogram y)))
    as [Heq|_]; [lia|].
  destruct (spec.histogram x) as [|a [|b c]]; simpl in Hlx |- *;
    [reflexivity | lia | reflexivity].
Qed.

(** *** The table behind the histogram *)

Lemma data_length (t : ExtendableTable.t) :
  spec.well_formed t →
  Z.of_nat (length (ExtendableTable.data t)) = ExtendableTable._size t.
Proof.
  intros Hwf. rewrite data_well_formed by done. destruct Hwf as (_ & Hs).
  unfold ExtendableTable.capacity in Hs. rewrite length_take. lia.
Qed.

Section binning.

Variable np_empty : nat → Z.

(** [bin_count] with nothing new in the table returns the retained
    counts and changes nothing. *)
Lemma bin_count_idle (t : binnableTable.t) (bin_factor : Z) :
  binnableTable._bin_factor t = Some bin_factor →
  ExtendableTable._size (binnableTable.base t)
  = binnableTable._bin_read_position t →
  binnableTable.bin_count t = Ok (t, binnableTable._bin_counts t).
Proof.
  intros Hbf Hpos. unfold binnableTable.bin_count.
  by rewrite Hbf, Hpos, Z.eqb_refl.
Qed.

(** [bin_count] with the new elements [fresh] behind the consumed ones:
    the histogram of their bins is added onto the retained counts. *)
Lemma bin_count_step (t : binnableTable.t) (bin_factor : Z)
    (consumed fresh : list Z) :
  binnableTable._bin_factor t = Some bin_factor →
  0 < bin_factor →
  spec.well_formed (binnableTable.base t) →
  ExtendableTable.data (binnableTable.base t) = consumed ++ fresh →
  binnableTable._bin_read_position t = Z.of_nat (length consumed) →
  fresh ≠ [] →
  Forall (λ x, 0 ≤ x) fresh →
  binnableTable.bin_count t
  = (let* counts :=
       np.iadd_prefix (spec.histogram (spec.bins bin_factor fresh))
         (Z.of_nat (length (binnableTable._bin_counts t)))
         (binnableTable._bin_counts t) in
     if binnableTable._only_bin t then
       let* b := ExtendableTable.remove (binnableTable.base t)
                   (ExtendableTable._size (binnableTable.base t)) in
       Ok (binnableTable.mk b (Some bin_factor) 0 counts true, counts)
     else
       Ok (binnableTable.mk (binnableTable.base t) (Some bin_factor)
             (ExtendableTable._size (binnableTable.base t)) counts false,
           counts)).
Proof.
  intros Hbf Hpos Hwf Hdata Hrp Hne Hfresh.
  pose proof (data_length _ Hwf) as Hlen.
  rewrite Hdata, length_app in Hlen.
  assert (0 < length fresh)%nat by (destruct fresh; [done|simpl; lia]).
  unfold binnableTable.bin_count. rewrite Hbf, Hrp.
  destruct (ExtendableTable._size (binnableTable.base t)
            =? Z.of_nat (length consumed)) eqn:Heq;
    [apply Z.eqb_eq in Heq; lia|].
  rewrite Hdata. rewrite get_slice_range by (rewrite ?length_app; lia).
  rewrite Nat2Z.id, drop_app_length.
  rewrite take_ge by lia.
  change (map (λ x, x `div` bin_factor) fresh)
    with (spec.bins bin_factor fresh).
  rewrite (bincount_nonneg _ (bins_nonneg _ _ Hpos Hfresh)). simpl rbind.
  destruct (binnableTable._only_bin t); reflexivity.
Qed.

Lemma iadd_prefix_empty (x : list Z) :
  np.iadd_prefix (spec.histogram x) 0 [] = Ok (spec.histogram x).
Proof.
  pose proof (iadd_prefix_histograms [] x (bincount_length_nonneg x)) as H.
  exact H.
Qed.

(** [add(xs)] and [bin_count()] on a new table: the histogram of [xs] is
    returned and retained, and the table holds the elements that are not
    discarded, all of them consumed. *)
Lemma add_bin_count_new (bin_factor : Z) (only_bin : bool) (xs : list Z) :
  0 < bin_factor →
  Forall (λ x, 0 ≤ x) xs →
  ∃ t1 t2,
    binnableTable.add np_empty
      (binnableTable.__init__ (Some bin_factor) only_bin) xs = Ok t1
    ∧ binnableTable.bin_count t1
      = Ok (t2, spec.histogram (spec.bins bin_factor xs))
    ∧ spec.well_formed (binnableTable.base t2)
    ∧ binnableTable._bin_read_position t2
      = ExtendableTable._size (binnableTable.base t2)
    ∧ binnableTable._bin_counts t2 = spec.histogram (spec.bins bin_factor xs)
    ∧ binnableTable._bin_factor t2 = Some bin_factor.
Proof.
  intros Hpos Hxs.
  destruct (add_spec np_empty ExtendableTable.__init__ xs init_well_formed)
    as (b1 & Hadd & Hwf1 & Hsize1 & Hdata1).
  change (ExtendableTable.data ExtendableTable.__init__) with (@nil Z) in Hdata1.
  change (ExtendableTable._size ExtendableTable.__init__) with 0 in Hsize1.
  simpl in Hdata1.
  unfold binnableTable.add, binnableTable.__init__. simpl binnableTable.base.
  rewrite Hadd. simpl rbind.
  exists (binnableTable.mk b1 (Some bin_factor) 0 [] only_bin).
  destruct (decide (xs = [])) as [->|Hne].
  - eexists. split; [reflexivity|].
    rewrite (bin_count_idle _ bin_factor); [|done|simpl in *; lia].
    simpl. repeat split; try done; try apply Hwf1.
  - rewrite (bin_count_step _ bin_factor [] xs); try done.
    cbn [binnableTable._bin_counts binnableTable._only_bin
         binnableTable.base length Z.of_nat].
    rewrite iadd_prefix_empty. simpl rbind.
    destruct only_bin.
    + destruct (remove_spec b1 (ExtendableTable._size b1) Hwf1)
        as (b2 & Hrem & Hwf2 & Hsize2 & Hdata2); [destruct Hwf1; lia|].
      rewrite Hrem. simpl rbind.
      eexists. split; [reflexivity|]. split; [reflexivity|]. simpl.
      repeat split; try done; try apply Hwf2. lia.
    + eexists. split; [reflexivity|]. split; [reflexivity|]. simpl.
      repeat split; try done; apply Hwf1.
Qed.

(** [add(ys)] and [bin_count()] on a table that has consumed its
    elements and retains the histogram of [x]: the histogram of [x] and the
    bins of [ys] together, unless the histogram of the bins of [ys] alone
    is shorter than the retained one. *)
Lemma add_bin_count_again (t : binnableTable.t) (bin_factor : Z)
    (x ys : list Z) :
  0 < bin_factor →
  Forall (λ y, 0 ≤ y) ys →
  spec.well_formed (binnableTable.base t) →
  binnableTable._bin_read_position t
  = ExtendableTable._size (binnableTable.base t) →
  binnableTable._bin_counts t = spec.histogram x →
  binnableTable._bin_factor t = Some bin_factor →
  (let* t' := binnableTable.add np_empty t ys in
   let* (_, counts) := binnableTable.bin_count t' in
   Ok counts)
  = if decide (ys = []
               ∨ np.bincount_length x
                 ≤ np.bincount_length (spec.bins bin_factor ys))
    then Ok (spec.histogram (x ++ spec.bins bin_factor ys))
    else Raise ValueError.
Proof.
  intros Hpos Hys Hwf Hrp Hcounts Hbf.
  destruct (add_spec np_empty (binnableTable.base t) ys Hwf)
    as (b2 & Hadd & Hwf2 & Hsize2 & Hdata2).
  unfold binnableTable.add. rewrite Hadd. simpl rbind.
  destruct (decide (ys = [])) as [->|Hne].
  - rewrite (bin_count_idle _ bin_factor); [|done|simpl in *; lia].
    rewrite decide_True by (by left).
    unfold spec.bins. simpl. by rewrite app_nil_r, Hcounts.
  - rewrite (bin_count_step _ bin_factor
               (ExtendableTable.data (binnableTable.base t)) ys);
      try done.
    2:{ simpl. rewrite Hrp. symmetry. by apply data_length. }
    cbn [binnableTable._bin_counts binnableTable._only_bin
         binnableTable.base].
    rewrite Hcounts.
    pose proof (bincount_length_pos (spec.bins bin_factor ys)) as Hlen.
    destruct (decide (np.bincount_length x
                      ≤ np.bincount_length (spec.bins bin_factor ys)))
      as [Hle|Hgt].
    + rewrite decide_True by (by right).
      rewrite iadd_prefix_histograms by done. simpl rbind.
      destruct (binnableTable._only_bin t); [|done].
      destruct (remove_spec b2 (ExtendableTable._size b2) Hwf2)
        as (b3 & Hrem & _); [destruct Hwf2; lia|].
      by rewrite Hrem.
    + rewrite decide_False by (intros [?|?]; done).
      rewrite iadd_prefix_shorter; [done|].
      split; [|lia]. apply Hlen.
      * unfold spec.bins. by destruct ys.
      * by apply bins_nonneg.
Qed.

(** X12. Incremental binning on a new table of the default dtype, for a
    bin factor and timestamps that the dtype holds ([0 < bin_factor < 2^32],
    [0 <= x < 2^32]): [add(xs + ys)] and one [bin_count()] return the
    histogram of all the bins; [add(xs)], [bin_count()], [add(ys)],
    [bin_count()] return the same counts when [ys] is empty or its largest
    bin is at least the largest bin of [xs], and raise [ValueError]
    otherwise. *)
Lemma incremental_counts_spec (bin_factor : Z) (only_bin : bool)
    (xs ys : list Z) :
  0 < bin_factor < 2 ^ 32 →
  Forall (λ x, 0 ≤ x < 2 ^ 32) xs →
  Forall (λ y, 0 ≤ y < 2 ^ 32) ys →
  spec.one_shot_counts np_empty bin_factor only_bin xs ys
  = Ok (spec.histogram (spec.bins bin_factor (xs ++ ys)))
  ∧ spec.incremental_counts np_empty bin_factor only_bin xs ys
    = if decide (ys = []
                 ∨ np.bincount_length (spec.bins bin_factor xs)
                   ≤ np.bincount_length (spec.bins bin_factor ys))
      then spec.one_shot_counts np_empty bin_factor only_bin xs ys
      else Raise ValueError.
Proof.
  intros [Hpos _] Hxs32 Hys32.
  assert (Hxs : Forall (λ x, 0 ≤ x) xs)
    by (eapply Forall_impl; [exact Hxs32|]; simpl; lia).
  assert (Hys : Forall (λ y, 0 ≤ y) ys)
    by (eapply Forall_impl; [exact Hys32|]; simpl; lia).
  assert (Hone : spec.one_shot_counts np_empty bin_factor only_bin xs ys
                 = Ok (spec.histogram (spec.bins bin_factor (xs ++ ys)))).
  { destruct (add_bin_count_new bin_factor only_bin (xs ++ ys) Hpos)
      as (t1 & t2 & Hadd & Hbin & _); [by apply Forall_app|].
    unfold spec.one_shot_counts. rewrite Hadd. simpl rbind.
    by rewrite Hbin. }
  split; [done|]. rewrite Hone.
  destruct (add_bin_count_new bin_factor only_bin xs Hpos Hxs)
    as (t1 & t2 & Hadd & Hbin & Hwf & Hrp & Hcounts & Hbf).
  unfold spec.incremental_counts. rewrite Hadd. simpl rbind.
  rewrite Hbin. simpl rbind.
  rewrite (add_bin_count_again t2 bin_factor (spec.bins bin_factor xs) ys)
    by done.
  unfold spec.bins. by rewrite map_app.
Qed.

End binning.

(** ** The buffer decoders and the single-record readers

    The selections that the buffer decoders make by comparing the header
    bits are the classifications of the single-record readers, for records
    of 32 bits and the channels 1 to 64. *)

Lemma header_as_quotient (r : Z) :
  0 ≤ r < 2 ^ 32 → Z.land r bitmask_header = (r `div` 2 ^ 25) * 2 ^ 25.
Proof.
  intros Hr.
  rewrite <- Z.shiftr_div_pow2, <- Z.shiftl_mul_pow2 by lia.
  change bitmask_header with (Z.shiftl (Z.ones 7) 25).
  apply Z.bits_inj'. intros n Hn.
  rewrite Z.land_spec, !Z.shiftl_spec by lia.
  destruct (Z.ltb_spec n 25) as [Hlt|Hge].
  - rewrite !(Z.testbit_neg_r _ (n - 25)) by lia. apply andb_false_r.
  - rewrite Z.shiftr_spec by lia. replace (n - 25 + 25) with n by lia.
    destruct (Z.ltb_spec n 32) as [Hlt|Hge'].
    + rewrite Z.ones_spec_low by lia. apply andb_true_r.
    + rewrite Z.ones_spec_high by lia. rewrite andb_false_r.
      symmetry. rewrite <- (Z.mod_small r (2 ^ 32)) by lia.
      apply Z.mod_pow2_bits_high. lia.
Qed.

Lemma special_and_channel (r : Z) :
  0 ≤ r < 2 ^ 32 →
  Z.land (Z.shiftr r 31) 1 = (r `div` 2 ^ 25) `div` 64
  ∧ Z.land (Z.shiftr r 25) 0x3F = (r `div` 2 ^ 25) `mod` 64
  ∧ 0 ≤ r `div` 2 ^ 25 < 128.
Proof.
  intros Hr. split; [|split].
  - change 1 with (Z.ones 1). rewrite Z.land_ones, Z.shiftr_div_pow2 by lia.
    rewrite Z.div_div by lia. change (2 ^ 25 * 64) with (2 ^ 31).
    apply Z.mod_small. split; [apply Z.div_pos; lia|].
    apply Z.div_lt_upper_bound; lia.
  - change 0x3F with (Z.ones 6).
    by rewrite Z.land_ones, Z.shiftr_div_pow2 by lia.
  - split; [apply Z.div_pos; lia|]. apply Z.div_lt_upper_bound; lia.
Qed.

(** The records that [read_T2_buffer] selects for the photons of a channel
    are the records that [read_T2_record] reads as a photon of that
    channel. *)
Lemma is_photon_on_read_T2_record (r channel : Z) :
  0 ≤ r < 2 ^ 32 → 1 ≤ channel ≤ 64 →
  spec.is_photon_on channel r = true
  ↔ read_T2_record r = Ok ("photon", channel, spec.T2_field r).
Proof.
  intros Hr Hc. unfold spec.is_photon_on, read_T2_record.
  rewrite header_as_quotient, Z.shiftl_mul_pow2 by lia.
  destruct (special_and_channel r Hr) as (-> & -> & Hq).
  generalize dependent (r `div` 2 ^ 25). intros q Hq.
  rewrite Z.eqb_eq.
  destruct (Z.eqb_spec (q `div` 64) 1) as [H1|H1].
  - split.
    + intros Heq. exfalso. Z.to_euclidean_division_equations. lia.
    + repeat case_match; discriminate.
  - assert (Hq64 : q < 64) by (Z.to_euclidean_division_equations; lia).
    rewrite Z.mod_small by lia. split.
    + intros Heq. assert (q = channel - 1) as -> by lia.
      unfold spec.T2_field. do 3 f_equal. lia.
    + intros Heq. injection Heq as Heq. lia.
Qed.

(** The records that the buffer decoders count as overflows are the
    records that [read_T2_record] reads as an overflow. *)
Lemma is_overflow_read_T2_record (r : Z) :
  0 ≤ r < 2 ^ 32 →
  spec.is_overflow r = true
  ↔ read_T2_record r = Ok ("overflow", 0, spec.T2_field r).
Proof.
  intros Hr. unfold spec.is_overflow, read_T2_record.
  rewrite header_as_quotient by lia.
  destruct (special_and_channel r Hr) as (-> & -> & Hq).
  generalize dependent (r `div` 2 ^ 25). intros q Hq.
  rewrite Z.eqb_eq. change bit_overflow with (127 * 2 ^ 25).
  destruct (Z.eqb_spec (q `div` 64) 1) as [H1|H1].
  - destruct (Z.eqb_spec (q `mod` 64) 63) as [H2|H2].
    + split; [done|]. intros _. Z.to_euclidean_division_equations. lia.
    + split.
      * intros Heq. exfalso. Z.to_euclidean_division_equations. lia.
      * repeat case_match; discriminate.
  - split; [|discriminate]. intros Heq. exfalso.
    Z.to_euclidean_division_equations. lia.
Qed.

Lemma T3_dtime_field (r : Z) :
  spec.T3_dtime r = Z.land (Z.shiftr r 10) 0x7FFF.
Proof. unfold spec.T3_dtime. by rewrite Z.shiftr_land. Qed.

Lemma is_photon_on_read_T3_record (r channel : Z) :
  0 ≤ r < 2 ^ 32 → 1 ≤ channel ≤ 64 →
  spec.is_photon_on channel r = true
  ↔ read_T3_record r
    = Ok ("photon", channel, spec.T3_dtime r, spec.T3_field r).
Proof.
  intros Hr Hc. rewrite T3_dtime_field.
  unfold spec.is_photon_on, read_T3_record.
  rewrite header_as_quotient, Z.shiftl_mul_pow2 by lia.
  destruct (special_and_channel r Hr) as (-> & -> & Hq).
  generalize dependent (r `div` 2 ^ 25). intros q Hq.
  rewrite Z.eqb_eq.
  destruct (Z.eqb_spec (q `div` 64) 1) as [H1|H1].
  - split.
    + intros Heq. exfalso. Z.to_euclidean_division_equations. lia.
    + repeat case_match; discriminate.
  - assert (Hq64 : q < 64) by (Z.to_euclidean_division_equations; lia).
    rewrite Z.mod_small by lia. split.
    + intros Heq. assert (q = channel - 1) as -> by lia.
      unfold spec.T3_field. do 4 f_equal. lia.
    + intros Heq. injection Heq as Heq. lia.
Qed.

Lemma is_overflow_read_T3_record (r : Z) :
  0 ≤ r < 2 ^ 32 →
  spec.is_overflow r = true
  ↔ read_T3_record r
    = Ok ("overflow", 0, spec.T3_dtime r, spec.T3_field r).
Proof.
  intros Hr. rewrite T3_dtime_field.
  unfold spec.is_overflow, read_T3_record.
  rewrite header_as_quotient by lia.
  destruct (special_and_channel r Hr) as (-> & -> & Hq).
  generalize dependent (r `div` 2 ^ 25). intros q Hq.
  rewrite Z.eqb_eq. change bit_overflow with (127 * 2 ^ 25).
  destruct (Z.eqb_spec (q `div` 64) 1) as [H1|H1].
  - destruct (Z.eqb_spec (q `mod` 64) 63) as [H2|H2].
    + split; [done|]. intros _. Z.to_euclidean_division_equations. lia.
    + split.
      * intros Heq. exfalso. Z.to_euclidean_division_equations. lia.
      * repeat case_match; discriminate.
  - split; [|discriminate]. intros Heq. exfalso.
    Z.to_euclidean_division_equations. lia.
Qed.


(* ===================================================================== *)
(** * Part III: further properties of the code                            *)
(* ===================================================================== *)

(** ** RecordDecoder *)

Lemma last_item_congr {A : Type} (a : list A) :
  a ≠ [] → is_ok (np.last_item a) = true.
Proof. intros Hne. by destruct (last_item_ok a Hne) as [x ->]. Qed.

Lemma is_ok_bind_Ok {A B : Type} (r : result A) (f : A → B) :
  is_ok (let* x := r in Ok (f x)) = is_ok r.
Proof. by destruct r. Qed.

(** X1. On a non-empty buffer the buffer decoders raise for an unknown
    record kind and for nothing else: whatever the records and the channel
    are, [read_T2_buffer] returns for the kinds photon, marker and sync and
    [read_T3_buffer] for the kinds photon and marker. *)
Theorem buffer_decoders_return_on_nonempty (buffer : list Z) (channel : Z)
    (rtype : string) :
  buffer ≠ [] →
  is_ok (read_T2_buffer buffer channel rtype)
    = (String.eqb rtype "photon" || String.eqb rtype "marker"
       || String.eqb rtype "sync")
  ∧ is_ok (read_T3_buffer buffer channel rtype)
    = (String.eqb rtype "photon" || String.eqb rtype "marker").
Proof.
  intros Hne.
  pose proof (last_item_congr _ (overflows_counts_nonempty
    (λ r, Z.land r bitmask_timetag)
    (λ r, Z.land r bitmask_header =? bit_overflow) buffer Hne)) as H2.
  pose proof (last_item_congr _ (overflows_counts_nonempty
    (λ r, Z.land r bitmask_nsync)
    (λ r, Z.land r bitmask_header =? bit_overflow) buffer Hne)) as H3.
  rewrite <- (map_map (λ r, Z.land r bitmask_header) (λ h, h =? bit_overflow))
    in H2, H3.
  unfold read_T2_buffer, read_T3_buffer, T2_bit_selected, T3_bit_selected.
  split.
  - destruct (String.eqb rtype "photon"); simpl;
      [by rewrite is_ok_bind_Ok|].
    destruct (String.eqb rtype "marker"); simpl;
      [by rewrite is_ok_bind_Ok|].
    destruct (String.eqb rtype "sync"); simpl;
      [by rewrite is_ok_bind_Ok|done].
  - destruct (String.eqb rtype "photon"); simpl;
      [by rewrite is_ok_bind_Ok|].
    destruct (String.eqb rtype "marker"); simpl;
      [by rewrite is_ok_bind_Ok|done].
Qed.

Lemma buffer_decoders_return_witness :
  is_ok (read_T2_buffer [0xA8000001] 1 "sync") = true
  ∧ is_ok (read_T3_buffer [0xA8000001] 1 "sync") = false.
Proof.
  destruct (buffer_decoders_return_on_nonempty [0xA8000001] 1 "sync"
              ltac:(discriminate)) as [H2 H3].
  split; [exact H2 | exact H3].
Defined.

(** The fields of a 32-bit record in terms of quotients and remainders. *)
Lemma record_fields (r : Z) :
  0 ≤ r < 2 ^ 32 →
  ∃ q t,
    r = q * 2 ^ 25 + t ∧ 0 ≤ q < 128 ∧ 0 ≤ t < 2 ^ 25
    ∧ Z.land (Z.shiftr r 31) 1 = q `div` 64
    ∧ Z.land (Z.shiftr r 25) 0x3F = q `mod` 64
    ∧ Z.land r 0x1FFFFFF = t
    ∧ Z.land (Z.shiftr r 10) 0x7FFF = t `div` 2 ^ 10
    ∧ Z.land r 0x3FF = t `mod` 2 ^ 10.
Proof.
  intros Hr. destruct (special_and_channel r Hr) as (Hs & Hc & Hq).
  exists (r `div` 2 ^ 25), (r `mod` 2 ^ 25).
  split; [pose proof (Z.div_mod r (2 ^ 25)); lia|].
  split; [done|]. split; [apply Z.mod_pos_bound; lia|].
  split; [done|]. split; [done|].
  split; [|split].
  - change 0x1FFFFFF with (Z.ones 25). by rewrite Z.land_ones by lia.
  - change 0x7FFF with (Z.ones 15).
    rewrite Z.land_ones, Z.shiftr_div_pow2 by lia.
    change (2 ^ 15) with 32768. change (2 ^ 10) with 1024.
    change (2 ^ 25) with 33554432.
    Z.to_euclidean_division_equations. lia.
  - change 0x3FF with (Z.ones 10). rewrite Z.land_ones by lia.
    Z.to_euclidean_division_equations. lia.
Qed.

(** X2. Reading a 32-bit record loses nothing: from the kind, the channel
    and the fields that [read_T2_record] or [read_T3_record] returns, the
    record is recovered, and the returned fields are within their widths
    (25 bits for the T2 timetag, 15 and 10 bits for the T3 dtime and
    nsync). *)
Theorem record_readers_are_invertible (r : Z) :
  0 ≤ r < 2 ^ 32 →
  (∀ kind channel timetag,
     read_T2_record r = Ok (kind, channel, timetag) →
     aux.T2_record_of kind channel timetag = Some r
     ∧ 0 ≤ timetag < 2 ^ 25)
  ∧ (∀ kind channel dtime nsync,
       read_T3_record r = Ok (kind, channel, dtime, nsync) →
       aux.T3_record_of kind channel dtime nsync = Some r
       ∧ 0 ≤ dtime < 2 ^ 15 ∧ 0 ≤ nsync < 2 ^ 10).
Proof.
  intros Hr.
  destruct (record_fields r Hr)
    as (q & t & -> & Hq & Ht & Hs & Hc & Htt & Hdt & Hns).
  split.
  - intros kind channel timetag. unfold read_T2_record.
    rewrite Hs, Hc, Htt. clear Hs Hc Htt Hdt Hns.
    destruct (Z.eqb_spec (q `div` 64) 1) as [H1|H1].
    + destruct (Z.eqb_spec (q `mod` 64) 63) as [H2|H2].
      { intros [= <- <- <-]. split; [|done].
        unfold aux.T2_record_of, aux.T3_record_of. simpl String.eqb.
        cbv iota. f_equal.
        Z.to_euclidean_division_equations. lia. }
      destruct ((1 <=? q `mod` 64) && (q `mod` 64 <=? 15)) eqn:Hm.
      { intros [= <- <- <-]. split; [|done].
        unfold aux.T2_record_of, aux.T3_record_of. simpl String.eqb.
        cbv iota. f_equal.
        Z.to_euclidean_division_equations. lia. }
      destruct (Z.eqb_spec (q `mod` 64) 0) as [H0|H0]; [|discriminate].
      intros [= <- <- <-]. split; [|done].
        unfold aux.T2_record_of, aux.T3_record_of. simpl String.eqb.
        cbv iota. f_equal.
      Z.to_euclidean_division_equations. lia.
    + intros [= <- <- <-]. split; [|done].
        unfold aux.T2_record_of, aux.T3_record_of. simpl String.eqb.
        cbv iota. f_equal.
      Z.to_euclidean_division_equations. lia.
  - intros kind channel dtime nsync. unfold read_T3_record.
    rewrite Hs, Hc, Hdt, Hns. clear Hs Hc Htt Hdt Hns.
    assert (Hd : 0 ≤ t `div` 2 ^ 10 < 2 ^ 15)
      by (Z.to_euclidean_division_equations; lia).
    assert (Hn : 0 ≤ t `mod` 2 ^ 10 < 2 ^ 10)
      by (apply Z.mod_pos_bound; lia).
    assert (Hsplit : t = t `div` 2 ^ 10 * 2 ^ 10 + t `mod` 2 ^ 10)
      by (pose proof (Z.div_mod t (2 ^ 10)); lia).
    destruct (Z.eqb_spec (q `div` 64) 1) as [H1|H1].
    + destruct (Z.eqb_spec (q `mod` 64) 63) as [H2|H2].
      { intros [= <- <- <- <-]. split; [|done].
        unfold aux.T2_record_of, aux.T3_record_of. simpl String.eqb.
        cbv iota. f_equal.
        Z.to_euclidean_division_equations. lia. }
      destruct ((1 <=? q `mod` 64) && (q `mod` 64 <=? 15)) eqn:Hm;
        [|discriminate].
      intros [= <- <- <- <-]. split; [|done].
        unfold aux.T2_record_of, aux.T3_record_of. simpl String.eqb.
        cbv iota. f_equal.
      Z.to_euclidean_division_equations. lia.
    + intros [= <- <- <- <-]. split; [|done].
        unfold aux.T2_record_of, aux.T3_record_of. simpl String.eqb.
        cbv iota. f_equal.
      Z.to_euclidean_division_equations. lia.
Qed.

Lemma record_readers_are_invertible_witness :
  aux.T2_record_of "marker" 1 7 = Some 0x82000007
  ∧ aux.T3_record_of "photon" 1 3 5 = Some 0x00000C05.
Proof.
  destruct (record_readers_are_invertible 0x82000007 ltac:(lia)) as [H2 _].
  destruct (record_readers_are_invertible 0x00000C05 ltac:(lia)) as [_ H3].
  split.
  - apply (H2 "marker" 1 7). reflexivity.
  - apply (H3 "photon" 1 3 5). reflexivity.
Defined.

(** X3. The single-record readers raise on a 32-bit record exactly in the
    reserved ranges: [read_T2_record] when the special bit is set and the
    channel field is between 16 and 62, that is for
    [0xA0000000 <= r < 0xFE000000]; [read_T3_record] there and, T3 having
    no sync code, also when the special bit is set and the channel field is
    0, that is for [0x80000000 <= r < 0x82000000]. *)
Theorem record_readers_raise_exactly_on_reserved (r : Z) :
  0 ≤ r < 2 ^ 32 →
  (is_ok (read_T2_record r) = false ↔ 0xA0000000 ≤ r < 0xFE000000)
  ∧ (is_ok (read_T3_record r) = false
     ↔ 0x80000000 ≤ r < 0x82000000 ∨ 0xA0000000 ≤ r < 0xFE000000).
Proof.
  intros Hr.
  destruct (record_fields r Hr)
    as (q & t & -> & Hq & Ht & Hs & Hc & Htt & Hdt & Hns).
  unfold read_T2_record, read_T3_record.
  rewrite Hs, Hc. clear Hs Hc Htt Hdt Hns.
  destruct (Z.eqb_spec (q `div` 64) 1) as [H1|H1];
    [destruct (Z.eqb_spec (q `mod` 64) 63) as [H2|H2];
     [|destruct (Z.leb_spec 1 (q `mod` 64)) as [Hl|Hl];
       [destruct (Z.leb_spec (q `mod` 64) 15) as [Hu|Hu]|];
       [|destruct (Z.eqb_spec (q `mod` 64) 0) as [H0|H0]
        |destruct (Z.eqb_spec (q `mod` 64) 0) as [H0|H0]]]|];
    simpl;
    (split;
     (split; [intros Hf; try discriminate Hf
             |intros Hrange; try reflexivity; exfalso]));
    Z.to_euclidean_division_equations; lia.
Qed.

Lemma record_readers_raise_witness :
  is_ok (read_T2_record 0xA8000001) = false
  ∧ is_ok (read_T3_record 0x80000005) = false.
Proof.
  destruct (record_readers_raise_exactly_on_reserved 0xA8000001 ltac:(lia))
    as [[_ H2] _].
  destruct (record_readers_raise_exactly_on_reserved 0x80000005 ltac:(lia))
    as [_ [_ H3]].
  split; [apply H2 | apply H3]; lia.
Defined.

(** The fields that the buffer decoders return, by records instead of
    positions. *)
Lemma fields_by_filter (sel : Z → bool) (f : Z → Z) (buffer : list Z) :
  map (λ p, f (nth p buffer 0)) (spec.positions sel buffer)
  = map f (List.filter sel buffer).
Proof.
  induction buffer as [|r rest IH]; [done|].
  rewrite positions_cons, map_app, map_map. cbn [List.filter].
  change (map (λ p, f (nth (S p) (r :: rest) 0)) (spec.positions sel rest))
    with (map (λ p, f (nth p rest 0)) (spec.positions sel rest)).
  rewrite IH. by destruct (sel r).
Qed.

Lemma omap_by_filter {B : Type} (sel : Z → bool) (f : Z → B)
    (g : Z → option B) (buffer : list Z) :
  Forall (λ r, g r = if sel r then Some (f r) else None) buffer →
  omap g buffer = map f (List.filter sel buffer).
Proof.
  induction 1 as [|r rest Hr _ IH]; [done|].
  cbn [omap list_omap List.filter]. rewrite Hr.
  destruct (sel r); simpl; by rewrite <- IH.
Qed.

Lemma read_T2_record_timetag (r : Z) (kind : string) (channel timetag : Z) :
  read_T2_record r = Ok (kind, channel, timetag) → timetag = spec.T2_field r.
Proof.
  unfold read_T2_record. intros H.
  repeat case_match; try discriminate H; by injection H as _ _ <-.
Qed.

Lemma read_T3_record_fields (r : Z) (kind : string) (channel dtime nsync : Z) :
  read_T3_record r = Ok (kind, channel, dtime, nsync) →
  dtime = spec.T3_dtime r ∧ nsync = spec.T3_field r.
Proof.
  rewrite T3_dtime_field. unfold read_T3_record. intros H.
  repeat case_match; try discriminate H; by injection H as _ _ <- <-.
Qed.

Lemma T2_reads_as_photon (r channel : Z) :
  0 ≤ r < 2 ^ 32 → 1 ≤ channel ≤ 64 →
  aux.T2_reads_as "photon" channel r
  = if spec.is_photon_on channel r then Some (spec.T2_field r) else None.
Proof.
  intros Hr Hc. pose proof (is_photon_on_read_T2_record r channel Hr Hc) as Hiff.
  unfold aux.T2_reads_as.
  destruct (spec.is_photon_on channel r).
  - rewrite (proj1 Hiff eq_refl). simpl. by rewrite Z.eqb_refl.
  - destruct (read_T2_record r) as [[[k c] t]|e] eqn:Hread; [|done].
    destruct (String.eqb k "photon" && (c =? channel)) eqn:Hk; [|done].
    apply andb_true_iff in Hk as [Hk Hc'].
    apply String.eqb_eq in Hk as ->. apply Z.eqb_eq in Hc' as ->.
    pose proof (read_T2_record_timetag _ _ _ _ Hread) as ->.
    discriminate (proj2 Hiff eq_refl).
Qed.

Lemma T3_reads_as_photon (r channel : Z) :
  0 ≤ r < 2 ^ 32 → 1 ≤ channel ≤ 64 →
  aux.T3_reads_as "photon" channel r
  = if spec.is_photon_on channel r
    then Some (spec.T3_dtime r, spec.T3_field r) else None.
Proof.
  intros Hr Hc. pose proof (is_photon_on_read_T3_record r channel Hr Hc) as Hiff.
  unfold aux.T3_reads_as.
  destruct (spec.is_photon_on channel r).
  - rewrite (proj1 Hiff eq_refl). simpl. by rewrite Z.eqb_refl.
  - destruct (read_T3_record r) as [[[[k c] d] n]|e] eqn:Hread; [|done].
    destruct (String.eqb k "photon" && (c =? channel)) eqn:Hk; [|done].
    apply andb_true_iff in Hk as [Hk Hc'].
    apply String.eqb_eq in Hk as ->. apply Z.eqb_eq in Hc' as ->.
    destruct (read_T3_record_fields _ _ _ _ _ Hread) as [-> ->].
    discriminate (proj2 Hiff eq_refl).
Qed.

Lemma T2_reads_as_sync (r : Z) :
  0 ≤ r < 2 ^ 32 →
  aux.T2_reads_as "sync" 0 r
  = if Z.land r bitmask_header =? 0x80000000
    then Some (spec.T2_field r) else None.
Proof.
  intros Hr. unfold aux.T2_reads_as.
  destruct (read_T2_record r) as [[[k c] t]|e] eqn:Hread.
  - pose proof (read_T2_record_timetag _ _ _ _ Hread) as ->.
    revert Hread. unfold read_T2_record.
    rewrite header_as_quotient by lia.
    destruct (special_and_channel r Hr) as (-> & -> & Hq).
    generalize dependent (r `div` 2 ^ 25). intros q Hq.
    destruct (Z.eqb_spec (q * 2 ^ 25) 0x80000000) as [He|He];
      repeat case_match; intros [= <- <-]; simpl; try done; exfalso;
      repeat match goal with
             | H : (_ =? _) = true |- _ => apply Z.eqb_eq in H
             | H : (_ =? _) = false |- _ => apply Z.eqb_neq in H
             | H : (_ && _) = true |- _ => apply andb_true_iff in H as [??]
             | H : (_ <=? _) = true |- _ => apply Z.leb_le in H
             end;
      Z.to_euclidean_division_equations; lia.
  - revert Hread. unfold read_T2_record.
    rewrite header_as_quotient by lia.
    destruct (special_and_channel r Hr) as (-> & -> & Hq).
    generalize dependent (r `div` 2 ^ 25). intros q Hq.
    destruct (Z.eqb_spec (q * 2 ^ 25) 0x80000000) as [He|He]; [|done].
    repeat case_match; intros [=]; exfalso;
      repeat match goal with
             | H : (_ =? _) = true |- _ => apply Z.eqb_eq in H
             | H : (_ =? _) = false |- _ => apply Z.eqb_neq in H
             end;
      Z.to_euclidean_division_equations; lia.
Qed.

(** The buffer decoders on a non-empty buffer, for any selecting header
    value. *)
Lemma read_T2_buffer_selected (buffer : list Z) (channel : Z) (rtype : string)
    (b : Z) :
  T2_bit_selected channel rtype = Ok b → buffer ≠ [] →
  let ps := spec.positions (λ r, Z.land r bitmask_header =? b) buffer in
  read_T2_buffer buffer channel rtype
  = Ok (map (λ p, spec.overflow_sum_upto spec.T2_field buffer p `mod` 2 ^ 32) ps,
        map (λ p, spec.T2_field (nth p buffer 0)) ps,
        spec.overflow_sum spec.T2_field buffer `mod` 2 ^ 32).
Proof.
  intros Hsel Hne ps. unfold read_T2_buffer. rewrite Hsel. simpl rbind.
  rewrite !map_map.
  rewrite (mul_mask_overflow_payload (λ r, Z.land r bitmask_timetag)).
  unfold np.cumsum_uint32.
  rewrite (total_count _ buffer 0 Hne). simpl rbind.
  rewrite (selected_counts _ (λ r, Z.land r bitmask_header =? b) buffer 0).
  rewrite (selected_fields (λ r, Z.land r bitmask_header =? b)
             (λ r, Z.land r bitmask_timetag) buffer).
  reflexivity.
Qed.

(** X4. What the buffer decoders select is what the single-record readers
    read: on a non-empty buffer of 32-bit records and for a channel from 1
    to 64, the timetags that [read_T2_buffer] returns for the kind photon
    are, in order, the timetags of the records that [read_T2_record] reads
    as a photon of that channel, the timetags it returns for the kind sync
    are those of the records read as sync, and the dtime and nsync fields
    that [read_T3_buffer] returns for the kind photon are those of the
    records that [read_T3_record] reads as a photon of that channel. *)
Theorem buffer_decoders_select_what_record_readers_read (buffer : list Z)
    (channel : Z) :
  buffer ≠ [] →
  Forall (λ r, 0 ≤ r < 2 ^ 32) buffer →
  1 ≤ channel ≤ 64 →
  (∃ n_overflows total,
     read_T2_buffer buffer channel "photon"
     = Ok (n_overflows, omap (aux.T2_reads_as "photon" channel) buffer, total))
  ∧ (∃ n_overflows total,
       read_T2_buffer buffer channel "sync"
       = Ok (n_overflows, omap (aux.T2_reads_as "sync" 0) buffer, total))
  ∧ (∃ n_overflows total,
       read_T3_buffer buffer channel "photon"
       = Ok (n_overflows,
             (omap (aux.T3_reads_as "photon" channel) buffer).*1,
             (omap (aux.T3_reads_as "photon" channel) buffer).*2, total)).
Proof.
  intros Hne Hbuf Hc. split; [|split].
  - rewrite (read_T2_buffer_photon buffer channel Hne). cbv zeta.
    do 2 eexists. do 2 f_equal. f_equal.
    rewrite fields_by_filter. symmetry. apply omap_by_filter.
    eapply Forall_impl; [exact Hbuf|]. intros r Hr.
    by apply T2_reads_as_photon.
  - rewrite (read_T2_buffer_selected buffer channel "sync" 0x80000000
               eq_refl Hne). cbv zeta.
    do 2 eexists. do 2 f_equal. f_equal.
    rewrite fields_by_filter. symmetry. apply omap_by_filter.
    eapply Forall_impl; [exact Hbuf|]. intros r Hr.
    by apply T2_reads_as_sync.
  - rewrite (read_T3_buffer_photon buffer channel Hne). cbv zeta.
    assert (Hom : omap (aux.T3_reads_as "photon" channel) buffer
                  = map (λ r, (spec.T3_dtime r, spec.T3_field r))
                      (List.filter (spec.is_photon_on channel) buffer)).
    { apply omap_by_filter.
      eapply Forall_impl; [exact Hbuf|]. intros r Hr.
      by apply T3_reads_as_photon. }
    rewrite Hom. do 2 eexists.
    rewrite !fields_by_filter.
    change (?l.*1) with (map fst l). change (?l.*2) with (map snd l).
    by rewrite !map_map.
Qed.

Lemma buffer_decoders_select_witness :
  (∃ n_overflows total,
     read_T2_buffer [0x00000005; 0xFE000003; 0x80000009; 0x02000010] 2 "photon"
     = Ok (n_overflows,
           omap (aux.T2_reads_as "photon" 2)
             [0x00000005; 0xFE000003; 0x80000009; 0x02000010], total))
  ∧ omap (aux.T2_reads_as "photon" 2)
      [0x00000005; 0xFE000003; 0x80000009; 0x02000010] = [16]
  ∧ omap (aux.T2_reads_as "sync" 0)
      [0x00000005; 0xFE000003; 0x80000009; 0x02000010] = [9].
Proof.
  split; [|split; reflexivity].
  apply (buffer_decoders_select_what_record_readers_read
           [0x00000005; 0xFE000003; 0x80000009; 0x02000010] 2).
  - discriminate.
  - repeat constructor; lia.
  - lia.
Defined.

Lemma overflow_sum_no_overflow (field : Z → Z) (records : list Z) :
  Forall (λ r, spec.is_overflow r = false) records →
  spec.overflow_sum field records = 0.
Proof.
  unfold spec.overflow_sum, spec.weighted_sum.
  induction 1 as [|r rest Hr _ IH]; simpl; [done|].
  unfold spec.overflow_payload at 1. rewrite Hr. lia.
Qed.

(** X5. A buffer without overflow records is decoded without unwrapping:
    every returned overflow count is 0 and so is the total, in T2 and in
    T3 mode, for the photons of any channel. *)
Theorem no_overflow_record_no_overflow_count (buffer : list Z) (channel : Z) :
  buffer ≠ [] →
  Forall (λ r, spec.is_overflow r = false) buffer →
  (∃ timetag,
     read_T2_buffer buffer channel "photon"
     = Ok (map (λ _, 0) timetag, timetag, 0))
  ∧ (∃ dtime nsync,
       read_T3_buffer buffer channel "photon"
       = Ok (map (λ _, 0) nsync, dtime, nsync, 0)).
Proof.
  intros Hne Hno.
  assert (Hupto : ∀ field p,
            spec.overflow_sum_upto field buffer p `mod` 2 ^ 32 = 0).
  { intros field p. unfold spec.overflow_sum_upto.
    rewrite overflow_sum_no_overflow; [done|]. by apply Forall_take. }
  split.
  - rewrite (read_T2_buffer_photon buffer channel Hne). cbv zeta.
    eexists. rewrite overflow_sum_no_overflow by done.
    do 2 f_equal. f_equal. rewrite map_map. apply map_ext. intros p. apply Hupto.
  - rewrite (read_T3_buffer_photon buffer channel Hne). cbv zeta.
    do 2 eexists. rewrite overflow_sum_no_overflow by done.
    do 2 f_equal. do 2 f_equal. rewrite map_map. apply map_ext. intros p.
    apply Hupto.
Qed.

Lemma no_overflow_record_witness :
  (∃ timetag,
     read_T2_buffer [0x00000005; 0x02000007; 0x00000010] 1 "photon"
     = Ok (map (λ _, 0) timetag, timetag, 0))
  ∧ (∃ dtime nsync,
       read_T3_buffer [0x00000005; 0x02000007; 0x00000010] 1 "photon"
       = Ok (map (λ _, 0) nsync, dtime, nsync, 0)).
Proof.
  apply (no_overflow_record_no_overflow_count
           [0x00000005; 0x02000007; 0x00000010] 1).
  - discriminate.
  - repeat constructor.
Defined.

(** *** Decoding across a buffer boundary *)

Lemma bool_index_app {A : Type} (a1 a2 : list A) (m1 m2 : list bool) :
  length a1 = length m1 →
  np.bool_index (a1 ++ a2) (m1 ++ m2)
  = np.bool_index a1 m1 ++ np.bool_index a2 m2.
Proof.
  revert m1. induction a1 as [|x a1 IH]; intros [|b m1] Hlen; simpl in *;
    try done.
  rewrite IH by lia. by destruct b.
Qed.

Lemma bool_index_map {A B : Type} (g : A → B) (a : list A) (m : list bool) :
  np.bool_index (map g a) m = map g (np.bool_index a m).
Proof.
  revert m. induction a as [|x a IH]; intros [|b m]; simpl; try done.
  rewrite IH. by destruct b.
Qed.

Lemma cumsum_from_app (w : Z → Z) (b1 b2 : list Z) (acc : Z) :
  0 ≤ acc < 2 ^ 32 →
  np.cumsum_from acc (map w (b1 ++ b2))
  = np.cumsum_from acc (map w b1)
    ++ np.cumsum_from ((acc + spec.weighted_sum w b1) `mod` 2 ^ 32) (map w b2).
Proof.
  revert acc. induction b1 as [|r b1 IH]; intros acc Hacc.
  - simpl. by rewrite Z.add_0_r, Z.mod_small.
  - simpl. f_equal. rewrite IH by (apply Z.mod_pos_bound; by vm_compute).
    do 2 f_equal. unfold np.uint32_modulus.
    rewrite Zplus_mod_idemp_l. f_equal. lia.
Qed.

Lemma cumsum_from_shift (a : list Z) (acc acc' c : Z) :
  acc `mod` 2 ^ 32 = (acc' + c) `mod` 2 ^ 32 →
  np.cumsum_from acc a
  = map (λ n, (acc' + n) `mod` 2 ^ 32) (np.cumsum_from c a).
Proof.
  revert acc c. induction a as [|x a IH]; intros acc c Hacc; [done|].
  simpl. unfold np.uint32_modulus.
  assert (Hstep : (acc + x) `mod` 2 ^ 32
                  = (acc' + (c + x) `mod` 2 ^ 32) `mod` 2 ^ 32).
  { rewrite Zplus_mod_idemp_r, Z.add_assoc.
    rewrite <- (Zplus_mod_idemp_l acc), Hacc, Zplus_mod_idemp_l. done. }
  f_equal; [done|]. apply IH. by rewrite Z.mod_mod by lia.
Qed.

Lemma weighted_sum_app (w : Z → Z) (b1 b2 : list Z) :
  spec.weighted_sum w (b1 ++ b2)
  = spec.weighted_sum w b1 + spec.weighted_sum w b2.
Proof.
  unfold spec.weighted_sum. induction b1 as [|r b1 IH]; simpl; lia.
Qed.

Lemma last_item_app {A : Type} (a1 a2 : list A) :
  a2 ≠ [] → np.last_item (a1 ++ a2) = np.last_item a2.
Proof.
  intros Hne. unfold np.last_item. rewrite last_app.
  destruct (last a2) eqn:Hl; [done|]. by apply last_None in Hl.
Qed.

(** The decoder on a concatenation of two buffers. *)
Lemma read_T2_buffer_app (b1 b2 : list Z) (channel : Z)
    (n1 t1 n2 t2 : list Z) (total1 total2 : Z) :
  read_T2_buffer b1 channel "photon" = Ok (n1, t1, total1) →
  read_T2_buffer b2 channel "photon" = Ok (n2, t2, total2) →
  read_T2_buffer (b1 ++ b2) channel "photon"
  = Ok (n1 ++ map (λ n, (total1 + n) `mod` 2 ^ 32) n2,
        t1 ++ t2,
        (total1 + total2) `mod` 2 ^ 32).
Proof.
  intros H1 H2.
  assert (Hne1 : b1 ≠ []) by (intros ->; discriminate H1).
  assert (Hne2 : b2 ≠ []) by (intros ->; discriminate H2).
  revert H1 H2. unfold read_T2_buffer. simpl rbind. rewrite !map_map.
  rewrite !(mul_mask_overflow_payload (λ r, Z.land r bitmask_timetag)).
  unfold np.cumsum_uint32.
  rewrite !(total_count _ _ 0) by (try done; by destruct b1).
  simpl rbind. intros [= <- <- <-] [= <- <- <-].
  rewrite cumsum_from_app by lia. rewrite !map_app.
  rewrite !bool_index_app
    by (by rewrite ?cumsum_from_length, !length_map).
  set (total1 := (0 + spec.weighted_sum
                        (spec.overflow_payload
                           (λ r, Z.land r bitmask_timetag)) b1) `mod` 2 ^ 32).
  rewrite (cumsum_from_shift _ total1 total1 0)
    by (by rewrite (Z.add_0_r total1)).
  rewrite bool_index_map, weighted_sum_app.
  do 2 f_equal. unfold total1.
  rewrite Zplus_mod_idemp_l, Zplus_mod_idemp_r. f_equal.
Qed.

(** X6. Decoding composes across a buffer boundary: when [b1] decodes to
    the counts [n1], timetags [t1] and total [total1], and [b2] to [n2],
    [t2] and [total2], the concatenation [b1 + b2] decodes to the timetags
    [t1 + t2], the counts [n1] followed by the counts [n2] each increased
    by [total1] in [uint32], and the total [total1 + total2] in
    [uint32]. *)
Theorem read_T2_buffer_concatenation (b1 b2 : list Z) (channel : Z)
    (n1 t1 n2 t2 : list Z) (total1 total2 : Z) :
  read_T2_buffer b1 channel "photon" = Ok (n1, t1, total1) →
  read_T2_buffer b2 channel "photon" = Ok (n2, t2, total2) →
  read_T2_buffer (b1 ++ b2) channel "photon"
  = Ok (n1 ++ map (λ n, (total1 + n) `mod` 2 ^ 32) n2,
        t1 ++ t2,
        (total1 + total2) `mod` 2 ^ 32).
Proof. apply read_T2_buffer_app. Qed.

Lemma read_T2_buffer_concatenation_witness :
  read_T2_buffer ([0x00000005; 0xFE000003] ++ [0x00000010; 0xFE000002; 0x00000001])
    1 "photon"
  = Ok ([0] ++ map (λ n, (3 + n) `mod` 2 ^ 32) [0; 2],
        [5] ++ [16; 1], (3 + 2) `mod` 2 ^ 32).
Proof.
  apply (read_T2_buffer_concatenation
           [0x00000005; 0xFE000003] [0x00000010; 0xFE000002; 0x00000001] 1);
    reflexivity.
Defined.

(** ** T2Result *)

Lemma zip_with_maps {A B C D : Type} (h : B → C → D) (f : A → B) (g : A → C)
    (l : list A) :
  zip_with h (map f l) (map g l) = map (λ x, h (f x) (g x)) l.
Proof. induction l as [|x l IH]; simpl; [done|]. by rewrite IH. Qed.

(** [add_buffer] on a result whose table is well formed and whose
    accumulator is set. *)
Lemma T2_add_buffer_spec (np_empty : nat → Z) (r : T2Result.t)
    (buffer : list Z) (acc : Z) :
  spec.well_formed (binnableTable.base (T2Result._timetags r)) →
  T2Result._n_overflows r = Some acc →
  buffer ≠ [] →
  ∃ r',
    T2Result.add_buffer np_empty r buffer = Ok r'
    ∧ spec.well_formed (binnableTable.base (T2Result._timetags r'))
    ∧ T2Result._n_overflows r' = Some (acc + aux.T2_total buffer)
    ∧ T2Result.timetags r'
      = T2Result.timetags r ++ aux.T2_absolute acc (T2Result._channel r) buffer
    ∧ T2Result._channel r' = T2Result._channel r.
Proof.
  intros Hwf Hacc Hne. unfold T2Result.add_buffer.
  rewrite (read_T2_buffer_photon buffer _ Hne). cbv zeta. simpl rbind.
  rewrite Hacc. simpl rbind. rewrite map_map, zip_with_maps.
  unfold binnableTable.add.
  destruct (add_spec np_empty _
              (map (λ p, (acc + spec.overflow_sum_upto spec.T2_field buffer p
                                `mod` 2 ^ 32) * T2WRAPAROUND_V2
                         + spec.T2_field (nth p buffer 0))
                 (spec.positions (spec.is_photon_on (T2Result._channel r))
                    buffer)) Hwf)
    as (b' & Hadd & Hwf' & Hsize & Hdata).
  rewrite Hadd. simpl rbind. eexists. split; [reflexivity|].
  simpl. repeat split; try done; apply Hwf'.
Qed.

Lemma T2_add_buffer_decoded (np_empty : nat → Z) (r : T2Result.t)
    (buffer n_overflows timetag : list Z) (acc total : Z) :
  spec.well_formed (binnableTable.base (T2Result._timetags r)) →
  T2Result._n_overflows r = Some acc →
  read_T2_buffer buffer (T2Result._channel r) "photon"
  = Ok (n_overflows, timetag, total) →
  ∃ r',
    T2Result.add_buffer np_empty r buffer = Ok r'
    ∧ T2Result._n_overflows r' = Some (acc + total)
    ∧ T2Result.timetags r'
      = T2Result.timetags r
        ++ zip_with (λ n t, (acc + n) * T2WRAPAROUND_V2 + t) n_overflows timetag.
Proof.
  intros Hwf Hacc Hread. unfold T2Result.add_buffer.
  rewrite Hread. simpl rbind. rewrite Hacc. simpl rbind.
  unfold binnableTable.add.
  destruct (add_spec np_empty _
              (zip_with (λ n t, n * T2WRAPAROUND_V2 + t)
                 (map (λ n, acc + n) n_overflows) timetag) Hwf)
    as (b' & Hadd & Hwf' & Hsize & Hdata).
  rewrite Hadd. simpl rbind. eexists. split; [reflexivity|].
  split; [done|]. unfold T2Result.timetags. simpl. rewrite Hdata.
  f_equal. clear. revert timetag.
  induction n_overflows as [|n ns IH]; intros [|t ts]; simpl; try done.
  by rewrite IH.
Qed.

Lemma T2_total_nonneg (buffer : list Z) : 0 ≤ aux.T2_total buffer.
Proof. unfold aux.T2_total. apply Z.mod_pos_bound. lia. Qed.

Lemma T2_add_buffers_spec (np_empty : nat → Z) (buffers : list (list Z))
    (r : T2Result.t) (acc : Z) :
  spec.well_formed (binnableTable.base (T2Result._timetags r)) →
  T2Result._n_overflows r = Some acc →
  Forall (λ buffer, buffer ≠ []) buffers →
  ∃ r',
    aux.T2_add_buffers np_empty r buffers = Ok r'
    ∧ T2Result.timetags r'
      = T2Result.timetags r
        ++ aux.T2_session_timetags acc (T2Result._channel r) buffers
    ∧ T2Result._n_overflows r'
      = Some (acc + foldr (λ buffer s, aux.T2_total buffer + s) 0 buffers).
Proof.
  revert r acc. induction buffers as [|buffer rest IH]; intros r acc Hwf Hacc Hne.
  - exists r. simpl. by rewrite app_nil_r, Z.add_0_r.
  - inversion Hne as [|? ? Hb Hrest]; subst.
    destruct (T2_add_buffer_spec np_empty r buffer acc Hwf Hacc Hb)
      as (r1 & Hadd & Hwf1 & Hacc1 & Htt1 & Hch1).
    destruct (IH r1 _ Hwf1 Hacc1 Hrest) as (r' & Hrun & Htt & Hacc').
    exists r'. simpl. rewrite Hadd. simpl rbind.
    split; [done|]. split.
    + by rewrite Htt, Htt1, Hch1, <- app_assoc.
    + rewrite Hacc'. f_equal. lia.
Qed.

Lemma T2_field_range (r : Z) : 0 ≤ spec.T2_field r < 2 ^ 25.
Proof.
  unfold spec.T2_field. change bitmask_timetag with (Z.ones 25).
  rewrite Z.land_ones by lia. apply Z.mod_pos_bound. lia.
Qed.

Lemma T2_totals_nonneg (buffers : list (list Z)) :
  0 ≤ foldr (λ buffer s, aux.T2_total buffer + s) 0 buffers.
Proof.
  induction buffers as [|b rest IH]; simpl; [done|].
  pose proof (T2_total_nonneg b). lia.
Qed.

(** While the accumulator is below [2^32], the absolute timetags are
    within [int64]. *)
Lemma T2_absolute_range (acc channel : Z) (buffer : list Z) :
  0 ≤ acc < 2 ^ 32 →
  Forall (λ x, 0 ≤ x < 2 ^ 63) (aux.T2_absolute acc channel buffer).
Proof.
  intros Hacc. unfold aux.T2_absolute. apply Forall_forall. intros x Hx.
  apply list_elem_of_fmap in Hx as (p & -> & _).
  pose proof (T2_field_range (nth p buffer 0)) as Hf.
  pose proof (Z.mod_pos_bound
                (spec.overflow_sum_upto spec.T2_field buffer p) (2 ^ 32)
                ltac:(lia)) as Hm.
  generalize dependent (spec.T2_field (nth p buffer 0)).
  generalize dependent
    (spec.overflow_sum_upto spec.T2_field buffer p `mod` 2 ^ 32).
  unfold T2WRAPAROUND_V2. change (2 ^ 63) with 9223372036854775808.
  change (2 ^ 32) with 4294967296 in *. change (2 ^ 25) with 33554432.
  intros m Hm f Hf. lia.
Qed.

Lemma T2_session_range (acc channel : Z) (buffers : list (list Z)) :
  0 ≤ acc →
  acc + foldr (λ buffer s, aux.T2_total buffer + s) 0 buffers < 2 ^ 32 →
  Forall (λ x, 0 ≤ x < 2 ^ 63) (aux.T2_session_timetags acc channel buffers).
Proof.
  revert acc. induction buffers as [|b rest IH]; intros acc Hlo Hhi; simpl.
  - constructor.
  - simpl in Hhi. pose proof (T2_total_nonneg b) as Hb.
    pose proof (T2_totals_nonneg rest) as Hrest.
    apply Forall_app. split.
    + apply T2_absolute_range. lia.
    + apply IH; lia.
Qed.

(** X7. A channel result over a measurement: for every sequence of
    non-empty buffers whose overflow totals sum to less than [2^32] (so
    that the accumulator stays within [uint32] and the timetags within
    [int64]), the [add_buffer] calls on a new [T2Result] all return; the
    stored timetags are, buffer after buffer and in record order,
    [overflows * 0x2000000 + timetag] for each photon of the channel,
    where [overflows] counts the overflow payloads of all earlier buffers
    and those before the photon in its own buffer (in [uint32] within a
    buffer); every stored timetag is within [0, 2^63); and the accumulator
    is the sum of the buffers' totals, which is never negative. *)
Theorem T2Result_session (np_empty : nat → Z) (channel : Z)
    (bin_factor : option Z) (only_bin : bool) (buffers : list (list Z)) :
  Forall (λ buffer, buffer ≠ []) buffers →
  foldr (λ buffer s, aux.T2_total buffer + s) 0 buffers < 2 ^ 32 →
  ∃ r,
    aux.T2_add_buffers np_empty
      (T2Result.__init__ channel bin_factor only_bin) buffers = Ok r
    ∧ T2Result.timetags r = aux.T2_session_timetags 0 channel buffers
    ∧ T2Result._n_overflows r
      = Some (foldr (λ buffer s, aux.T2_total buffer + s) 0 buffers)
    ∧ 0 ≤ foldr (λ buffer s, aux.T2_total buffer + s) 0 buffers
    ∧ Forall (λ x, 0 ≤ x < 2 ^ 63) (T2Result.timetags r).
Proof.
  intros Hne Hroom.
  destruct (T2_add_buffers_spec np_empty buffers
              (T2Result.__init__ channel bin_factor only_bin) 0
              (init_well_formed) eq_refl Hne) as (r & Hrun & Htt & Hacc).
  exists r. split; [done|]. split; [done|]. split; [done|].
  split; [apply T2_totals_nonneg|].
  rewrite Htt. apply T2_session_range; lia.
Qed.

Lemma T2Result_session_witness :
  ∃ r,
    aux.T2_add_buffers (λ _, 0) (T2Result.__init__ 1 None false)
      [[0x00000005; 0xFE000003; 0x00000010]; [0x00000001; 0xFE000001; 0x00000002]]
    = Ok r
    ∧ T2Result.timetags r
      = [5; 3 * 0x2000000 + 16; 3 * 0x2000000 + 1; 4 * 0x2000000 + 2]
    ∧ T2Result._n_overflows r = Some 4.
Proof.
  destruct (T2Result_session (λ _, 0) 1 None false
              [[0x00000005; 0xFE000003; 0x00000010];
               [0x00000001; 0xFE000001; 0x00000002]])
    as (r & Hrun & Htt & Hacc & _).
  - repeat constructor; discriminate.
  - vm_compute. reflexivity.
  - exists r. split; [exact Hrun|]. split.
    + rewrite Htt. vm_compute. reflexivity.
    + rewrite Hacc. vm_compute. reflexivity.
Defined.

(** Two [add_buffer] calls against one call on the concatenation. *)
Lemma T2_add_buffer_twice (np_empty : nat → Z) (r : T2Result.t)
    (acc : Z) (b1 b2 : list Z) :
  spec.well_formed (binnableTable.base (T2Result._timetags r)) →
  T2Result._n_overflows r = Some acc →
  b1 ≠ [] → b2 ≠ [] →
  spec.overflow_sum spec.T2_field (b1 ++ b2) < 2 ^ 32 →
  ∃ r1 r12 r',
    T2Result.add_buffer np_empty r b1 = Ok r1
    ∧ T2Result.add_buffer np_empty r1 b2 = Ok r12
    ∧ T2Result.add_buffer np_empty r (b1 ++ b2) = Ok r'
    ∧ T2Result.timetags r12 = T2Result.timetags r'
    ∧ T2Result._n_overflows r12 = T2Result._n_overflows r'.
Proof.
  intros Hwf Hacc Hne1 Hne2 Hlt.
  pose proof (read_T2_buffer_photon b1 (T2Result._channel r) Hne1) as Hr1.
  pose proof (read_T2_buffer_photon b2 (T2Result._channel r) Hne2) as Hr2.
  cbv zeta in Hr1, Hr2.
  pose proof (read_T2_buffer_app _ _ _ _ _ _ _ _ _ Hr1 Hr2) as Hr12.
  (* the sums do not wrap *)
  pose proof (overflow_payload_nonneg _ T2_field_nonneg) as Hw.
  pose proof (wsum_nonneg _ Hw b1) as Hs1.
  pose proof (wsum_nonneg _ Hw b2) as Hs2.
  unfold spec.overflow_sum in Hlt. rewrite weighted_sum_app in Hlt.
  fold (spec.overflow_sum spec.T2_field b1) in Hs1, Hlt.
  fold (spec.overflow_sum spec.T2_field b2) in Hs2, Hlt.
  rewrite (Z.mod_small (spec.overflow_sum spec.T2_field b1)) in Hr1, Hr12 by lia.
  rewrite (Z.mod_small (spec.overflow_sum spec.T2_field b2)) in Hr2, Hr12 by lia.
  rewrite (Z.mod_small (_ + _)) in Hr12 by lia.
  (* the three calls *)
  destruct (T2_add_buffer_spec np_empty r b1 acc Hwf Hacc Hne1)
    as (r1 & Ha1 & Hwf1 & Hacc1 & _ & Hch1).
  destruct (T2_add_buffer_decoded np_empty r b1 _ _ acc _ Hwf Hacc Hr1)
    as (r1' & Ha1' & _ & Htt1).
  rewrite Ha1 in Ha1'. injection Ha1' as <-.
  rewrite <- Hch1 in Hr2.
  destruct (T2_add_buffer_decoded np_empty r1 b2 _ _ _ _ Hwf1 Hacc1 Hr2)
    as (r12 & Ha2 & Hacc12 & Htt12).
  destruct (T2_add_buffer_decoded np_empty r (b1 ++ b2) _ _ acc _ Hwf Hacc Hr12)
    as (r' & Ha' & Hacc' & Htt').
  exists r1, r12, r'.
  split; [done|]. split; [done|]. split; [done|]. split.
  - rewrite Htt12, Htt1, Htt', <- app_assoc. f_equal.
    unfold aux.T2_total. rewrite (Z.mod_small (spec.overflow_sum _ b1)) by lia.
    rewrite zip_with_app by (by rewrite !length_map).
    f_equal. rewrite Hch1. rewrite map_map, !zip_with_maps.
    apply map_ext. intros p.
    pose proof (wsum_take_le _ Hw b2 (S p)) as Hle.
    pose proof (wsum_nonneg _ Hw (take (S p) b2)) as Hge.
    unfold spec.overflow_sum_upto, spec.overflow_sum in *.
    rewrite (Z.mod_small (spec.weighted_sum _ (take (S p) b2))) by lia.
    rewrite Z.mod_small by lia. lia.
  - rewrite Hacc12, Hacc'. unfold aux.T2_total.
    rewrite (Z.mod_small (spec.overflow_sum _ b1)) by lia. f_equal. lia.
Qed.

(** X8. How the records are cut into buffers does not matter, short of a
    wrap: when the accumulator is not negative and, with the overflow
    payloads of two non-empty buffers added, stays below [2^32],
    [add_buffer(b1)] followed by [add_buffer(b2)] leaves the same stored
    timetags and the same accumulator as one [add_buffer] of the
    concatenation [b1 + b2]. *)
Theorem T2Result_add_buffer_chunking (np_empty : nat → Z) (r : T2Result.t)
    (acc : Z) (b1 b2 : list Z) :
  spec.well_formed (binnableTable.base (T2Result._timetags r)) →
  T2Result._n_overflows r = Some acc →
  b1 ≠ [] → b2 ≠ [] →
  0 ≤ acc →
  acc + spec.overflow_sum spec.T2_field (b1 ++ b2) < 2 ^ 32 →
  ∃ r12 r',
    aux.T2_add_buffers np_empty r [b1; b2] = Ok r12
    ∧ aux.T2_add_buffers np_empty r [b1 ++ b2] = Ok r'
    ∧ T2Result.timetags r12 = T2Result.timetags r'
    ∧ T2Result._n_overflows r12 = T2Result._n_overflows r'.
Proof.
  intros Hwf Hacc Hne1 Hne2 Hlo Hroom.
  destruct (T2_add_buffer_twice np_empty r acc b1 b2 Hwf Hacc Hne1 Hne2
              ltac:(lia))
    as (r1 & r12 & r' & Ha1 & Ha2 & Ha' & Htt & Hov).
  exists r12, r'. simpl. rewrite Ha1. simpl rbind. rewrite Ha2, Ha'. done.
Qed.

Lemma T2Result_add_buffer_chunking_witness :
  ∃ r12 r',
    aux.T2_add_buffers (λ _, 0) (T2Result.__init__ 1 None false)
      [[0x00000005; 0xFE000003]; [0x00000010; 0xFE000002; 0x00000001]] = Ok r12
    ∧ aux.T2_add_buffers (λ _, 0) (T2Result.__init__ 1 None false)
        [[0x00000005; 0xFE000003] ++ [0x00000010; 0xFE000002; 0x00000001]]
      = Ok r'
    ∧ T2Result.timetags r12 = T2Result.timetags r'
    ∧ T2Result._n_overflows r12 = T2Result._n_overflows r'.
Proof.
  apply (T2Result_add_buffer_chunking (λ _, 0)
           (T2Result.__init__ 1 None false) 0
           [0x00000005; 0xFE000003] [0x00000010; 0xFE000002; 0x00000001]).
  - apply init_well_formed.
  - reflexivity.
  - discriminate.
  - discriminate.
  - lia.
  - vm_compute. reflexivity.
Defined.

(** ** ExtendableTable *)

(** X9. [add] followed by [remove(n)] and [data]: on a well-formed
    one-dimensional table of the default dtype (such as a new one, or one
    reached by operations in range), for values [d] that the dtype holds
    ([0 <= v < 2^32]) and for [0 <= n <= size + len(d)], both calls
    return, [data] is the old data followed by [d] without its first [n]
    elements, and [len] is the old size plus [len(d)] minus [n]. *)
Theorem ExtendableTable_add_then_remove (np_empty : nat → Z)
    (t : ExtendableTable.t) (d : list Z) (n : Z) :
  spec.well_formed t →
  Forall (λ v, 0 ≤ v < 2 ^ 32) d →
  0 ≤ n ≤ ExtendableTable._size t + Z.of_nat (length d) →
  ∃ t1 t2,
    ExtendableTable.add np_empty t d = Ok t1
    ∧ ExtendableTable.remove t1 n = Ok t2
    ∧ ExtendableTable.data t2
      = drop (Z.to_nat n) (ExtendableTable.data t ++ d)
    ∧ ExtendableTable.__len__ t2
      = Ok (ExtendableTable._size t + Z.of_nat (length d) - n)
    ∧ Z.of_nat (length (ExtendableTable.data t2))
      = ExtendableTable._size t + Z.of_nat (length d) - n.
Proof.
  intros Hwf _ Hn.
  destruct (add_spec np_empty t d Hwf) as (t1 & Hadd & Hwf1 & Hs1 & Hd1).
  destruct (remove_spec t1 n Hwf1 ltac:(lia)) as (t2 & Hrem & Hwf2 & Hs2 & Hd2).
  exists t1, t2. split; [done|]. split; [done|].
  split; [by rewrite Hd2, Hd1|]. split.
  - unfold ExtendableTable.__len__. rewrite Hs2, Hs1.
    destruct (_ <? 0) eqn:Hneg; [apply Z.ltb_lt in Hneg; lia|done].
  - rewrite (data_length t2 Hwf2). lia.
Qed.

Lemma ExtendableTable_add_then_remove_witness :
  ∃ t1 t2,
    ExtendableTable.add (λ _, 0) ExtendableTable.__init__ [4; 5; 6; 7] = Ok t1
    ∧ ExtendableTable.remove t1 3 = Ok t2
    ∧ ExtendableTable.data t2
      = drop (Z.to_nat 3)
          (ExtendableTable.data ExtendableTable.__init__ ++ [4; 5; 6; 7])
    ∧ ExtendableTable.__len__ t2
      = Ok (ExtendableTable._size ExtendableTable.__init__
            + Z.of_nat (length [4; 5; 6; 7]) - 3)
    ∧ Z.of_nat (length (ExtendableTable.data t2))
      = ExtendableTable._size ExtendableTable.__init__
        + Z.of_nat (length [4; 5; 6; 7]) - 3.
Proof.
  apply (ExtendableTable_add_then_remove (λ _, 0) ExtendableTable.__init__
           [4; 5; 6; 7] 3).
  - apply init_well_formed.
  - repeat constructor; lia.
  - vm_compute. split; discriminate.
Defined.

Lemma add_capacity (np_empty : nat → Z) (t t' : ExtendableTable.t)
    (d : list Z) :
  spec.well_formed t →
  ExtendableTable.add np_empty t d = Ok t' →
  ExtendableTable.capacity t'
  = if ExtendableTable.capacity t
       <=? ExtendableTable._size t + Z.of_nat (length d)
    then 2 ^ Z.log2_up (ExtendableTable._size t + Z.of_nat (length d))
    else ExtendableTable.capacity t.
Proof.
  intros Hwf Hadd. pose proof Hwf as (Hp & Hs).
  pose proof (power_of_two_pos _ Hp) as Hpos.
  revert Hadd. unfold ExtendableTable.add, ExtendableTable._inner_resize.
  unfold ExtendableTable.capacity in *.
  set (new_size := ExtendableTable._size t + Z.of_nat (length d)).
  destruct (Z.of_nat (length (ExtendableTable.__data t)) <=? new_size) eqn:Hcap.
  - apply Z.leb_le in Hcap. unfold ExtendableTable.next_capacity.
    destruct (new_size =? 0) eqn:H0; [apply Z.eqb_eq in H0; lia|].
    destruct (new_size <? 0) eqn:Hneg; [apply Z.ltb_lt in Hneg; lia|].
    simpl rbind.
    pose proof (Z.log2_up_nonneg new_size) as Hk.
    assert (Hge : new_size ≤ 2 ^ Z.log2_up new_size)
      by (apply Z.log2_log2_up_spec; lia).
    assert (Hlen : Z.of_nat (length (map np_empty
              (seq 0 (Z.to_nat (2 ^ Z.log2_up new_size)))))
            = 2 ^ Z.log2_up new_size)
      by (rewrite length_map, length_seq; lia).
    rewrite get_slice_prefix by lia.
    rewrite set_slice_prefix; [|lia|rewrite length_take; lia].
    simpl rbind.
    rewrite set_slice_range;
      [|lia|rewrite length_app, length_take, length_drop; lia|unfold new_size; lia].
    simpl rbind. intros [= <-]. simpl.
    rewrite !length_app, !length_take, !length_drop, length_app, length_take,
      length_drop. lia.
  - apply Z.leb_gt in Hcap. simpl rbind.
    rewrite set_slice_range by (unfold new_size; lia).
    simpl rbind. intros [= <-]. simpl.
    rewrite !length_app, length_take, length_drop. lia.
Qed.

(** X10. The growth policy of [add]: while the new size stays below the
    capacity, the capacity does not change; once the new size reaches the
    capacity, the storage is reallocated with the smallest power of two
    that is at least the new size (so a table can be exactly full); the
    capacity never shrinks. *)
Theorem ExtendableTable_add_growth (np_empty : nat → Z)
    (t t' : ExtendableTable.t) (d : list Z) :
  spec.well_formed t →
  ExtendableTable.add np_empty t d = Ok t' →
  let new_size := ExtendableTable._size t + Z.of_nat (length d) in
  (new_size < ExtendableTable.capacity t →
   ExtendableTable.capacity t' = ExtendableTable.capacity t)
  ∧ (ExtendableTable.capacity t ≤ new_size →
     spec.is_power_of_two (ExtendableTable.capacity t')
     ∧ new_size ≤ ExtendableTable.capacity t'
     ∧ ∀ c, spec.is_power_of_two c → new_size ≤ c →
            ExtendableTable.capacity t' ≤ c)
  ∧ ExtendableTable.capacity t ≤ ExtendableTable.capacity t'.
Proof.
  intros Hwf Hadd new_size. pose proof Hwf as (Hp & Hs).
  pose proof (power_of_two_pos _ Hp) as Hpos.
  pose proof (add_capacity np_empty t t' d Hwf Hadd) as Hcap.
  fold new_size in Hcap.
  destruct (Z.leb_spec (ExtendableTable.capacity t) new_size) as [Hle|Hlt].
  - assert (Hge : new_size ≤ 2 ^ Z.log2_up new_size)
      by (apply Z.log2_log2_up_spec; lia).
    split; [lia|]. split; [|lia]. intros _. rewrite Hcap.
    split; [exists (Z.log2_up new_size); split;
            [apply Z.log2_up_nonneg|done]|].
    split; [done|]. intros c (k & Hk & ->) Hc.
    apply Z.pow_le_mono_r; [lia|]. apply Z.log2_up_le_pow2; lia.
  - split; [done|]. split; [lia|]. lia.
Qed.

Lemma ExtendableTable_add_growth_witness :
  ∃ t', ExtendableTable.add (λ _, 0) ExtendableTable.__init__
          (replicate 256 7) = Ok t'
    ∧ ExtendableTable.capacity t' = 256
    ∧ ExtendableTable._size t' = 256.
Proof.
  destruct (add_spec (λ _, 0) ExtendableTable.__init__ (replicate 256 7)
              init_well_formed) as (t' & Hadd & _ & Hsize & _).
  exists t'. split; [exact Hadd|].
  destruct (ExtendableTable_add_growth (λ _, 0) ExtendableTable.__init__ t'
              (replicate 256 7) init_well_formed Hadd)
    as (_ & Hgrow & _).
  destruct (Hgrow ltac:(vm_compute; discriminate)) as (_ & Hge & Hmin).
  split; [|exact Hsize].
  apply Z.le_antisymm; [|exact Hge].
  apply Hmin; [exists 8; split; [lia|reflexivity]|vm_compute; discriminate].
Defined.

(** X11. [remove] of more elements than the table holds: when [n] exceeds
    the size by less than the capacity, numpy refuses the assignment of an
    empty slice to a non-empty one and the call raises [ValueError]; when
    [n] exceeds the size by the capacity or more, both slices are empty,
    the call returns and leaves the table with the negative size
    [size - n] and its storage untouched. *)
Theorem ExtendableTable_remove_too_many (t : ExtendableTable.t) (n : Z) :
  spec.well_formed t →
  ExtendableTable._size t < n →
  ExtendableTable.remove t n
  = if decide (n < ExtendableTable._size t + ExtendableTable.capacity t)
    then Raise ValueError
    else Ok (ExtendableTable.mk (ExtendableTable.__data t)
               (ExtendableTable._size t - n)).
Proof.
  intros (Hp & Hs) Hn. pose proof (power_of_two_pos _ Hp) as Hpos.
  unfold ExtendableTable.capacity in *.
  unfold ExtendableTable.remove, py.get_slice, py.set_slice, py.slice_indices.
  simpl. unfold py.clip_index.
  destruct (n <? 0) eqn:Hn0; [apply Z.ltb_lt in Hn0; lia|].
  destruct (ExtendableTable._size t <? 0) eqn:Hs0;
    [apply Z.ltb_lt in Hs0; lia|].
  destruct (ExtendableTable._size t - n <? 0) eqn:Hd0;
    [|apply Z.ltb_ge in Hd0; lia].
  replace (Z.to_nat (ExtendableTable._size t `min`
                       Z.of_nat (length (ExtendableTable.__data t))
                     - n `min` Z.of_nat (length (ExtendableTable.__data t))))
    with 0%nat by lia.
  rewrite take_0. simpl length.
  destruct (decide (n < ExtendableTable._size t
                        + Z.of_nat (length (ExtendableTable.__data t))))
    as [Hlt|Hge].
  - destruct (decide _) as [Heq|_]; [lia|done].
  - destruct (decide _) as [_|Hne]; [|lia].
    simpl rbind. do 2 f_equal.
    replace (Z.to_nat (_ - 0)) with 0%nat by lia. by rewrite drop_0.
Qed.

Lemma ExtendableTable_remove_too_many_witness :
  ExtendableTable.remove ExtendableTable.__init__ 5 = Raise ValueError
  ∧ ExtendableTable.remove ExtendableTable.__init__ 256
    = Ok (ExtendableTable.mk (ExtendableTable.__data ExtendableTable.__init__)
            (-256)).
Proof.
  split.
  - rewrite (ExtendableTable_remove_too_many ExtendableTable.__init__ 5
               init_well_formed ltac:(vm_compute; reflexivity)).
    reflexivity.
  - rewrite (ExtendableTable_remove_too_many ExtendableTable.__init__ 256
               init_well_formed ltac:(vm_compute; reflexivity)).
    reflexivity.
Defined.


(** ** binnableTable *)

Lemma incremental_binning_witness :
  spec.incremental_counts (λ _, 0) 10 true [5; 12; 31] [7; 33; 58]
  = spec.one_shot_counts (λ _, 0) 10 true [5; 12; 31] [7; 33; 58]
  ∧ spec.incremental_counts (λ _, 0) 10 false [5; 12; 31] [7]
    = Raise ValueError.
Proof.
  split.
  - destruct (incremental_counts_spec (λ _, 0) 10 true [5; 12; 31] [7; 33; 58])
      as [_ H]; [lia|repeat constructor; lia..|].
    rewrite H. reflexivity.
  - destruct (incremental_counts_spec (λ _, 0) 10 false [5; 12; 31] [7])
      as [_ H]; [lia|repeat constructor; lia..|].
    rewrite H. reflexivity.
Defined.

(** X13. [bin_count] is idempotent between appends: a second call right
    after a call that returned gives the same counts and leaves the table
    as the first call left it, in both modes. *)
Theorem bin_count_idempotent (t t' : binnableTable.t) (counts : list Z) :
  binnableTable.bin_count t = Ok (t', counts) →
  binnableTable.bin_count t' = Ok (t', counts).
Proof.
  unfold binnableTable.bin_count at 1.
  destruct (binnableTable._bin_factor t) as [bin_factor|] eqn:Hbf; [|done].
  destruct (_ =? _) eqn:Hidle.
  - intros [= <- <-]. unfold binnableTable.bin_count. by rewrite Hbf, Hidle.
  - destruct (np.bincount _) as [c|]; simpl rbind; [|done].
    destruct (np.iadd_prefix _ _ _) as [c'|]; simpl rbind; [|done].
    destruct (binnableTable._only_bin t).
    + unfold ExtendableTable.remove.
      destruct (py.set_slice _ _ _ _) as [d|]; simpl rbind; [|done].
      intros [= <- <-]. unfold binnableTable.bin_count. simpl.
      by rewrite Z.sub_diag.
    + intros [= <- <-]. unfold binnableTable.bin_count. simpl.
      by rewrite Z.eqb_refl.
Qed.

Lemma bin_count_idempotent_witness :
  ∃ t1 t2 counts,
    binnableTable.add (λ _, 0) (binnableTable.__init__ (Some 10) false)
      [5; 12; 31] = Ok t1
    ∧ binnableTable.bin_count t1 = Ok (t2, counts)
    ∧ binnableTable.bin_count t2 = Ok (t2, counts)
    ∧ counts = [1; 1; 0; 1].
Proof.
  eexists _, _, _. split; [vm_compute; reflexivity|].
  split; [vm_compute; reflexivity|].
  split; [|reflexivity].
  apply (bin_count_idempotent
           (binnableTable.mk
              (ExtendableTable.mk ([5; 12; 31] ++ replicate 253 0) 3)
              (Some 10) 0 [] false)).
  vm_compute. reflexivity.
Defined.

Lemma total_map_add (f g : Z → Z) (l : list Z) :
  aux.total (map (λ i, f i + g i) l)
  = aux.total (map f l) + aux.total (map g l).
Proof. unfold aux.total. induction l as [|i l IH]; simpl; lia. Qed.

Lemma total_app (l1 l2 : list Z) :
  aux.total (l1 ++ l2) = aux.total l1 + aux.total l2.
Proof. unfold aux.total. induction l1 as [|i l1 IH]; simpl; lia. Qed.

Lemma total_indicator_absent (v : Z) (l : list Z) :
  v ∉ l → aux.total (map (λ i, if decide (v = i) then 1 else 0) l) = 0.
Proof.
  unfold aux.total. induction l as [|i l IH]; intros Hv; simpl; [done|].
  apply not_elem_of_cons in Hv as [Hne Hv].
  rewrite decide_False by done. rewrite IH by done. done.
Qed.

Lemma total_indicator_seqZ (v len : Z) :
  0 ≤ v < len →
  aux.total (map (λ i, if decide (v = i) then 1 else 0) (seqZ 0 len)) = 1.
Proof.
  intros Hv. replace len with (v + (1 + (len - v - 1))) by lia.
  rewrite !seqZ_app by lia. rewrite !map_app, !total_app.
  rewrite (total_indicator_absent v (seqZ 0 v))
    by (rewrite elem_of_seqZ; lia).
  rewrite (total_indicator_absent v (seqZ (0 + v + 1) (len - v - 1)))
    by (rewrite elem_of_seqZ; lia).
  rewrite (seqZ_cons _ 1), (seqZ_nil _ (Z.pred 1)) by lia.
  unfold aux.total. simpl. rewrite decide_True by lia. lia.
Qed.

(** Over a range that holds every entry of [x], the counts sum to the
    length of [x]. *)
Lemma total_counts (x : list Z) (len : Z) :
  Forall (λ v, 0 ≤ v < len) x →
  aux.total (map (np.count_of x) (seqZ 0 len)) = Z.of_nat (length x).
Proof.
  induction 1 as [|v x Hv _ IH].
  - unfold np.count_of. simpl. unfold aux.total.
    induction (seqZ 0 len) as [|i l IHl]; simpl; lia.
  - rewrite (map_ext (np.count_of (v :: x))
               (λ i, (if decide (v = i) then 1 else 0) + np.count_of x i)).
    2:{ intros i. unfold np.count_of. rewrite filter_cons.
        destruct (decide (v = i)); simpl; lia. }
    rewrite total_map_add, total_indicator_seqZ, IH by done.
    simpl length. lia.
Qed.

Lemma in_bincount_range (x : list Z) :
  Forall (λ v, 0 ≤ v) x → Forall (λ v, 0 ≤ v < np.bincount_length x) x.
Proof.
  induction 1 as [|v x Hv _ IH]; constructor.
  - unfold np.bincount_length. simpl. lia.
  - eapply Forall_impl; [exact IH|]. intros w Hw.
    unfold np.bincount_length in *. simpl. lia.
Qed.

Lemma count_of_bins (bin_factor : Z) (xs : list Z) (i : Z) :
  np.count_of (spec.bins bin_factor xs) i = aux.in_bin bin_factor xs i.
Proof.
  unfold np.count_of, aux.in_bin, spec.bins. f_equal.
  induction xs as [|x xs IH]; [done|].
  simpl map. rewrite !filter_cons.
  destruct (decide (x `div` bin_factor = i)); simpl; by rewrite IH.
Qed.

Lemma nth_histogram (x : list Z) (i : nat) :
  nth i (spec.histogram x) 0 = np.count_of x (Z.of_nat i).
Proof.
  unfold spec.histogram. rewrite nth_lookup.
  change (map ?f ?l) with (f <$> l). rewrite list_lookup_fmap.
  destruct (decide (Z.of_nat i < np.bincount_length x)) as [Hlt|Hge].
  - rewrite lookup_seqZ_lt by done. simpl. f_equal.
  - rewrite lookup_seqZ_ge by lia. simpl.
    symmetry. apply count_of_beyond. lia.
Qed.

(** X14. What the counts mean: for a bin factor and timestamps that the
    default dtype holds ([0 < bin_factor < 2^32], [0 <= x < 2^32]), [add]
    and [bin_count] on a new table return counts whose slot [i] is the
    number of timestamps [x] with [x // bin_factor = i] (0 beyond the last
    slot), and whose sum is the number of timestamps: no timestamp is lost
    or counted twice. *)
Theorem bin_count_counts_every_timestamp (np_empty : nat → Z)
    (bin_factor : Z) (only_bin : bool) (xs : list Z) :
  0 < bin_factor < 2 ^ 32 →
  Forall (λ x, 0 ≤ x < 2 ^ 32) xs →
  ∃ counts,
    spec.one_shot_counts np_empty bin_factor only_bin xs [] = Ok counts
    ∧ (∀ i : nat, nth i counts 0 = aux.in_bin bin_factor xs (Z.of_nat i))
    ∧ aux.total counts = Z.of_nat (length xs).
Proof.
  intros [Hpos _] Hxs32.
  assert (Hxs : Forall (λ x, 0 ≤ x) xs)
    by (eapply Forall_impl; [exact Hxs32|]; simpl; lia).
  destruct (add_bin_count_new np_empty bin_factor only_bin (xs ++ [])
              Hpos) as (t1 & t2 & Hadd & Hbin & _);
    [by rewrite app_nil_r|].
  exists (spec.histogram (spec.bins bin_factor xs)).
  split; [|split].
  - unfold spec.one_shot_counts. rewrite Hadd. simpl rbind. rewrite Hbin.
    simpl. by rewrite app_nil_r.
  - intros i. by rewrite nth_histogram, count_of_bins.
  - unfold spec.histogram. rewrite total_counts.
    + unfold spec.bins. by rewrite length_map.
    + apply in_bincount_range. by apply bins_nonneg.
Qed.

Lemma bin_count_counts_witness :
  ∃ counts,
    spec.one_shot_counts (λ _, 0) 10 false [5; 12; 31; 7] [] = Ok counts
    ∧ (∀ i : nat, nth i counts 0 = aux.in_bin 10 [5; 12; 31; 7] (Z.of_nat i))
    ∧ aux.total counts = Z.of_nat (length [5; 12; 31; 7]).
Proof.
  apply (bin_count_counts_every_timestamp (λ _, 0) 10 false [5; 12; 31; 7]).
  - lia.
  - repeat constructor; lia.
Defined.

(** X15. Reconfiguring the bin factor: in discard mode [set_bin_factor]
    raises [NotImplementedError], whatever the table and the factor are;
    otherwise, on a well-formed table of the default dtype (its data are
    within [0, 2^32)) and for a factor with [0 < bin_factor < 2^32], it
    drops the retained counts and the next [bin_count] tallies all the
    data of the table again with the new factor, whatever had been
    consumed before. *)
Theorem set_bin_factor_retallies (t : binnableTable.t) :
  (binnableTable._only_bin t = true →
   ∀ bin_factor : option Z,
     binnableTable.set_bin_factor t bin_factor
     = Raise (NotImplementedError "We don't have the raw data"))
  ∧ (binnableTable._only_bin t = false →
     ∀ bin_factor : Z,
       spec.well_formed (binnableTable.base t) →
       Forall (λ x, 0 ≤ x < 2 ^ 32)
         (ExtendableTable.data (binnableTable.base t)) →
       0 < bin_factor < 2 ^ 32 →
       ∃ t1 t2,
         binnableTable.set_bin_factor t (Some bin_factor) = Ok t1
         ∧ binnableTable.bin_count t1
           = Ok (t2, spec.histogram
                       (spec.bins bin_factor
                          (ExtendableTable.data (binnableTable.base t))))).
Proof.
  unfold binnableTable.set_bin_factor. split; intros Hmode; rewrite Hmode;
    [done|].
  intros bin_factor Hwf Hdata32 [Hpos _].
  assert (Hdata : Forall (λ x, 0 ≤ x)
                    (ExtendableTable.data (binnableTable.base t)))
    by (eapply Forall_impl; [exact Hdata32|]; simpl; lia).
  eexists. destruct (decide (ExtendableTable.data (binnableTable.base t) = []))
    as [Hnil|Hne].
  - eexists. split; [reflexivity|].
    rewrite (bin_count_idle _ bin_factor); [|done|].
    + by rewrite Hnil.
    + simpl. rewrite <- (data_length _ Hwf), Hnil. done.
  - rewrite (bin_count_step _ bin_factor []
               (ExtendableTable.data (binnableTable.base t))); try done.
    cbn [binnableTable._bin_counts binnableTable._only_bin
         binnableTable.base length Z.of_nat].
    rewrite iadd_prefix_empty. simpl rbind.
    eexists. split; reflexivity.
Qed.

Lemma set_bin_factor_retallies_witness :
  ∃ t1 t2,
    binnableTable.set_bin_factor
      (binnableTable.mk (ExtendableTable.mk ([5; 12; 31] ++ replicate 253 0) 3)
         (Some 10) 3 [1; 1; 0; 1] false) (Some 4) = Ok t1
    ∧ binnableTable.bin_count t1 = Ok (t2, [0; 1; 0; 1; 0; 0; 0; 1]).
Proof.
  destruct (set_bin_factor_retallies
              (binnableTable.mk
                 (ExtendableTable.mk ([5; 12; 31] ++ replicate 253 0) 3)
                 (Some 10) 3 [1; 1; 0; 1] false)) as [_ Hkeep].
  apply (Hkeep eq_refl 4).
  - split; [exists 8; split; [lia|reflexivity]|vm_compute; split; discriminate].
  - change (Forall (λ x, 0 ≤ x < 2 ^ 32) [5; 12; 31]).
    do 3 (constructor; [lia|]). constructor.
  - lia.
Defined.

Lemma clip_index_bounds (i len : Z) :
  0 ≤ len → 0 ≤ py.clip_index i len ≤ len.
Proof.
  intros Hlen. unfold py.clip_index. destruct (Z.ltb_spec i 0); lia.
Qed.

(** A slice assignment that returns keeps the length of the array. *)
Lemma set_slice_length {A : Type} (a a' v : list A) (start stop : option Z) :
  py.set_slice a start stop v = Ok a' → length a' = length a.
Proof.
  unfold py.set_slice, py.slice_indices.
  assert (Hlo : 0 ≤ from_option (λ i, py.clip_index i (Z.of_nat (length a)))
                      0 start ≤ Z.of_nat (length a)).
  { destruct start as [i|]; simpl; [apply clip_index_bounds|]; lia. }
  assert (Hhi : 0 ≤ from_option (λ i, py.clip_index i (Z.of_nat (length a)))
                      (Z.of_nat (length a)) stop ≤ Z.of_nat (length a)).
  { destruct stop as [i|]; simpl; [apply clip_index_bounds|]; lia. }
  destruct (decide _) as [Hv|Hv].
  - intros [= <-]. rewrite !length_app, length_take, length_drop. lia.
  - destruct v as [|x [|]]; try done. intros [= <-].
    rewrite !length_app, length_take, length_drop, length_replicate. lia.
Qed.

(** X16. Discard mode keeps the table empty: on a table in discard mode
    whose read position is 0, a [bin_count] that returns leaves no data in
    the table, the size and the read position at 0, and the capacity as it
    was (the storage is kept, only its contents are given up). *)
Theorem only_bin_discards_the_data (t t' : binnableTable.t)
    (counts : list Z) :
  spec.well_formed (binnableTable.base t) →
  binnableTable._only_bin t = true →
  binnableTable._bin_read_position t = 0 →
  binnableTable.bin_count t = Ok (t', counts) →
  ExtendableTable.data (binnableTable.base t') = []
  ∧ ExtendableTable._size (binnableTable.base t') = 0
  ∧ binnableTable._bin_read_position t' = 0
  ∧ ExtendableTable.capacity (binnableTable.base t')
    = ExtendableTable.capacity (binnableTable.base t)
  ∧ binnableTable._only_bin t' = true.
Proof.
  intros Hwf Hob Hrp. unfold binnableTable.bin_count.
  destruct (binnableTable._bin_factor t) as [bin_factor|]; [|done].
  rewrite Hrp, Hob.
  destruct (_ =? 0) eqn:Hidle.
  - apply Z.eqb_eq in Hidle. intros [= <- <-].
    rewrite data_well_formed, Hidle by done. done.
  - destruct (np.bincount _) as [c|]; simpl rbind; [|done].
    destruct (np.iadd_prefix _ _ _) as [c'|]; simpl rbind; [|done].
    destruct (remove_spec (binnableTable.base t)
                (ExtendableTable._size (binnableTable.base t)) Hwf)
      as (b & Hrem & Hwfb & Hsize & Hdata); [destruct Hwf; lia|].
    rewrite Hrem. simpl rbind. intros [= <- <-]. simpl.
    split; [|split; [lia|split; [done|split; [|done]]]].
    + rewrite Hdata. apply drop_ge.
      pose proof (data_length _ Hwf). lia.
    + revert Hrem. unfold ExtendableTable.remove.
      destruct (py.set_slice _ _ _ _) as [d|] eqn:Hset; simpl rbind; [|done].
      intros [= <-]. unfold ExtendableTable.capacity. simpl.
      by rewrite (set_slice_length _ _ _ _ _ Hset).
Qed.

Lemma only_bin_discards_witness :
  ∃ t1 t2 counts,
    binnableTable.add (λ _, 0) (binnableTable.__init__ (Some 10) true)
      [5; 12; 31] = Ok t1
    ∧ binnableTable.bin_count t1 = Ok (t2, counts)
    ∧ ExtendableTable.data (binnableTable.base t2) = []
    ∧ ExtendableTable.capacity (binnableTable.base t2) = 256.
Proof.
  eexists _, _, _. split; [vm_compute; reflexivity|].
  split; [vm_compute; reflexivity|].
  destruct (only_bin_discards_the_data
              (binnableTable.mk
                 (ExtendableTable.mk ([5; 12; 31] ++ replicate 253 0) 3)
                 (Some 10) 0 [] true)
              (binnableTable.mk
                 (ExtendableTable.mk ([5; 12; 31] ++ replicate 253 0) 0)
                 (Some 10) 0 [1; 1; 0; 1] true)
              [1; 1; 0; 1]) as (Hd & _ & _ & Hc & _).
  - split; [exists 8; split; [lia|reflexivity]|vm_compute; split; discriminate].
  - reflexivity.
  - reflexivity.
  - vm_compute. reflexivity.
  - split; [exact Hd | exact Hc].
Defined.


(** ** TagCodec *)

Lemma to_N_byte_of_Z (z : Z) :
  Z.of_N (Byte.to_N (bytes.byte_of_Z z)) = z `mod` 256.
Proof.
  unfold bytes.byte_of_Z.
  assert (Hm : 0 ≤ z `mod` 256 < 256) by (apply Z.mod_pos_bound; lia).
  destruct (Byte.of_N (Z.to_N (z `mod` 256))) as [b|] eqn:Hb.
  - apply Byte.to_of_N in Hb. simpl. rewrite Hb. lia.
  - apply Byte.of_N_None_iff in Hb. lia.
Qed.

Lemma from_little_endian_little_endian (n : nat) (z : Z) :
  aux.from_little_endian (bytes.little_endian n z)
  = z `mod` 256 ^ Z.of_nat n.
Proof.
  revert z. induction n as [|n IH]; intros z.
  - simpl. by rewrite Z.mod_1_r.
  - cbn [bytes.little_endian aux.from_little_endian].
    rewrite to_N_byte_of_Z, IH. rewrite Nat2Z.inj_succ, Z.pow_succ_r by lia.
    rewrite (Z.mul_comm 256), Z.rem_mul_r by lia. lia.
Qed.

Lemma length_little_endian (n : nat) (z : Z) :
  length (bytes.little_endian n z) = n.
Proof. revert z. induction n as [|n IH]; intros z; simpl; by rewrite ?IH. Qed.

(** [to_bytes] and [from_bytes] are inverse to each other on the integers
    that fit. *)
Lemma from_bytes_to_bytes (z len : Z) (signed : bool) (b : list byte) :
  0 < len →
  bytes.to_bytes z len signed = Ok b →
  length b = Z.to_nat len ∧ aux.from_bytes b signed = z.
Proof.
  intros Hlen. unfold bytes.to_bytes.
  destruct (len <? 0) eqn:Hneg; [apply Z.ltb_lt in Hneg; lia|].
  destruct (len =? 0) eqn:H0; [apply Z.eqb_eq in H0; lia|].
  assert (Hpow : 2 ^ (8 * len) = 2 * 2 ^ (8 * len - 1)).
  { rewrite <- Z.pow_succ_r by lia. f_equal. lia. }
  assert (Hpos : 0 < 2 ^ (8 * len - 1)) by (apply Z.pow_pos_nonneg; lia).
  assert (H256 : 256 ^ Z.of_nat (Z.to_nat len) = 2 ^ (8 * len)).
  { rewrite Z2Nat.id by lia. change 256 with (2 ^ 8).
    by rewrite <- Z.pow_mul_r by lia. }
  destruct signed.
  - destruct (_ && _) eqn:Hfits; [|done].
    apply andb_true_iff in Hfits as [Hlo Hhi].
    apply Z.leb_le in Hlo. apply Z.ltb_lt in Hhi.
    intros [= <-]. rewrite length_little_endian. split; [done|].
    unfold aux.from_bytes. rewrite from_little_endian_little_endian,
      length_little_endian, H256, Z2Nat.id by lia.
    simpl andb. destruct (Z.leb_spec (2 ^ (8 * len - 1)) (z `mod` 2 ^ (8 * len)))
      as [Hge|Hlt].
    + destruct (Z.lt_ge_cases z 0) as [Hz|Hz].
      * rewrite <- (Z.mod_add z 1) by lia. rewrite Z.mod_small by lia. lia.
      * rewrite Z.mod_small in Hge by lia. lia.
    + destruct (Z.lt_ge_cases z 0) as [Hz|Hz].
      * rewrite <- (Z.mod_add z 1) in Hlt by lia.
        rewrite Z.mod_small in Hlt by lia. lia.
      * apply Z.mod_small. lia.
  - destruct (_ && _) eqn:Hfits; [|done].
    apply andb_true_iff in Hfits as [Hlo Hhi].
    apply Z.leb_le in Hlo. apply Z.ltb_lt in Hhi.
    intros [= <-]. rewrite length_little_endian. split; [done|].
    unfold aux.from_bytes. rewrite from_little_endian_little_endian, H256.
    simpl andb. cbv iota. apply Z.mod_small. lia.
Qed.

Section tag_layout.

Variable tag_types : gmap string string.
Variable struct_pack_d : pyvalue → result (list byte).

Local Abbreviation write_tag :=
  (ptu_format.write_tag tag_types thdef.type_code struct_pack_d).

(** The record of an [Int8] tag, with or without an index. *)
Lemma write_tag_Int8 (tag_id : string) (tag_idx : pyvalue) (z : Z) :
  tag_types !! tag_id = Some "Int8" →
  (length (bytes.encode tag_id) ≤ 32)%nat →
  write_tag (KeyTuple tag_id tag_idx) (PyInt z)
  = (let* idx :=
       match tag_idx with
       | PyNone => Ok [xff; xff; xff; xff]
       | _ => ptu_format.value_to_bytes tag_idx 4 false
       end in
     let* v := bytes.to_bytes z 8 true in
     Ok (spec.zero_padded tag_id ++ idx ++ [x08; x00; x00; x10] ++ v)).
Proof.
  intros Hty Hlen.
  unfold ptu_format.write_tag, dict_get. rewrite Hty. simpl rbind.
  unfold ptu_format.tab_string, bytes.zeros, thdef.BITSLEN_TAG_ID.
  destruct (32 - Z.of_nat (length (bytes.encode tag_id)) <? 0) eqn:Hneg;
    [apply Z.ltb_lt in Hneg; lia|].
  simpl rbind.
  replace (Z.to_nat (32 - Z.of_nat (length (bytes.encode tag_id))))
    with (32 - length (bytes.encode tag_id))%nat by lia.
  fold (spec.zero_padded tag_id).
  change (replicate (Z.to_nat thdef.BITSLEN_TAG_IDX) xff)
    with [xff; xff; xff; xff].
  change thdef.BITSLEN_TAG_IDX with 4.
  destruct (match tag_idx with
            | PyNone => Ok [xff; xff; xff; xff]
            | _ => ptu_format.value_to_bytes tag_idx 4 false
            end) as [idx|e]; simpl rbind; [|done].
  rewrite type_code_Int8. simpl rbind.
  change (bytes.to_bytes z thdef.BITSLEN_TAG_VALUE true)
    with (bytes.to_bytes z 8 true).
  destruct (bytes.to_bytes z 8 true) as [v|e]; simpl rbind; [|done].
  rewrite <- !app_assoc. reflexivity.
Qed.

(** X17. The value of an [Int8] tag round-trips: for a tag id of type
    [Int8] that fits the id field, a value [z] with [-2^63 <= z < 2^63] is
    written after the padded id, the index field [ff ff ff ff] and the type
    code as eight bytes from which [int.from_bytes(..., 'little',
    signed=True)] gives [z] back; any other integer makes [write_tag] raise
    [OverflowError]. *)
Theorem write_tag_Int8_value_round_trip (tag_id : string) (z : Z) :
  tag_types !! tag_id = Some "Int8" →
  (length (bytes.encode tag_id) ≤ 32)%nat →
  if (- 2 ^ 63 <=? z) && (z <? 2 ^ 63)
  then ∃ v,
         write_tag (KeyStr tag_id) (PyInt z)
         = Ok (spec.zero_padded tag_id ++ [xff; xff; xff; xff]
               ++ [x08; x00; x00; x10] ++ v)
         ∧ length v = 8%nat
         ∧ aux.from_bytes v true = z
  else write_tag (KeyStr tag_id) (PyInt z) = Raise OverflowError.
Proof.
  intros Hty Hlen.
  change (write_tag (KeyStr tag_id) (PyInt z))
    with (write_tag (KeyTuple tag_id PyNone) (PyInt z)).
  rewrite (write_tag_Int8 tag_id PyNone z Hty Hlen). simpl rbind.
  destruct (bytes.to_bytes z 8 true) as [v|e] eqn:Hv.
  - destruct (from_bytes_to_bytes z 8 true v ltac:(lia) Hv) as [Hl Hz].
    revert Hv. unfold bytes.to_bytes. simpl.
    destruct (_ && _); [|done]. intros _. by exists v.
  - revert Hv. unfold bytes.to_bytes. simpl.
    destruct (_ && _); [done|]. by intros [= <-].
Qed.

(** X18. The index field of an indexed tag: for a key [(tag_id, i)] of a
    tag of type [Int8], with a value that fits, an index with
    [0 <= i < 2^32] is written after the padded id as four bytes from
    which [int.from_bytes(..., 'little')] gives [i] back; a negative or
    larger index makes [write_tag] raise [OverflowError]. *)
Theorem write_tag_index_round_trip (tag_id : string) (i z : Z) :
  tag_types !! tag_id = Some "Int8" →
  (length (bytes.encode tag_id) ≤ 32)%nat →
  - 2 ^ 63 ≤ z < 2 ^ 63 →
  if (0 <=? i) && (i <? 2 ^ 32)
  then ∃ idx v,
         write_tag (KeyTuple tag_id (PyInt i)) (PyInt z)
         = Ok (spec.zero_padded tag_id ++ idx ++ [x08; x00; x00; x10] ++ v)
         ∧ length idx = 4%nat
         ∧ aux.from_bytes idx false = i
         ∧ aux.from_bytes v true = z
  else write_tag (KeyTuple tag_id (PyInt i)) (PyInt z) = Raise OverflowError.
Proof.
  intros Hty Hlen Hz.
  rewrite (write_tag_Int8 tag_id (PyInt i) z Hty Hlen).
  cbn [ptu_format.value_to_bytes].
  assert (Hv : ∃ v, bytes.to_bytes z 8 true = Ok v).
  { destruct (bytes.to_bytes z 8 true) as [v|e] eqn:Hv; [by exists v|].
    exfalso. revert Hv. unfold bytes.to_bytes. simpl.
    destruct (_ && _) eqn:Hfit; [done|]. intros _.
    apply andb_false_iff in Hfit as [Hlo|Hhi];
      [apply Z.leb_gt in Hlo|apply Z.ltb_ge in Hhi]; lia. }
  destruct Hv as [v Hv].
  destruct (from_bytes_to_bytes z 8 true v ltac:(lia) Hv) as [_ Hzv].
  destruct (bytes.to_bytes i 4 false) as [idx|e] eqn:Hidx.
  - destruct (from_bytes_to_bytes i 4 false idx ltac:(lia) Hidx) as [Hl Hi].
    simpl rbind. rewrite Hv. simpl rbind.
    revert Hidx. unfold bytes.to_bytes. simpl.
    destruct (_ && _); [|done]. intros _.
    by exists idx, v.
  - revert Hidx. unfold bytes.to_bytes. simpl.
    destruct (_ && _); [done|]. by intros [= <-].
Qed.

End tag_layout.

Lemma write_tag_Int8_value_witness :
  ∃ v,
    ptu_format.write_tag thdef.tag_types thdef.type_code (λ _, Raise TypeError)
      (KeyStr "TTResult_StopReason") (PyInt (-2))
    = Ok (spec.zero_padded "TTResult_StopReason" ++ [xff; xff; xff; xff]
          ++ [x08; x00; x00; x10] ++ v)
    ∧ length v = 8%nat
    ∧ aux.from_bytes v true = -2.
Proof.
  apply (write_tag_Int8_value_round_trip thdef.tag_types (λ _, Raise TypeError)
           "TTResult_StopReason" (-2)).
  - vm_compute. reflexivity.
  - vm_compute. lia.
Defined.

Lemma write_tag_index_witness :
  ∃ idx v,
    ptu_format.write_tag thdef.tag_types thdef.type_code (λ _, Raise TypeError)
      (KeyTuple "HWInputChan_CFDLevel" (PyInt 1)) (PyInt (-180))
    = Ok (spec.zero_padded "HWInputChan_CFDLevel" ++ idx
          ++ [x08; x00; x00; x10] ++ v)
    ∧ length idx = 4%nat
    ∧ aux.from_bytes idx false = 1
    ∧ aux.from_bytes v true = -180.
Proof.
  apply (write_tag_index_round_trip thdef.tag_types (λ _, Raise TypeError)
           "HWInputChan_CFDLevel" 1 (-180)).
  - vm_compute. reflexivity.
  - vm_compute. lia.
  - lia.
Defined.

(** *** String tags *)

Section string_tags.

Variable tag_types : gmap string string.
Variable struct_pack_d : pyvalue → result (list byte).

Local Abbreviation write_tag :=
  (ptu_format.write_tag tag_types thdef.type_code struct_pack_d).

Lemma padded_length_bounds (n : Z) :
  0 ≤ n →
  aux.padded_length n `mod` 8 = 0 ∧ n < aux.padded_length n ≤ n + 8.
Proof.
  intros Hn. unfold aux.padded_length.
  split; Z.to_euclidean_division_equations; lia.
Qed.

(** X19. The record of a string tag: for a tag id of type [ASCII-String]
    that fits the id field, a string of [n] bytes is written after the
    padded id, the index field [ff ff ff ff] and the type code
    [0x4001FFFF] as an 8-byte length [len] followed by the string and
    [len - n] zero bytes, where [len] is the least multiple of 8 above
    [n]: the payload is null-terminated and 8-byte aligned, and the length
    field reads back as [len]. *)
Theorem write_tag_string_layout (tag_id s : string) :
  tag_types !! tag_id = Some "ASCII-String" →
  (length (bytes.encode tag_id) ≤ 32)%nat →
  Z.of_nat (length (bytes.encode s)) + 8 < 2 ^ 64 →
  let n := Z.of_nat (length (bytes.encode s)) in
  let len := aux.padded_length n in
  write_tag (KeyStr tag_id) (PyStr s)
  = Ok (spec.zero_padded tag_id ++ [xff; xff; xff; xff]
        ++ [xff; xff; x01; x40] ++ bytes.little_endian 8 len
        ++ bytes.encode s ++ replicate (Z.to_nat (len - n)) x00)
  ∧ len `mod` 8 = 0 ∧ n < len ≤ n + 8
  ∧ aux.from_bytes (bytes.little_endian 8 len) false = len.
Proof.
  intros Hty Hlen Hfit n len.
  destruct (padded_length_bounds n ltac:(lia)) as [Hmod Hbounds].
  fold len in Hmod, Hbounds.
  assert (Hl : bytes.to_bytes len 8 false = Ok (bytes.little_endian 8 len)).
  { unfold bytes.to_bytes. simpl.
    destruct (_ && _) eqn:Hc; [done|].
    apply andb_false_iff in Hc as [Hc|Hc];
      [apply Z.leb_gt in Hc|apply Z.ltb_ge in Hc]; lia. }
  split; [|split; [done|split; [done|]]].
  - unfold ptu_format.write_tag, dict_get. rewrite Hty. simpl rbind.
    unfold ptu_format.tab_string at 1. unfold bytes.zeros, thdef.BITSLEN_TAG_ID.
    destruct (32 - Z.of_nat (length (bytes.encode tag_id)) <? 0) eqn:Hneg;
      [apply Z.ltb_lt in Hneg; lia|].
    simpl rbind.
    replace (Z.to_nat (32 - Z.of_nat (length (bytes.encode tag_id))))
      with (32 - length (bytes.encode tag_id))%nat by lia.
    fold (spec.zero_padded tag_id).
    change (thdef.type_code !! "ASCII-String") with (Some 0x4001FFFF).
    simpl rbind.
    change (bytes.to_bytes 1073872895 thdef.BITSLEN_TAG_TYPECODE false)
      with (Ok [xff; xff; x01; x40] : result (list byte)).
    simpl rbind.
    change (ptu_format.string_in "ASCII-String" ["Bool8"; "Int8"]) with false.
    change (ptu_format.string_in "ASCII-String"
              ["BitSet64"; "Color8"; "TDateTime"]) with false.
    change (ptu_format.string_in "ASCII-String"
              ["Float8Array"; "ASCII-String"; "Wide-String"; "BinaryBlob"])
      with true.
    change (ptu_format.string_in "ASCII-String" ["ASCII-String"; "Wide-String"])
      with true.
    change ("ASCII-String" =? "Empty8")%string with false.
    change ("ASCII-String" =? "Float8")%string with false.
    cbv iota. unfold ptu_format.prepare_value. simpl rbind. cbv iota.
    fold n. fold (aux.padded_length n). fold len.
    change thdef.BITSLEN_TAG_VALUE with 8. rewrite Hl. simpl rbind.
    unfold ptu_format.tab_string, bytes.zeros. fold n.
    destruct (len - n <? 0) eqn:Hneg'; [apply Z.ltb_lt in Hneg'; lia|].
    simpl rbind. f_equal. rewrite <- !app_assoc. reflexivity.
  - by apply (from_bytes_to_bytes len 8 false).
Qed.

End string_tags.

Lemma write_tag_string_witness :
  let n := Z.of_nat (length (bytes.encode "0.1")) in
  let len := aux.padded_length n in
  ptu_format.write_tag thdef.tag_types thdef.type_code (λ _, Raise TypeError)
    (KeyStr "CreatorSW_Version") (PyStr "0.1")
  = Ok (spec.zero_padded "CreatorSW_Version" ++ [xff; xff; xff; xff]
        ++ [xff; xff; x01; x40] ++ bytes.little_endian 8 len
        ++ bytes.encode "0.1" ++ replicate (Z.to_nat (len - n)) x00)
  ∧ len `mod` 8 = 0 ∧ n < len ≤ n + 8
  ∧ aux.from_bytes (bytes.little_endian 8 len) false = len.
Proof.
  apply (write_tag_string_layout thdef.tag_types (λ _, Raise TypeError)
           "CreatorSW_Version" "0.1").
  - vm_compute. reflexivity.
  - vm_compute. lia.
  - vm_compute. reflexivity.
Defined.

(** ** PTUWriter *)

Section ptu_writer.

Variable tag_types : gmap string string.
Variable struct_pack_d : pyvalue → result (list byte).

Local Abbreviation write_tag :=
  (ptu_format.write_tag tag_types thdef.type_code struct_pack_d).
Local Abbreviation write_tags :=
  (ptu_format.write_tags tag_types thdef.type_code struct_pack_d).
Local Abbreviation write_ptu :=
  (ptu_format.write_ptu tag_types thdef.type_code struct_pack_d).

(** The loop over the tags appends the records in the order of the
    dictionary. *)
Lemma write_tags_concat (tags : list (tagkey * pyvalue))
    (records : list (list byte)) (header : list byte) :
  Forall2 (λ tag record, write_tag tag.1 tag.2 = Ok record) tags records →
  write_tags tags header = Ok (header ++ concat records).
Proof.
  intros Hall. revert header.
  induction Hall as [|[key value] record tags records Hw _ IH]; intros header.
  - simpl. by rewrite app_nil_r.
  - simpl in Hw |- *. rewrite Hw. simpl rbind. rewrite IH.
    by rewrite <- app_assoc.
Qed.

Lemma write_tag_Header_End :
  tag_types !! "Header_End" = Some "Empty8" →
  write_tag (KeyStr "Header_End") PyNone = Ok aux.header_end_record.
Proof.
  intros Hend. unfold ptu_format.write_tag, dict_get. rewrite Hend.
  vm_compute. reflexivity.
Qed.

(** X20. The file that [write_ptu] leaves: when [Header_End] has the type
    [Empty8] and [write_tag] returns a record for every tag, the call
    returns and the output file holds exactly the 16 bytes of magic and
    version, the records of the tags in the order of the dictionary, the
    [Header_End] record and the data; what the file held before is gone,
    and no other file is touched. *)
Theorem write_ptu_file_layout (fs : filesystem) (outputfilename : string)
    (data : list byte) (tags : list (tagkey * pyvalue))
    (records : list (list byte)) :
  tag_types !! "Header_End" = Some "Empty8" →
  Forall2 (λ tag record, write_tag tag.1 tag.2 = Ok record) tags records →
  ∃ fs',
    write_ptu fs outputfilename data tags = (fs', Ok tt)
    ∧ fs' !! outputfilename
      = Some (aux.ptu_preamble ++ concat records ++ aux.header_end_record
              ++ data)
    ∧ ∀ other, other ≠ outputfilename → fs' !! other = fs !! other.
Proof.
  intros Hend Hall.
  unfold ptu_format.write_ptu, ptu_format.ptu_header.
  change (ptu_format.tab_string (bytes.encode thdef.TTTR_MAGIC)
            thdef.BITSLEN_MAGIC)
    with (Ok (bytes.encode "PQTTTR" ++ [x00; x00]) : result (list byte)).
  change (ptu_format.tab_string (bytes.encode thdef.FILE_VERSION)
            thdef.BITSLEN_VERSION)
    with (Ok (bytes.encode "1.1.00" ++ [x00; x00]) : result (list byte)).
  simpl rbind.
  rewrite (write_tags_concat tags records _ Hall). simpl rbind.
  rewrite (write_tag_Header_End Hend). simpl rbind.
  eexists. split; [reflexivity|].
  unfold ptu_format.file_write, ptu_format.file_open_wb, filesystem.
  rewrite !alter_insert_eq. split.
  - rewrite lookup_insert_eq. f_equal.
    let p := eval vm_compute in aux.ptu_preamble in
    change aux.ptu_preamble with p.
    cbn [app]. by rewrite <- app_assoc.
  - intros other Hother. by rewrite lookup_insert_ne.
Qed.

End ptu_writer.

Lemma write_ptu_file_layout_witness :
  ∃ fs',
    ptu_format.write_ptu thdef.tag_types thdef.type_code (λ _, Raise TypeError)
      {["out.ptu" := [x01]; "other.ptu" := [x02]]} "out.ptu" [x05; x00; x00; x00]
      [(KeyStr "Measurement_Mode", PyInt 2)]
    = (fs', Ok tt)
    ∧ fs' !! "out.ptu"
      = Some (aux.ptu_preamble
              ++ concat [spec.zero_padded "Measurement_Mode"
                         ++ [xff; xff; xff; xff] ++ [x08; x00; x00; x10]
                         ++ [x02; x00; x00; x00; x00; x00; x00; x00]]
              ++ aux.header_end_record ++ [x05; x00; x00; x00])
    ∧ ∀ other, other ≠ "out.ptu" →
        fs' !! other
        = ({["out.ptu" := [x01]; "other.ptu" := [x02]]} : filesystem) !! other.
Proof.
  apply (write_ptu_file_layout thdef.tag_types (λ _, Raise TypeError)).
  - vm_compute. reflexivity.
  - repeat constructor.
Defined.

(** ** The records of a measurement *)

Section get_records.

Variable np_empty : nat → Z.

Local Abbreviation get_records := (TH260.get_records np_empty).
Local Abbreviation add_buffer_all := (TH260.add_buffer_all np_empty).

Lemma concat_nonempty (buffers : list (list Z)) :
  buffers ≠ [] → Forall (λ b, b ≠ []) buffers → concat buffers ≠ [].
Proof.
  intros Hne Hall. destruct buffers as [|b rest]; [done|].
  inversion Hall as [|? ? Hb _]; subst. simpl. by destruct b.
Qed.

(** The loop over the channels feeds the buffer to each result. *)
Lemma add_buffer_all_spec (records : list (Z * T2Result.t)) (buffer : list Z)
    (room : Z) :
  Forall (λ cr, aux.T2_ready room cr.2) records →
  buffer ≠ [] →
  ∃ records',
    add_buffer_all records buffer = Ok records'
    ∧ Forall2 (λ cr cr',
         cr'.1 = cr.1
         ∧ ∃ acc,
             T2Result._n_overflows cr.2 = Some acc
             ∧ T2Result.timetags cr'.2
               = T2Result.timetags cr.2
                 ++ aux.T2_absolute acc (T2Result._channel cr.2) buffer
             ∧ T2Result._n_overflows cr'.2
               = Some (acc + aux.T2_total buffer))
        records records'.
Proof.
  intros Hall Hne.
  induction Hall as [|[channel r] rest [Hwf (acc & Hacc & _)] _
                       (rest' & Hrest & IH)].
  - exists []. split; [done|constructor].
  - simpl in Hwf, Hacc.
    destruct (T2_add_buffer_spec np_empty r buffer acc Hwf Hacc Hne)
      as (r' & Hadd & Hwf' & Hacc' & Htt & Hch).
    exists ((channel, r') :: rest'). simpl. rewrite Hadd. simpl rbind.
    rewrite Hrest. simpl rbind. split; [done|].
    constructor; [|done]. simpl. split; [done|]. by exists acc.
Qed.

(** [get_records] when some saved buffers are unread. *)
Lemma get_records_unread (s : TH260.t) (records : list (Z * T2Result.t))
    (p : Z) :
  TH260._records s = Some records →
  TH260._records_read_position s = Some p →
  0 ≤ p < Z.of_nat (length (TH260._local_buffer s)) →
  get_records s
  = (let* records' :=
       add_buffer_all records
         (concat (drop (Z.to_nat p) (TH260._local_buffer s))) in
     Ok (TH260.mk (TH260._keep_buffer s)
           (if TH260._keep_buffer s then TH260._local_buffer s
            else take (Z.to_nat p) (TH260._local_buffer s))
           (Some records')
           (Some (if TH260._keep_buffer s
                  then Z.of_nat (length (TH260._local_buffer s)) else 0)))).
Proof.
  intros Hrec Hpos Hp. unfold TH260.get_records.
  rewrite Hpos, Hrec. simpl rbind.
  destruct (Z.eqb_spec p (Z.of_nat (length (TH260._local_buffer s))))
    as [->|_]; [lia|].
  rewrite get_slice_range by lia.
  rewrite take_ge by (rewrite length_drop; lia).
  unfold np_concatenate.
  destruct (drop (Z.to_nat p) (TH260._local_buffer s)) as [|b rest] eqn:Hdrop.
  { apply (f_equal length) in Hdrop. rewrite length_drop in Hdrop.
    simpl in Hdrop. lia. }
  simpl rbind.
  destruct (TH260.add_buffer_all _ _ _) as [records'|e]; simpl rbind; [|done].
  destruct (TH260._keep_buffer s); [done|].
  do 2 f_equal. unfold py_del_slice, py.slice_indices. simpl.
  rewrite !clip_index_in_range by lia.
  rewrite drop_ge by lia. by rewrite app_nil_r.
Qed.

(** X21. [get_records] reads the unread buffers, once: when saved buffers
    are unread (the read position [p] is below their number), the buffers
    are not empty and every channel result has a well-formed table and an
    accumulator that is not negative and, with the overflow total of the
    unread records added, stays below [2^32], the call returns; each
    channel keeps its key and its earlier timetags and gains the absolute
    timetags of its photons in the concatenation of the buffers from
    position [p] on, and its accumulator grows by the overflow total of
    that concatenation; buffers that are kept stay as they are and the
    read position moves to their number, buffers that are not kept are
    deleted from position [p] on and the read position becomes 0. *)
Theorem get_records_reads_the_unread_buffers (s : TH260.t)
    (records : list (Z * T2Result.t)) (p : Z) :
  let unread := concat (drop (Z.to_nat p) (TH260._local_buffer s)) in
  TH260._records s = Some records →
  Forall (λ cr, aux.T2_ready (aux.T2_total unread) cr.2) records →
  TH260._records_read_position s = Some p →
  0 ≤ p < Z.of_nat (length (TH260._local_buffer s)) →
  Forall (λ b, b ≠ []) (TH260._local_buffer s) →
  ∃ s' records',
    get_records s = Ok s'
    ∧ TH260._records s' = Some records'
    ∧ Forall2 (λ cr cr',
         cr'.1 = cr.1
         ∧ ∃ acc,
             T2Result._n_overflows cr.2 = Some acc
             ∧ T2Result.timetags cr'.2
               = T2Result.timetags cr.2
                 ++ aux.T2_absolute acc (T2Result._channel cr.2) unread
             ∧ T2Result._n_overflows cr'.2
               = Some (acc + aux.T2_total unread))
        records records'
    ∧ TH260._keep_buffer s' = TH260._keep_buffer s
    ∧ if TH260._keep_buffer s
      then TH260._local_buffer s' = TH260._local_buffer s
           ∧ TH260._records_read_position s'
             = Some (Z.of_nat (length (TH260._local_buffer s)))
      else TH260._local_buffer s' = take (Z.to_nat p) (TH260._local_buffer s)
           ∧ TH260._records_read_position s' = Some 0.
Proof.
  intros unread Hrec Hready Hpos Hp Hne.
  assert (Hunread : unread ≠ []).
  { apply concat_nonempty.
    - intros Hdrop. apply (f_equal length) in Hdrop.
      rewrite length_drop in Hdrop. simpl in Hdrop. lia.
    - rewrite <- (take_drop (Z.to_nat p)) in Hne.
      by apply Forall_app in Hne as [_ Hne]. }
  destruct (add_buffer_all_spec records unread _ Hready Hunread)
    as (records' & Hall & Hrel).
  rewrite (get_records_unread s records p Hrec Hpos Hp).
  fold unread. rewrite Hall. simpl rbind.
  eexists. exists records'. split; [reflexivity|]. simpl.
  split; [done|]. split.
  - exact Hrel.
  - split; [done|]. by destruct (TH260._keep_buffer s).
Qed.

(** X22. Polling without new buffers changes nothing: from a state whose
    read position lies within the saved buffers, and is 0 when the
    buffers are not kept, a [get_records] that returned leaves a state on
    which the next [get_records] returns at once with the same records,
    buffers and read position, so that no record is fed to a channel
    twice. *)
Theorem get_records_again (s s' : TH260.t) (p : Z) :
  TH260._records_read_position s = Some p →
  0 ≤ p ≤ Z.of_nat (length (TH260._local_buffer s)) →
  (TH260._keep_buffer s = false → p = 0) →
  get_records s = Ok s' →
  get_records s' = Ok s' ∧ aux.all_read s'.
Proof.
  intros Hpos Hp Hkeep Hget.
  assert (Hdone : is_Some (TH260._records s') ∧ aux.all_read s').
  { revert Hget. unfold TH260.get_records. rewrite Hpos. simpl rbind.
    destruct (Z.eqb_spec p (Z.of_nat (length (TH260._local_buffer s))))
      as [->|Hlt].
    - destruct (TH260._records s) as [records|] eqn:Hrec; simpl rbind; [|done].
      intros [= <-]. split; [by rewrite Hrec|].
      split; [done|]. intros Hk. specialize (Hkeep Hk).
      by destruct (TH260._local_buffer s).
    - destruct (np_concatenate _) as [buffer|e]; simpl rbind; [|done].
      destruct (TH260._records s) as [records|]; simpl rbind; [|done].
      destruct (TH260.add_buffer_all _ _ _) as [records'|e]; simpl rbind;
        [|done].
      destruct (TH260._keep_buffer s) eqn:Hk.
      + intros [= <-]. simpl. split; [done|]. split; [done|]. done.
      + intros [= <-]. simpl. split; [done|].
        specialize (Hkeep eq_refl). subst p.
        assert (Hdel : py_del_slice (TH260._local_buffer s) (Some 0)
                         (Some (Z.of_nat (length (TH260._local_buffer s))))
                       = []).
        { unfold py_del_slice, py.slice_indices. simpl.
          rewrite !clip_index_in_range by lia. simpl.
          rewrite drop_ge by lia. done. }
        split; simpl; by rewrite Hdel. }
  destruct Hdone as [[records' Hrec'] [Hpos' Hk']].
  split; [|done].
  unfold TH260.get_records. rewrite Hpos', Hrec'. simpl rbind.
  by rewrite Z.eqb_refl.
Qed.

(** Two polls against one poll, channel by channel. *)
Lemma add_buffer_all_twice (records : list (Z * T2Result.t))
    (b1 b2 : list Z) :
  Forall (λ cr,
     aux.T2_ready (spec.overflow_sum spec.T2_field (b1 ++ b2)) cr.2)
    records →
  b1 ≠ [] → b2 ≠ [] →
  ∃ rs1 rs12 rs',
    add_buffer_all records b1 = Ok rs1
    ∧ add_buffer_all rs1 b2 = Ok rs12
    ∧ add_buffer_all records (b1 ++ b2) = Ok rs'
    ∧ Forall2 (λ cr12 cr',
         cr12.1 = cr'.1 ∧ aux.T2_content cr12.2 = aux.T2_content cr'.2)
        rs12 rs'.
Proof.
  intros Hall Hne1 Hne2.
  induction Hall as [|[channel r] rest [Hwf (acc & Hacc & Hlo & Hroom)] _
                       (rs1 & rs12 & rs' & H1 & H12 & H' & IH)].
  - exists [], [], []. repeat split; constructor.
  - simpl in Hwf, Hacc.
    destruct (T2_add_buffer_twice np_empty r acc b1 b2 Hwf Hacc Hne1 Hne2
                ltac:(lia))
      as (r1 & r12 & r' & Ha1 & Ha2 & Ha' & Htt & Hov).
    exists ((channel, r1) :: rs1), ((channel, r12) :: rs12),
      ((channel, r') :: rs').
    simpl. rewrite Ha1, Ha', H1, H'. simpl rbind. rewrite Ha2, H12. simpl rbind.
    repeat split; try done. constructor; [|done]. simpl.
    split; [done|]. unfold aux.T2_content. by rewrite Htt, Hov.
Qed.

(** X23. How often the records are polled does not matter, short of a
    wrap: from a state in which every saved buffer has been read and every
    channel result has a well-formed table and an accumulator that is not
    negative and, with the overflow payloads of all the arriving records
    added, stays below [2^32], when the non-empty buffers [bs1] arrive,
    the records are polled, the non-empty buffers [bs2] arrive and the
    records are polled again, every channel holds the same timetags and
    the same accumulator, and the object the same saved buffers and read
    position, as when [bs1] and [bs2] arrive and the records are polled
    once. *)
Theorem get_records_polling_granularity (s : TH260.t)
    (records : list (Z * T2Result.t)) (bs1 bs2 : list (list Z)) :
  TH260._records s = Some records →
  Forall (λ cr,
     aux.T2_ready (spec.overflow_sum spec.T2_field (concat (bs1 ++ bs2))) cr.2)
    records →
  aux.all_read s →
  bs1 ≠ [] → bs2 ≠ [] →
  Forall (λ b, b ≠ []) (bs1 ++ bs2) →
  ∃ s1 s12 s' rs12 rs',
    get_records (aux.buffers_arrive s bs1) = Ok s1
    ∧ get_records (aux.buffers_arrive s1 bs2) = Ok s12
    ∧ get_records (aux.buffers_arrive s (bs1 ++ bs2)) = Ok s'
    ∧ TH260._local_buffer s12 = TH260._local_buffer s'
    ∧ TH260._records_read_position s12 = TH260._records_read_position s'
    ∧ TH260._records s12 = Some rs12
    ∧ TH260._records s' = Some rs'
    ∧ Forall2 (λ cr12 cr',
         cr12.1 = cr'.1 ∧ aux.T2_content cr12.2 = aux.T2_content cr'.2)
        rs12 rs'.
Proof.
  intros Hrec Hready [Hpos Hkeep] Hne1 Hne2 Hall.
  apply Forall_app in Hall as [Hall1 Hall2].
  rewrite concat_app in Hready.
  destruct (add_buffer_all_twice records (concat bs1) (concat bs2) Hready
              (concat_nonempty bs1 Hne1 Hall1)
              (concat_nonempty bs2 Hne2 Hall2))
    as (rs1 & rs12 & rs' & H1 & H12 & H' & Hrel).
  assert (Hlen1 : (0 < length bs1)%nat) by (destruct bs1; [done|simpl; lia]).
  assert (Hlen2 : (0 < length bs2)%nat) by (destruct bs2; [done|simpl; lia]).
  destruct s as [keep lb recs pos]. simpl in Hrec, Hpos, Hkeep. subst recs pos.
  unfold aux.buffers_arrive. simpl.
  (* the first poll *)
  rewrite (get_records_unread (TH260.mk keep (lb ++ bs1) _ _) records
             (Z.of_nat (length lb)) eq_refl eq_refl)
    by (simpl; rewrite length_app; lia).
  simpl. rewrite Nat2Z.id, drop_app_length, H1. simpl rbind.
  (* the single poll *)
  rewrite (get_records_unread (TH260.mk keep (lb ++ bs1 ++ bs2) _ _) records
             (Z.of_nat (length lb)) eq_refl eq_refl)
    by (simpl; rewrite !length_app; lia).
  simpl. rewrite Nat2Z.id, drop_app_length, concat_app, H'. simpl rbind.
  destruct keep.
  - (* the buffers are kept *)
    do 3 eexists. exists rs12, rs'. split; [reflexivity|]. simpl.
    rewrite (get_records_unread (TH260.mk true ((lb ++ bs1) ++ bs2) _ _) rs1
               (Z.of_nat (length (lb ++ bs1))) eq_refl eq_refl)
      by (simpl; rewrite !length_app; lia).
    simpl. rewrite Nat2Z.id, drop_app_length, H12. simpl rbind.
    split; [reflexivity|]. split; [reflexivity|].
    simpl. rewrite <- app_assoc. done.
  - (* the buffers are deleted *)
    rewrite (Hkeep eq_refl). simpl.
    do 3 eexists. exists rs12, rs'. split; [reflexivity|]. simpl.
    rewrite (get_records_unread (TH260.mk false bs2 _ _) rs1 0 eq_refl eq_refl)
      by (simpl; lia).
    simpl. change (Z.to_nat 0) with 0%nat. rewrite drop_0, H12. simpl rbind.
    split; [reflexivity|]. split; [reflexivity|].
    done.
Qed.

End get_records.

Lemma get_records_reads_witness :
  let s := TH260.mk false [[0x00000005; 0xFE000003]; [0x00000010]]
             (Some [(1, T2Result.__init__ 1 None false)]) (Some 0) in
  ∃ s' r',
    TH260.get_records (λ _, 0) s = Ok s'
    ∧ TH260._records s' = Some [(1, r')]
    ∧ T2Result.timetags r' = [5; 3 * 0x2000000 + 16]
    ∧ T2Result._n_overflows r' = Some 3
    ∧ TH260._local_buffer s' = []
    ∧ TH260._records_read_position s' = Some 0.
Proof.
  intros s.
  destruct (get_records_reads_the_unread_buffers (λ _, 0) s
              [(1, T2Result.__init__ 1 None false)] 0)
    as (s' & records' & Hget & Hrec & Hrel & _ & Hlb & Hpos).
  - reflexivity.
  - constructor; [split; [apply init_well_formed|]|constructor].
    exists 0. split; [reflexivity|]. split; [lia|]. vm_compute. reflexivity.
  - reflexivity.
  - simpl. lia.
  - repeat constructor; discriminate.
  - inversion Hrel as [|cr [channel r'] rest rest'
                         [Hkey (acc & Hacc & Htt & Hov)] Hrest]; subst.
    inversion Hrest; subst. simpl in Hkey, Hacc, Htt, Hov. subst channel.
    injection Hacc as <-.
    exists s', r'. split; [exact Hget|]. split; [exact Hrec|].
    split; [rewrite Htt; vm_compute; reflexivity|].
    split; [rewrite Hov; vm_compute; reflexivity|].
    split; [exact Hlb|exact Hpos].
Defined.

Lemma get_records_again_witness :
  let s := TH260.mk false [[0x00000005; 0xFE000003]; [0x00000010]]
             (Some [(1, T2Result.__init__ 1 None false)]) (Some 0) in
  ∃ s',
    TH260.get_records (λ _, 0) s = Ok s'
    ∧ TH260.get_records (λ _, 0) s' = Ok s'
    ∧ aux.all_read s'.
Proof.
  intros s.
  destruct (TH260.get_records (λ _, 0) s) as [s'|e] eqn:Hget.
  - exists s'. split; [reflexivity|].
    apply (get_records_again (λ _, 0) s s' 0).
    + reflexivity.
    + simpl. lia.
    + reflexivity.
    + exact Hget.
  - vm_compute in Hget. discriminate Hget.
Defined.

Lemma get_records_polling_witness :
  let s := TH260.mk true [] (Some [(1, T2Result.__init__ 1 None false)])
             (Some 0) in
  let bs1 := [[0x00000005; 0xFE000003]] in
  let bs2 := [[0x00000010; 0xFE000002]; [0x00000001]] in
  ∃ s1 s12 s' rs12 rs',
    TH260.get_records (λ _, 0) (aux.buffers_arrive s bs1) = Ok s1
    ∧ TH260.get_records (λ _, 0) (aux.buffers_arrive s1 bs2) = Ok s12
    ∧ TH260.get_records (λ _, 0) (aux.buffers_arrive s (bs1 ++ bs2)) = Ok s'
    ∧ TH260._local_buffer s12 = TH260._local_buffer s'
    ∧ TH260._records_read_position s12 = TH260._records_read_position s'
    ∧ TH260._records s12 = Some rs12
    ∧ TH260._records s' = Some rs'
    ∧ Forall2 (λ cr12 cr',
         cr12.1 = cr'.1 ∧ aux.T2_content cr12.2 = aux.T2_content cr'.2)
        rs12 rs'.
Proof.
  intros s bs1 bs2.
  apply (get_records_polling_granularity (λ _, 0) s
           [(1, T2Result.__init__ 1 None false)] bs1 bs2).
  - reflexivity.
  - constructor; [split; [apply init_well_formed|]|constructor].
    exists 0. split; [reflexivity|]. split; [lia|]. vm_compute. reflexivity.
  - split; [reflexivity|discriminate].
  - discriminate.
  - discriminate.
  - repeat constructor; discriminate.
Defined.

(** ** TagCodec: the size of a record *)

Section record_size.

Variable tag_types : gmap string string.
Variable type_code : gmap string Z.
Variable struct_pack_d : pyvalue → result (list byte).

Local Abbreviation write_tag :=
  (ptu_format.write_tag tag_types type_code struct_pack_d).

Lemma tab_string_length (bstring : list byte) (len : Z) (r : list byte) :
  ptu_format.tab_string bstring len = Ok r → Z.of_nat (length r) = len.
Proof.
  unfold ptu_format.tab_string, bytes.zeros.
  destruct (Z.ltb_spec (len - Z.of_nat (length bstring)) 0) as [|Hge];
    [done|].
  simpl rbind. intros [= <-]. rewrite length_app, length_replicate. lia.
Qed.

Lemma to_bytes_length (z len : Z) (signed : bool) (b : list byte) :
  bytes.to_bytes z len signed = Ok b → Z.of_nat (length b) = len.
Proof.
  unfold bytes.to_bytes.
  destruct (Z.ltb_spec len 0) as [|Hge]; [done|].
  destruct (if len =? 0 then _ else _); [|done].
  intros [= <-]. rewrite length_little_endian. lia.
Qed.

Lemma value_to_bytes_length (value : pyvalue) (len : Z) (signed : bool)
    (b : list byte) :
  ptu_format.value_to_bytes value len signed = Ok b →
  Z.of_nat (length b) = len.
Proof. destruct value; simpl; try done; apply to_bytes_length. Qed.

(** X24. The size of a tag record: when [struct.pack("<d", ...)] gives
    8 bytes, every record that [write_tag] returns for a tag whose type is
    not one of [BitSet64], [Color8] and [TDateTime] has at least 48 bytes
    (32 of id, 4 of index, 4 of type code, 8 of value or length) and a
    multiple of 8 bytes, whatever the key, the type and the value are. *)
Theorem write_tag_record_size (key : tagkey) (value : pyvalue)
    (dtype : string) (record : list byte) :
  (∀ v b, struct_pack_d v = Ok b → length b = 8%nat) →
  tag_types !! spec.key_tag_id key = Some dtype →
  dtype ∉ ["BitSet64"; "Color8"; "TDateTime"] →
  write_tag key value = Ok record →
  48 ≤ Z.of_nat (length record) ∧ Z.of_nat (length record) `mod` 8 = 0.
Proof.
  intros Hpack Hty Hraw.
  assert (Hnot : ptu_format.string_in dtype ["BitSet64"; "Color8"; "TDateTime"]
                 = false).
  { unfold ptu_format.string_in. simpl.
    destruct (String.eqb_spec dtype "BitSet64") as [->|_];
      [exfalso; apply Hraw; set_solver|].
    destruct (String.eqb_spec dtype "Color8") as [->|_];
      [exfalso; apply Hraw; set_solver|].
    destruct (String.eqb_spec dtype "TDateTime") as [->|_];
      [exfalso; apply Hraw; set_solver|].
    done. }
  unfold ptu_format.write_tag, dict_get.
  assert (Hid : ∀ B (f : string → pyvalue → B),
             (let '(tag_id, tag_idx) :=
                match key with
                | KeyTuple tag_id tag_idx => (tag_id, tag_idx)
                | KeyStr tag_id => (tag_id, PyNone)
                end in f tag_id tag_idx)
             = f (spec.key_tag_id key)
                 match key with
                 | KeyTuple _ tag_idx => tag_idx
                 | KeyStr _ => PyNone
                 end) by (by destruct key).
  rewrite Hid. clear Hid. rewrite Hty. cbn [rbind].
  destruct (ptu_format.tab_string _ _) as [header|e] eqn:Hheader;
    cbn [rbind]; [|done].
  apply tab_string_length in Hheader.
  destruct (match match key with
                  | KeyTuple _ tag_idx => tag_idx
                  | KeyStr _ => PyNone
                  end with
            | PyNone => _
            | _ => _
            end) as [idx|e] eqn:Hidx; cbn [rbind]; [|done].
  assert (Hidx' : Z.of_nat (length idx) = 4).
  { destruct (match key with
              | KeyTuple _ tag_idx => tag_idx
              | KeyStr _ => PyNone
              end) eqn:Hkey;
      first [by injection Hidx as <-
            |by apply value_to_bytes_length in Hidx]. }
  clear Hidx.
  destruct (type_code !! dtype) as [code|]; cbn [rbind]; [|done].
  destruct (bytes.to_bytes code _ _) as [cb|e] eqn:Hcode; cbn [rbind]; [|done].
  apply to_bytes_length in Hcode.
  unfold thdef.BITSLEN_TAG_ID, thdef.BITSLEN_TAG_TYPECODE in *.
  destruct (String.eqb dtype "Empty8").
  { cbn [rbind bytes.zeros]. simpl. intros [= <-].
    rewrite !length_app, !Nat2Z.inj_add, Hheader, Hidx', Hcode. simpl.
    split; [lia|done]. }
  destruct (ptu_format.string_in dtype ["Bool8"; "Int8"]).
  { destruct (ptu_format.value_to_bytes _ _ _) as [v|e] eqn:Hv;
      cbn [rbind]; [|done].
    apply value_to_bytes_length in Hv. unfold thdef.BITSLEN_TAG_VALUE in Hv.
    intros [= <-].
    rewrite !length_app, !Nat2Z.inj_add, Hheader, Hidx', Hcode, Hv.
    split; [lia|done]. }
  destruct (String.eqb dtype "Float8").
  { destruct (struct_pack_d value) as [v|e] eqn:Hv; cbn [rbind]; [|done].
    apply Hpack in Hv. intros [= <-].
    rewrite !length_app, !Nat2Z.inj_add, Hheader, Hidx', Hcode, Hv.
    split; [lia|done]. }
  rewrite Hnot.
  destruct (ptu_format.string_in dtype
              ["Float8Array"; "ASCII-String"; "Wide-String"; "BinaryBlob"]);
    [|done].
  destruct (ptu_format.prepare_value _ _ _ _) as [payload|e]; cbn [rbind];
    [|done].
  destruct (bytes.to_bytes _ _ _) as [l|e] eqn:Hl; cbn [rbind]; [|done].
  apply to_bytes_length in Hl. unfold thdef.BITSLEN_TAG_VALUE in Hl.
  destruct (ptu_format.tab_string _ _) as [v|e] eqn:Hv; cbn [rbind]; [|done].
  pose proof Hv as Hv'. apply tab_string_length in Hv'.
  unfold ptu_format.tab_string, bytes.zeros in Hv.
  destruct (Z.ltb_spec
              ((if ptu_format.string_in dtype ["ASCII-String"; "Wide-String"]
                then Z.of_nat (length payload) + 1
                else Z.of_nat (length payload))
               + (8 - (if ptu_format.string_in dtype
                            ["ASCII-String"; "Wide-String"]
                       then Z.of_nat (length payload) + 1
                       else Z.of_nat (length payload)) `mod` 8) `mod` 8
               - Z.of_nat (length payload)) 0) as [|Hge]; [done|].
  clear Hv. intros [= <-].
  rewrite !length_app, !Nat2Z.inj_add, Hheader, Hidx', Hcode, Hl, Hv'.
  destruct (ptu_format.string_in dtype ["ASCII-String"; "Wide-String"]);
    split; Z.to_euclidean_division_equations; lia.
Qed.

End record_size.

Lemma write_tag_record_size_witness :
  ∃ record,
    ptu_format.write_tag thdef.tag_types thdef.type_code (λ _, Raise TypeError)
      (KeyStr "File_Comment") (PyStr "dark counts") = Ok record
    ∧ 48 ≤ Z.of_nat (length record)
    ∧ Z.of_nat (length record) `mod` 8 = 0.
Proof.
  destruct (ptu_format.write_tag thdef.tag_types thdef.type_code
              (λ _, Raise TypeError) (KeyStr "File_Comment")
              (PyStr "dark counts")) as [record|e] eqn:Hw.
  - exists record. split; [reflexivity|].
    apply (write_tag_record_size thdef.tag_types thdef.type_code
             (λ _, Raise TypeError) (KeyStr "File_Comment")
             (PyStr "dark counts") "ASCII-String" record).
    + intros v b Hb. discriminate Hb.
    + vm_compute. reflexivity.
    + apply (bool_decide_unpack _). vm_compute. exact I.
    + exact Hw.
  - vm_compute in Hw. discriminate Hw.
Defined.
